(** * fitness-app data-preparation scripts: a shallow embedding

    The two scripts under [scripts/] are embedded function by function:

    - [scripts/audit_and_clean_exercises_csv.py]: [_is_empty],
      [_parse_json_array], [_pg_array_literal] and the column loops of
      [main];
    - [scripts/convert_functional_fitness_xlsx.py]: [_clean_str],
      [_dedupe_case_insensitive], [_map_difficulty], [_map_category],
      [_stable_exercise_id], the row loop and the id repair pass of [main].

    Conventions of the model.

    - Python [str] is [string].  The character-level operations ([strip],
      [casefold], slicing) act on single characters and agree with Python
      on ASCII text; a code point above 127 produced by a JSON [\u] escape
      is kept as its UTF-8 bytes.
    - A table cell and an element of a parsed JSON document are [pyval]s.
      A finite float is kept as the decimal text that denotes it; whether
      it is zero is computed from that text, and its [repr] and the
      [repr] of a list or dict are parameters of the model, the class
      [Python].
    - [json.loads] and [uuid.uuid5] are library code; both are modelled
      here ([Json.loads], [Uuid.uuid5]) so that the claims are settled by
      computation and proof and not by assumption.  The interpreter's
      limits (recursion depth, digits of an integer literal) are not
      modelled.
    - pandas and openpyxl are outside the model: a data frame is a finite
      map from column names to columns, and reading or writing a file is a
      parameter of [main]. *)

From Stdlib Require Import Ascii String NArith ZArith Lia List Bool.
From stdpp Require Import base tactics option list gmap strings pretty.
Import ListNotations.

(** ** Characters *)

Module Chr.

Definition code (c : ascii) : N := N_of_ascii c.

(** [str.isspace] on one ASCII character: TAB..CR, FS..US and space. *)
Definition is_space (c : ascii) : bool :=
  let n := code c in
  ((9 <=? n) && (n <=? 13) || (28 <=? n) && (n <=? 32))%N.

Definition is_digit (c : ascii) : bool :=
  let n := code c in ((48 <=? n) && (n <=? 57))%N.

Definition is_upper (c : ascii) : bool :=
  let n := code c in ((65 <=? n) && (n <=? 90))%N.

(** [str.casefold] on one ASCII character. *)
Definition fold (c : ascii) : ascii :=
  if is_upper c then ascii_of_N (code c + 32) else c.

Definition dquote : ascii := "034"%char.
Definition backslash : ascii := "\"%char.
Definition comma : ascii := ","%char.

End Chr.

(** ** Text operations of Python's [str] *)

Module Str.

Fixpoint map (f : ascii → ascii) (s : string) : string :=
  match s with
  | EmptyString => EmptyString
  | String c r => String (f c) (map f r)
  end.

Definition casefold : string → string := map Chr.fold.

Fixpoint forallb (p : ascii → bool) (s : string) : bool :=
  match s with
  | EmptyString => true
  | String c r => p c && forallb p r
  end.

Definition is_nil (s : string) : bool :=
  match s with EmptyString => true | _ => false end.

(** [s.lstrip(chars)], [s.rstrip(chars)], [s.strip(chars)], with the set
    of characters given as a predicate. *)
Fixpoint lstrip_by (p : ascii → bool) (s : string) : string :=
  match s with
  | EmptyString => EmptyString
  | String c r => if p c then lstrip_by p r else s
  end.

Fixpoint rstrip_by (p : ascii → bool) (s : string) : string :=
  match s with
  | EmptyString => EmptyString
  | String c r =>
      let r' := rstrip_by p r in
      if is_nil r' && p c then EmptyString else String c r'
  end.

Definition strip_by (p : ascii → bool) (s : string) : string :=
  rstrip_by p (lstrip_by p s).

(** [s.strip()] *)
Definition strip : string → string := strip_by Chr.is_space.

(** [s.replace(old, new)] for a one-character [old]. *)
Fixpoint replace (old : ascii) (new : string) (s : string) : string :=
  match s with
  | EmptyString => EmptyString
  | String c r =>
      if Ascii.eqb c old then new +:+ replace old new r
      else String c (replace old new r)
  end.

(** [sep.join(items)] *)
Fixpoint join (sep : string) (items : list string) : string :=
  match items with
  | [] => EmptyString
  | [x] => x
  | x :: rest => x +:+ sep +:+ join sep rest
  end.

(** [s.split(sep)] for a one-character [sep]: never an empty list. *)
Fixpoint split (sep : ascii) (s : string) : list string :=
  match s with
  | EmptyString => [EmptyString]
  | String c r =>
      if Ascii.eqb c sep then EmptyString :: split sep r
      else match split sep r with
           | p :: ps => String c p :: ps
           | [] => [String c EmptyString]
           end
  end.

(** [s.split()]: the maximal runs of non-whitespace characters. *)
Fixpoint words_go (cur : string) (s : string) : list string :=
  match s with
  | EmptyString => if is_nil cur then [] else [String.rev cur]
  | String c r =>
      if Chr.is_space c
      then (if is_nil cur then [] else [String.rev cur]) ++ words_go EmptyString r
      else words_go (String c cur) r
  end.
Definition words : string → list string := words_go EmptyString.

(** [s.startswith(p)] *)
Fixpoint startswith (p s : string) : bool :=
  match p, s with
  | EmptyString, _ => true
  | String a p', String b s' => Ascii.eqb a b && startswith p' s'
  | String _ _, EmptyString => false
  end.

(** [k in s] *)
Fixpoint contains (k s : string) : bool :=
  startswith k s ||
  match s with
  | EmptyString => false
  | String _ r => contains k r
  end.

(** The last character, if any: [s.endswith(c)] is [last s = Some c]. *)
Fixpoint last (s : string) : option ascii :=
  match s with
  | EmptyString => None
  | String c EmptyString => Some c
  | String _ r => last r
  end.

(** [s[:-1]] *)
Fixpoint drop_last (s : string) : string :=
  match s with
  | EmptyString => EmptyString
  | String _ EmptyString => EmptyString
  | String c r => String c (drop_last r)
  end.

(** [s[1:]] *)
Definition tail (s : string) : string :=
  match s with
  | EmptyString => EmptyString
  | String _ r => r
  end.

(** [s[:n]] *)
Fixpoint take (n : nat) (s : string) : string :=
  match n, s with
  | S k, String c r => String c (take k r)
  | _, _ => EmptyString
  end.

Definition eqb (a b : string) : bool := bool_decide (a = b).

End Str.

(** ** The array-literal encoder

    [_pg_array_literal] is the same function in both scripts. *)

Definition dq : string := String Chr.dquote EmptyString.

Definition quote_item (item : string) : string :=
  let s := item in
  let s := Str.replace Chr.dquote ("\" +:+ dq) (Str.replace Chr.backslash "\\" s) in
  dq +:+ s +:+ dq.

Definition _pg_array_literal (items : list string) : string :=
  let escaped := List.map quote_item items in
  "{" +:+ Str.join "," escaped +:+ "}".

(** ** Python values

    What a table cell or an element of a parsed JSON document can be. *)

#[local] Set Warnings "-register-all".

Inductive pyfloat :=
| FNaN
| FInf (negative : bool)
| FNum (lexeme : string).   (* the double written [lexeme] *)

Inductive pyval :=
| PNone
| PBool (b : bool)
| PInt (z : Z)
| PFloat (f : pyfloat)
| PStr (s : string)
| PList (items : list pyval)
| PDict (members : list (string * pyval)).

(** ** [json.loads]

    The scanner of Python's [json] module: [scanstring] (strict),
    [_match_number], [_parse_array], [_parse_object] and [scan_once], then
    the check of [JSONDecoder.decode] that only whitespace follows. *)

Module Json.

Inductive parsed (A : Type) :=
| Ok (a : A) (rest : string)
| Err
| OutOfFuel.
Arguments Ok {A} a rest.
Arguments Err {A}.
Arguments OutOfFuel {A}.

Definition is_ws (c : ascii) : bool :=
  match c with
  | " "%char | "009"%char | "010"%char | "013"%char => true
  | _ => false
  end.

Fixpoint skip_ws (s : string) : string :=
  match s with
  | String c r => if is_ws c then skip_ws r else s
  | EmptyString => EmptyString
  end.

Definition hex_val (c : ascii) : option N :=
  let n := Chr.code c in
  if ((48 <=? n) && (n <=? 57))%N then Some (n - 48)%N
  else if ((97 <=? n) && (n <=? 102))%N then Some (n - 87)%N
  else if ((65 <=? n) && (n <=? 70))%N then Some (n - 55)%N
  else None.

Definition hex4 (a b c d : ascii) : option N :=
  match hex_val a, hex_val b, hex_val c, hex_val d with
  | Some x, Some y, Some z, Some w => Some (((x * 16 + y) * 16 + z) * 16 + w)%N
  | _, _, _, _ => None
  end.

Definition chr_byte (n : N) : string := String (ascii_of_N n) EmptyString.

(** The text of one code point, as UTF-8. *)
Definition utf8 (cp : N) : string :=
  if (cp <? 128)%N then chr_byte cp
  else if (cp <? 2048)%N then
    chr_byte (192 + cp / 64) +:+ chr_byte (128 + cp mod 64)
  else if (cp <? 65536)%N then
    chr_byte (224 + cp / 4096) +:+ chr_byte (128 + (cp / 64) mod 64)
    +:+ chr_byte (128 + cp mod 64)
  else
    chr_byte (240 + cp / 262144) +:+ chr_byte (128 + (cp / 4096) mod 64)
    +:+ chr_byte (128 + (cp / 64) mod 64) +:+ chr_byte (128 + cp mod 64).

Definition is_high_surrogate (cp : N) : bool := ((55296 <=? cp) && (cp <=? 56319))%N.
Definition is_low_surrogate (cp : N) : bool := ((56320 <=? cp) && (cp <=? 57343))%N.

Definition simple_escape (c : ascii) : option ascii :=
  match c with
  | "034"%char => Some "034"%char
  | "\"%char => Some "\"%char
  | "/"%char => Some "/"%char
  | "b"%char => Some "008"%char
  | "f"%char => Some "012"%char
  | "n"%char => Some "010"%char
  | "r"%char => Some "013"%char
  | "t"%char => Some "009"%char
  | _ => None
  end.

Definition cons_text (t : string) (r : option (string * string)) : option (string * string) :=
  match r with
  | Some (u, rest) => Some (t +:+ u, rest)
  | None => None
  end.

(** [s] after its first character, when that character is [c]. *)
Definition after (c : ascii) (s : string) : option string :=
  match s with
  | String a r => if Ascii.eqb a c then Some r else None
  | EmptyString => None
  end.

(** [scanstring], entered just after the opening quote: the decoded text
    and what follows the closing quote.  A [\u] escape is one code point,
    or the first half of a surrogate pair whose second half is the next
    escape. *)
Fixpoint scan_string (s : string) : option (string * string) :=
  match s with
  | EmptyString => None
  | String c r =>
      if Ascii.eqb c Chr.dquote then Some (EmptyString, r)
      else if Ascii.eqb c Chr.backslash then
        match r with
        | EmptyString => None
        | String e r1 =>
            if Ascii.eqb e "u"%char then
              match r1 with
              | String h1 (String h2 (String h3 (String h4 r2))) =>
                  match hex4 h1 h2 h3 h4 with
                  | None => None
                  | Some cp =>
                      match r2 with
                      | String b (String u (String l1 (String l2 (String l3 (String l4 r3))))) =>
                          match hex4 l1 l2 l3 l4 with
                          | Some lo =>
                              if Ascii.eqb b Chr.backslash && Ascii.eqb u "u"%char
                                 && is_high_surrogate cp && is_low_surrogate lo
                              then cons_text
                                     (utf8 (65536 + (cp - 55296) * 1024 + (lo - 56320)))
                                     (scan_string r3)
                              else cons_text (utf8 cp) (scan_string r2)
                          | None => cons_text (utf8 cp) (scan_string r2)
                          end
                      | _ => cons_text (utf8 cp) (scan_string r2)
                      end
                  end
              | _ => None
              end
            else
              match simple_escape e with
              | Some d => cons_text (String d EmptyString) (scan_string r1)
              | None => None
              end
        end
      else if (Chr.code c <? 32)%N then None
      else cons_text (String c EmptyString) (scan_string r)
  end.

(** The longest prefix of digits, and the rest. *)
Fixpoint span_digits (s : string) : string * string :=
  match s with
  | String c r =>
      if Chr.is_digit c
      then let '(d, rest) := span_digits r in (String c d, rest)
      else (EmptyString, s)
  | EmptyString => (EmptyString, EmptyString)
  end.

(** [_match_number] after the optional sign: the integer part, then an
    optional fraction and an optional exponent, each taken only when it
    has a digit. *)
Definition scan_frac (s : string) : string * string :=
  match after "."%char s with
  | Some r =>
      let '(d, rest) := span_digits r in
      if Str.is_nil d then (EmptyString, s) else (String "."%char d, rest)
  | None => (EmptyString, s)
  end.

Definition scan_exp (s : string) : string * string :=
  match s with
  | String e r =>
      if Ascii.eqb e "e"%char || Ascii.eqb e "E"%char then
        let '(sign, r1) :=
          match after "+"%char r, after "-"%char r with
          | Some r', _ => ("+", r')
          | None, Some r' => ("-", r')
          | None, None => (EmptyString, r)
          end in
        let '(d, rest) := span_digits r1 in
        if Str.is_nil d then (EmptyString, s) else (String e (sign +:+ d), rest)
      else (EmptyString, s)
  | EmptyString => (EmptyString, s)
  end.

Fixpoint digits_value (acc : Z) (s : string) : Z :=
  match s with
  | String c r => digits_value (acc * 10 + Z.of_N (Chr.code c - 48)) r
  | EmptyString => acc
  end.

Definition scan_int (s : string) : option (string * string) :=
  match s with
  | String c r =>
      if Ascii.eqb c "0"%char then Some ("0", r)
      else if Chr.is_digit c then Some (span_digits s)
      else None
  | EmptyString => None
  end.

Definition scan_number (neg : bool) (s : string) : parsed pyval :=
  match scan_int s with
  | None => Err
  | Some (ds, r) =>
      let '(frac, r1) := scan_frac r in
      let '(ex, r2) := scan_exp r1 in
      if Str.is_nil frac && Str.is_nil ex
      then Ok (PInt (if neg then - digits_value 0 ds else digits_value 0 ds)%Z) r2
      else Ok (PFloat (FNum ((if neg then "-" else EmptyString) +:+ ds +:+ frac +:+ ex))) r2
  end.

(** [s] with the prefix [p] removed, when it starts with it. *)
Fixpoint strip_prefix (p s : string) : option string :=
  match p, s with
  | EmptyString, _ => Some s
  | String a p', String b s' => if Ascii.eqb a b then strip_prefix p' s' else None
  | String _ _, EmptyString => None
  end.

Definition CONSTANTS : list (string * pyval) :=
  [ ("null", PNone); ("true", PBool true); ("false", PBool false);
    ("NaN", PFloat FNaN); ("Infinity", PFloat (FInf false));
    ("-Infinity", PFloat (FInf true)) ].

Fixpoint scan_constant (table : list (string * pyval)) (s : string)
  : option (pyval * string) :=
  match table with
  | [] => None
  | (word, v) :: table =>
      match strip_prefix word s with
      | Some r => Some (v, r)
      | None => scan_constant table s
      end
  end.

Definition bind {A B} (p : parsed A) (k : A → string → parsed B) : parsed B :=
  match p with
  | Ok a rest => k a rest
  | Err => Err
  | OutOfFuel => OutOfFuel
  end.

(** [scan_once], with [_parse_array] and [_parse_object] entered at the
    first element and at the first key.  A parsed object keeps its
    members as written. *)
Fixpoint scan_once (fuel : nat) (s : string) : parsed pyval :=
  match fuel with
  | O => OutOfFuel
  | S fuel =>
      match s with
      | EmptyString => Err
      | String c r =>
          if Ascii.eqb c Chr.dquote then
            match scan_string r with
            | Some (t, rest) => Ok (PStr t) rest
            | None => Err
            end
          else if Ascii.eqb c "{"%char then
            match after "}"%char (skip_ws r) with
            | Some rest => Ok (PDict []) rest
            | None =>
                bind (parse_members fuel (skip_ws r)) (λ ms rest, Ok (PDict ms) rest)
            end
          else if Ascii.eqb c "["%char then
            match after "]"%char (skip_ws r) with
            | Some rest => Ok (PList []) rest
            | None =>
                bind (parse_items fuel (skip_ws r)) (λ vs rest, Ok (PList vs) rest)
            end
          else
            match scan_constant CONSTANTS s with
            | Some (v, rest) => Ok v rest
            | None =>
                if Ascii.eqb c "-"%char then scan_number true r
                else scan_number false s
            end
      end
  end

with parse_items (fuel : nat) (s : string) : parsed (list pyval) :=
  match fuel with
  | O => OutOfFuel
  | S fuel =>
      bind (scan_once fuel s) (λ v rest,
        match after "]"%char (skip_ws rest) with
        | Some rest' => Ok [v] rest'
        | None =>
            match after ","%char (skip_ws rest) with
            | Some rest' =>
                bind (parse_items fuel (skip_ws rest')) (λ vs rest'', Ok (v :: vs) rest'')
            | None => Err
            end
        end)
  end

with parse_members (fuel : nat) (s : string) : parsed (list (string * pyval)) :=
  match fuel with
  | O => OutOfFuel
  | S fuel =>
      match after Chr.dquote s with
      | None => Err
      | Some r =>
          match scan_string r with
          | None => Err
          | Some (key, rest) =>
              match after ":"%char (skip_ws rest) with
              | None => Err
              | Some rest1 =>
                  bind (scan_once fuel (skip_ws rest1)) (λ v rest2,
                    match after "}"%char (skip_ws rest2) with
                    | Some rest' => Ok [(key, v)] rest'
                    | None =>
                        match after ","%char (skip_ws rest2) with
                        | Some rest' =>
                            bind (parse_members fuel (skip_ws rest'))
                              (λ ms rest'', Ok ((key, v) :: ms) rest'')
                        | None => Err
                        end
                    end)
              end
          end
      end
  end.

Definition fuel_for (s : string) : nat := 2 * String.length s + 2.

(** [json.loads(text)]: [None] when the decoder raises. *)
Definition loads (text : string) : option pyval :=
  let s := skip_ws text in
  match scan_once (fuel_for s) s with
  | Ok v rest => if Str.is_nil (skip_ws rest) then Some v else None
  | _ => None
  end.

End Json.

(** ** What the model takes from the Python runtime *)

Class Python := {
  (** [repr(v)] for a finite float, a list or a dict *)
  py_repr : pyval → string
}.

(** [x == 0.0] for the finite float written [lexeme], a decimal numeral
    with an optional sign, fraction and exponent.  The float is the double
    nearest to the numeral, ties to even, so it is zero when the digits are
    all zero and when the numeral is at most [2 ^ -1075], half of the least
    positive double. *)
Definition exponent_value (ex : string) : Z :=
  let body := Str.tail ex in
  match Json.after "-"%char body, Json.after "+"%char body with
  | Some digits, _ => (- Json.digits_value 0 digits)%Z
  | None, Some digits => Json.digits_value 0 digits
  | None, None => Json.digits_value 0 body
  end.

Definition float_is_zero (lexeme : string) : bool :=
  let unsigned := default lexeme (Json.after "-"%char lexeme) in
  let '(whole, r) := Json.span_digits unsigned in
  let '(frac, r1) := Json.scan_frac r in
  let '(ex, _) := Json.scan_exp r1 in
  let digits := Str.tail frac in
  let mantissa := Json.digits_value 0 (whole +:+ digits) in
  let exponent := (exponent_value ex - Z.of_nat (String.length digits))%Z in
  (mantissa =? 0)%Z
  || ((exponent <? 0)%Z && (mantissa * 2 ^ 1075 <=? 10 ^ (- exponent))%Z).

(** [str(v)] *)
Definition py_str `{Python} (v : pyval) : string :=
  match v with
  | PNone => "None"
  | PBool b => if b then "True" else "False"
  | PInt z => pretty z
  | PFloat FNaN => "nan"
  | PFloat (FInf neg) => if neg then "-inf" else "inf"
  | PStr s => s
  | _ => py_repr v
  end.

(** [bool(v)] *)
Definition py_bool `{Python} (v : pyval) : bool :=
  match v with
  | PNone => false
  | PBool b => b
  | PInt z => negb (Z.eqb z 0)
  | PFloat (FNum lexeme) => negb (float_is_zero lexeme)
  | PFloat _ => true
  | PStr s => negb (Str.is_nil s)
  | PList items => negb (bool_decide (items = []))
  | PDict members => negb (bool_decide (members = []))
  end.

(** ** [audit_and_clean_exercises_csv.py] *)

Definition ARRAY_COLUMNS : list string :=
  ["muscle_groups"; "equipment_needed"; "instructions"; "tips"].

Record ArrayParseStats := {
  column : string;
  total_rows : nat;
  empty_rows : nat;
  valid_json_rows : nat;
  invalid_json_rows : nat
}.

Definition new_stats (c : string) : ArrayParseStats :=
  {| column := c; total_rows := 0; empty_rows := 0;
     valid_json_rows := 0; invalid_json_rows := 0 |}.

Definition _is_empty (value : pyval) : bool :=
  match value with
  | PNone => true
  | PFloat FNaN => true
  | PStr s => Str.eqb (Str.strip s) ""
  | _ => false
  end.

Definition is_quote (c : ascii) : bool := Ascii.eqb c Chr.dquote.

Definition _parse_json_array `{Python} (value : pyval) : list string * bool :=
  if _is_empty value then ([], true)
  else match value with
  | PList vs => (List.map py_str vs, true)
  | _ =>
    let text := Str.strip (py_str value) in
    if Str.eqb text "" then ([], true)
    else
      match Json.loads text with
      | Some (PList parsed) =>
          (List.filter (λ s, negb (Str.eqb (Str.strip s) "")) (List.map py_str parsed), true)
      | Some _ => ([text], false)
      | None =>
          if Str.startswith "{" text && bool_decide (Str.last text = Some "}"%char) then
            let inner := Str.strip (Str.drop_last (Str.tail text)) in
            if Str.eqb inner "" then ([], true)
            else (List.map (λ s, Str.strip_by is_quote (Str.strip s)) (Str.split "," inner), true)
          else ([text], false)
      end
  end.

(** A data frame: its columns by name, all of one length. *)
Abbreviation frame := (gmap string (list pyval)).

(** [df.loc[idx, col]] *)
Definition loc (df : frame) (idx : nat) (col : string) : pyval :=
  default PNone (df !! col ≫= λ values, values !! idx).

Definition has_column (df : frame) (col : string) : bool :=
  bool_decide (is_Some (df !! col)).

(** The state of the loop over one array column: its statistics, its
    examples of invalid input and the column being rebuilt. *)
Record column_pass := {
  stats : ArrayParseStats;
  invalid_examples : list (string * string);
  new_values : list string
}.

Definition example_label `{Python} (df : frame) (idx : nat) : string :=
  let ex_id := if has_column df "id" then py_str (loc df idx "id") else pretty idx in
  let ex_name := if has_column df "name" then py_str (loc df idx "name") else "" in
  Str.strip (ex_id +:+ " " +:+ ex_name).

(** One iteration of [for idx, raw in enumerate(df[col].tolist())]. *)
Definition column_step `{Python} (df : frame) (st : column_pass) (row : nat * pyval) : column_pass :=
  let '(idx, raw) := row in
  let s := stats st in
  let s := {| column := column s; total_rows := S (total_rows s);
              empty_rows := empty_rows s; valid_json_rows := valid_json_rows s;
              invalid_json_rows := invalid_json_rows s |} in
  if _is_empty raw then
    {| stats := {| column := column s; total_rows := total_rows s;
                   empty_rows := S (empty_rows s);
                   valid_json_rows := valid_json_rows s;
                   invalid_json_rows := invalid_json_rows s |};
       invalid_examples := invalid_examples st;
       new_values := new_values st ++ [_pg_array_literal []] |}
  else
    let '(items, valid) := _parse_json_array raw in
    if valid then
      {| stats := {| column := column s; total_rows := total_rows s;
                     empty_rows := empty_rows s;
                     valid_json_rows := S (valid_json_rows s);
                     invalid_json_rows := invalid_json_rows s |};
         invalid_examples := invalid_examples st;
         new_values := new_values st ++ [_pg_array_literal items] |}
    else
      {| stats := {| column := column s; total_rows := total_rows s;
                     empty_rows := empty_rows s;
                     valid_json_rows := valid_json_rows s;
                     invalid_json_rows := S (invalid_json_rows s) |};
         invalid_examples :=
           if bool_decide (length (invalid_examples st) < 10)
           then invalid_examples st ++ [(example_label df idx, Str.take 200 (py_str raw))]
           else invalid_examples st;
         new_values := new_values st ++ [_pg_array_literal items] |}.

Definition enumerate {A} (l : list A) : list (nat * A) := zip (seq 0 (length l)) l.

(** The whole pass over column [col] of [df]. *)
Definition column_loop `{Python} (df : frame) (col : string) : column_pass :=
  fold_left (column_step df)
    (enumerate (default [] (df !! col)))
    {| stats := new_stats col; invalid_examples := []; new_values := [] |}.

(** [series.fillna(False).map(lambda v: "true" if bool(v) else "false")] *)
Definition isna (v : pyval) : bool :=
  match v with PNone | PFloat FNaN => true | _ => false end.

Definition fillna (fill v : pyval) : pyval := if isna v then fill else v.

Definition bool_token `{Python} (v : pyval) : string :=
  if py_bool v then "true" else "false".

Definition coerce_bool_column `{Python} (values : list pyval) : list pyval :=
  List.map (λ v, PStr (bool_token (fillna (PBool false) v))) values.

(** [series.where(~series.isna(), "")] *)
Definition blank_nulls (values : list pyval) : list pyval :=
  List.map (fillna (PStr "")) values.

Definition NULLABLE_COLUMNS : list string :=
  ["description"; "difficulty"; "video_url"; "image_url"; "gif_url"; "tips";
   "instructions"; "exercisedb_id"; "last_synced_at"; "created_by"].

Definition BOOL_COLUMNS : list string := ["is_compound"; "is_custom"].

(** [cleaned], built from [df] as [main] does: the name trimmed, the array
    columns re-encoded, the boolean columns coerced, the nullable scalar
    columns blanked. *)
Definition on_column (f : list pyval → list pyval) (df : frame) (col : string) : frame :=
  match df !! col with
  | Some values => <[col := f values]> df
  | None => df
  end.

Definition array_columns_of (df : frame) : list string :=
  List.filter (has_column df) ARRAY_COLUMNS.

Definition clean_frame `{Python} (df : frame) : frame :=
  let cleaned := on_column (List.map (λ v, PStr (Str.strip (py_str v)))) df "name" in
  let cleaned :=
    fold_left (λ acc col, <[col := List.map PStr (new_values (column_loop df col))]> acc)
      (array_columns_of df) cleaned in
  let cleaned := fold_left (on_column coerce_bool_column) BOOL_COLUMNS cleaned in
  fold_left (on_column blank_nulls)
    (List.filter (λ c, negb (bool_decide (c ∈ ARRAY_COLUMNS))) NULLABLE_COLUMNS) cleaned.

(** How a run of a script ends. *)
Inductive outcome :=
| Completed (printed : list string)
| SystemExit (message : string)
| Raised (exception : string).

(** The files of the run: path to content. *)
Abbreviation files := (gmap string string).

Section CsvMain.
Context `{Python}.
(** The three paths, and pandas' reader and writer with the rendering
    of the report, which the model leaves abstract. *)
Variables INPUT_CSV OUTPUT_CSV OUTPUT_REPORT_MD : string.
Variable read_csv : string → frame.
Variable to_csv : frame → string.
Variable render_report :
  frame → list (string * ArrayParseStats * list (string * string)) → string.

Definition csv_main (fs : files) : outcome * files :=
  match fs !! INPUT_CSV with
  | None => (SystemExit ("Missing input CSV: " +:+ INPUT_CSV), fs)
  | Some content =>
      let df := read_csv content in
      let passes := List.map (λ c, (c, column_loop df c)) (array_columns_of df) in
      let cleaned := clean_frame df in
      let fs := <[OUTPUT_CSV := to_csv cleaned]> fs in
      let report :=
        render_report df
          (List.map (λ p, (p.1, stats p.2, invalid_examples p.2)) passes) in
      let fs := <[OUTPUT_REPORT_MD := report]> fs in
      (Completed ["Wrote " +:+ OUTPUT_CSV; "Wrote " +:+ OUTPUT_REPORT_MD], fs)
  end.
End CsvMain.

(** ** SHA-1 and [uuid.uuid5]

    [uuid.uuid5(namespace, name)] is the SHA-1 digest of the namespace's 16
    bytes followed by the name, cut to 16 bytes, with the version and
    variant bits set, printed as 8-4-4-4-12 lower-case hexadecimal digits. *)

Module Sha1.
Local Open Scope N_scope.

Definition w32 (x : N) : N := x mod 4294967296.
Definition rotl (n x : N) : N :=
  w32 (N.lor (N.shiftl x n) (N.shiftr x (32 - n))).
Definition not32 (x : N) : N := N.lxor x 4294967295.

(** The message followed by the bit 1, zeros, and its length in bits on
    64 bits: a multiple of 64 bytes. *)
Definition be_bytes (count : nat) (x : N) : list N :=
  List.map (λ i, (x / 256 ^ N.of_nat i) mod 256) (rev (seq 0 count)).

Definition pad (msg : list N) : list N :=
  let len := length msg in
  let zeros := ((64 - (len + 9) mod 64) mod 64)%nat in
  msg ++ [128] ++ repeat 0 zeros ++ be_bytes 8 (8 * N.of_nat len).

Fixpoint words (fuel : nat) (bytes : list N) : list N :=
  match fuel, bytes with
  | S fuel, a :: b :: c :: d :: rest =>
      (((a * 256 + b) * 256 + c) * 256 + d) :: words fuel rest
  | _, _ => []
  end.

(** The message schedule, latest word first. *)
Fixpoint extend (count : nat) (rev_w : list N) : list N :=
  match count with
  | O => rev_w
  | S count =>
      let w := rotl 1 (N.lxor (N.lxor (nth 2 rev_w 0) (nth 7 rev_w 0))
                              (N.lxor (nth 13 rev_w 0) (nth 15 rev_w 0))) in
      extend count (w :: rev_w)
  end.

Definition state : Type := N * N * N * N * N.

Definition round (t : nat) (st : state) (w : N) : state :=
  let '(a, b, c, d, e) := st in
  let '(f, k) :=
    if (t <? 20)%nat then (N.lor (N.land b c) (N.land (not32 b) d), 1518500249)
    else if (t <? 40)%nat then (N.lxor (N.lxor b c) d, 1859775393)
    else if (t <? 60)%nat then
      (N.lor (N.lor (N.land b c) (N.land b d)) (N.land c d), 2400959708)
    else (N.lxor (N.lxor b c) d, 3395469782) in
  let temp := w32 (rotl 5 a + f + e + k + w) in
  (temp, a, rotl 30 b, c, d).

Fixpoint rounds (t : nat) (st : state) (ws : list N) : state :=
  match ws with
  | [] => st
  | w :: ws => rounds (S t) (round t st w) ws
  end.

Definition compress (h : state) (block : list N) : state :=
  let ws := rev (extend 64 (rev block)) in
  let '(a, b, c, d, e) := rounds 0 h ws in
  let '(h0, h1, h2, h3, h4) := h in
  (w32 (h0 + a), w32 (h1 + b), w32 (h2 + c), w32 (h3 + d), w32 (h4 + e)).

Fixpoint blocks (fuel : nat) (h : state) (ws : list N) : state :=
  match fuel, ws with
  | S fuel, _ :: _ => blocks fuel (compress h (take 16 ws)) (drop 16 ws)
  | _, _ => h
  end.

Definition init : state :=
  (1732584193, 4023233417, 2562383102, 271733878, 3285377520).

Definition digest (msg : list N) : list N :=
  let padded := pad msg in
  let ws := words (length padded) padded in
  let '(h0, h1, h2, h3, h4) := blocks (length ws) init ws in
  be_bytes 4 h0 ++ be_bytes 4 h1 ++ be_bytes 4 h2 ++ be_bytes 4 h3 ++ be_bytes 4 h4.

End Sha1.

Module Uuid.

Definition bytes_of (s : string) : list N :=
  List.map (λ c, N_of_ascii c) (list_ascii_of_string s).

Definition hex_digit (n : N) : ascii :=
  let d := (n mod 16)%N in
  if (d <? 10)%N then ascii_of_N (48 + d) else ascii_of_N (87 + d).

Definition hex2 (b : N) (rest : string) : string :=
  String (hex_digit (b / 16)) (String (hex_digit b) rest).

Definition NAMESPACE_URL : list N :=
  [107; 167; 184; 17; 157; 173; 17; 209; 128; 180; 0; 192; 79; 212; 48; 200]%N.

(** [str(UUID(bytes=..., version=5))] *)
Definition to_string (bytes : list N) : string :=
  let b i := nth i bytes 0%N in
  let b6 := N.lor (N.land (b 6%nat) 15) 80 in
  let b8 := N.lor (N.land (b 8%nat) 63) 128 in
  hex2 (b 0%nat) (hex2 (b 1%nat) (hex2 (b 2%nat) (hex2 (b 3%nat) (String "-"%char
  (hex2 (b 4%nat) (hex2 (b 5%nat) (String "-"%char
  (hex2 b6 (hex2 (b 7%nat) (String "-"%char
  (hex2 b8 (hex2 (b 9%nat) (String "-"%char
  (hex2 (b 10%nat) (hex2 (b 11%nat) (hex2 (b 12%nat) (hex2 (b 13%nat)
  (hex2 (b 14%nat) (hex2 (b 15%nat) EmptyString))))))))))))))))))).

(** [str(uuid.uuid5(namespace, name))] *)
Definition uuid5 (namespace : list N) (name : string) : string :=
  to_string (Sha1.digest (namespace ++ bytes_of name)).

End Uuid.

(** ** [convert_functional_fitness_xlsx.py] *)

Definition _clean_str `{Python} (value : pyval) : string :=
  if _is_empty value then "" else Str.strip (py_str value).

(** The loop of [_dedupe_case_insensitive]: the folded keys seen so far
    and the output list. *)
Definition dedupe_step `{Python} (st : gset string * list string) (item : string)
  : gset string * list string :=
  let '(seen, out) := st in
  let s := _clean_str (PStr item) in
  if Str.is_nil s then st
  else
    let key := Str.casefold s in
    if bool_decide (key ∈ seen) then st
    else ({[key]} ∪ seen, out ++ [s]).

Definition _dedupe_case_insensitive `{Python} (items : list string) : list string :=
  (fold_left dedupe_step items (∅, [])).2.

Definition member (s : string) (l : list string) : bool := bool_decide (s ∈ l).

Definition _map_difficulty `{Python} (level : string) : string :=
  let s := Str.casefold (_clean_str (PStr level)) in
  if Str.is_nil s then ""
  else if member s ["beginner"; "novice"] then "beginner"
  else if Str.eqb s "intermediate" then "intermediate"
  else if member s ["advanced"; "expert"; "master"; "grand master"; "legendary"]
  then "advanced"
  else "".

(** [any(k in hint for k in keys)] *)
Definition any_in (hint : string) (keys : list string) : bool :=
  existsb (λ k, Str.contains k hint) keys.

Definition _map_category `{Python} (body_region prime_mover target_group : string) : string :=
  let br := Str.casefold (_clean_str (PStr body_region)) in
  let pm := _clean_str (PStr prime_mover) in
  let tg := _clean_str (PStr target_group) in
  if Str.eqb br "lower body" then "legs"
  else if Str.eqb br "core" then "core"
  else if Str.eqb br "full body" then "full_body"
  else
    let upper_hint := Str.casefold (pm +:+ " " +:+ tg) in
    if any_in upper_hint ["pectoralis"; "chest"] then "chest"
    else if any_in upper_hint ["latissimus"; "trapezi"; "rhombo"; "erector"; "back"]
    then "back"
    else if any_in upper_hint ["deltoid"; "shoulder"; "rotator"] then "shoulders"
    else if any_in upper_hint ["biceps"; "triceps"; "forearm"; "wrist"; "brachii"]
    then "arms"
    else if Str.eqb br "upper body" then "arms"
    else "full_body".

Definition _stable_exercise_id (key : string) : string :=
  Uuid.uuid5 Uuid.NAMESPACE_URL ("functional-fitness:" +:+ key).

(** One record of [out_rows]. *)
Module Out.
Record row := {
  id : string;
  name : string;
  description : string;
  category : string;
  muscle_groups : string;
  equipment_needed : string;
  difficulty : string;
  instructions : string;
  video_url : string;
  image_url : string;
  is_compound : string;
  is_custom : string;
  created_by : string;
  created_at : string;
  exercisedb_id : string;
  gif_url : string;
  tips : string;
  last_synced_at : string;
  sync_status : string
}.

Definition with_id (r : row) (new_id : string) : row :=
  {| id := new_id; name := name r; description := description r;
     category := category r; muscle_groups := muscle_groups r;
     equipment_needed := equipment_needed r; difficulty := difficulty r;
     instructions := instructions r; video_url := video_url r;
     image_url := image_url r; is_compound := is_compound r;
     is_custom := is_custom r; created_by := created_by r;
     created_at := created_at r; exercisedb_id := exercisedb_id r;
     gif_url := gif_url r; tips := tips r;
     last_synced_at := last_synced_at r; sync_status := sync_status r |}.
End Out.

(** A row of the sheet: its cells by header.  [row.get(k)] is [None] for a
    header the sheet does not have. *)
Abbreviation sheet_row := (gmap string pyval).

Definition get (row : sheet_row) (key : string) : pyval := default PNone (row !! key).

(** [id_key]: the four key fields joined with a pipe. *)
Definition id_key (norm_name primary_equipment prime_mover movement_1 : string) : string :=
  Str.join "|" [norm_name; primary_equipment; prime_mover; movement_1].

Definition MIDDLE_DOT : string := " · ".

(** The body of [for _, row in df.iterrows()], for a row that is kept. *)
Definition build_row `{Python} (now_utc : string) (row : sheet_row) (name : string) : Out.row :=
  let norm_name := Str.join " " (Str.words name) in
  let target_group := _clean_str (get row "Target Muscle Group") in
  let prime_mover := _clean_str (get row "Prime Mover Muscle") in
  let secondary_muscle := _clean_str (get row "Secondary Muscle") in
  let tertiary_muscle := _clean_str (get row "Tertiary Muscle") in
  let primary_equipment := _clean_str (get row "Primary Equipment") in
  let secondary_equipment := _clean_str (get row "Secondary Equipment") in
  let mechanics := _clean_str (get row "Mechanics") in
  let body_region := _clean_str (get row "Body Region") in
  let movement_1 := _clean_str (get row "Movement Pattern #1") in
  let movement_2 := _clean_str (get row "Movement Pattern #2") in
  let movement_3 := _clean_str (get row "Movement Pattern #3") in
  let force_type := _clean_str (get row "Force Type") in
  let posture := _clean_str (get row "Posture") in
  let grip := _clean_str (get row "Grip") in
  let load_pos := _clean_str (get row "Load Position (Ending)") in
  let laterality := _clean_str (get row "Laterality") in
  let primary_class := _clean_str (get row "Primary Exercise Classification") in
  let short_url := _clean_str (get row "__short_youtube_url") in
  let long_url := _clean_str (get row "__long_youtube_url") in
  let difficulty := _map_difficulty (_clean_str (get row "Difficulty Level")) in
  let category := _map_category body_region prime_mover target_group in
  let muscle_groups :=
    _dedupe_case_insensitive
      [target_group; prime_mover; secondary_muscle; tertiary_muscle] in
  let equipment_needed :=
    _dedupe_case_insensitive [primary_equipment; secondary_equipment] in
  let video_url := if Str.is_nil short_url then long_url else short_url in
  let tips :=
    List.map (λ p : string * string, p.1 +:+ ": " +:+ p.2)
      (List.filter (λ p : string * string, negb (Str.is_nil p.2))
         [("Classification", primary_class); ("Mechanics", mechanics);
          ("Movement", movement_1); ("Movement", movement_2);
          ("Movement", movement_3); ("Posture", posture); ("Grip", grip);
          ("Load position", load_pos); ("Laterality", laterality);
          ("Force type", force_type)]) in
  let tips :=
    if negb (Str.is_nil long_url) && negb (Str.eqb long_url video_url)
    then tips ++ ["In-depth video: " +:+ long_url] else tips in
  let desc_parts :=
    _dedupe_case_insensitive [primary_class; movement_1; target_group; body_region] in
  let description := Str.join MIDDLE_DOT (take 4 desc_parts) in
  let exercise_id :=
    _stable_exercise_id (id_key norm_name primary_equipment prime_mover movement_1) in
  let is_compound :=
    if Str.eqb (Str.casefold mechanics) "compound" then "true" else "false" in
  {| Out.id := exercise_id;
     Out.name := norm_name;
     Out.description := description;
     Out.category := category;
     Out.muscle_groups := _pg_array_literal muscle_groups;
     Out.equipment_needed := _pg_array_literal equipment_needed;
     Out.difficulty := difficulty;
     Out.instructions := _pg_array_literal [];
     Out.video_url := video_url;
     Out.image_url := "";
     Out.is_compound := is_compound;
     Out.is_custom := "false";
     Out.created_by := "";
     Out.created_at := now_utc;
     Out.exercisedb_id := "";
     Out.gif_url := "";
     Out.tips := _pg_array_literal tips;
     Out.last_synced_at := "";
     Out.sync_status := "pending" |}.

(** The state of the row loop: [out_rows] and [name_counts]. *)
Definition row_step `{Python} (now_utc : string)
    (st : list Out.row * gmap string nat) (row : sheet_row)
  : list Out.row * gmap string nat :=
  let '(out_rows, name_counts) := st in
  let name := _clean_str (get row "Exercise") in
  if Str.is_nil name then st
  else
    let norm_name := Str.join " " (Str.words name) in
    let name_key := Str.casefold norm_name in
    let name_counts :=
      <[name_key := default 0 (name_counts !! name_key) + 1]> name_counts in
    (out_rows ++ [build_row now_utc row name], name_counts).

Definition row_loop `{Python} (now_utc : string) (df : list sheet_row)
  : list Out.row * gmap string nat :=
  fold_left (row_step now_utc) df ([], ∅).

(** The id repair pass: [seen] and [new_ids]. *)
Definition repair_step (st : gmap string nat * list string) (eid : string)
  : gmap string nat * list string :=
  let '(seen, new_ids) := st in
  let seen := <[eid := default 0 (seen !! eid) + 1]> seen in
  let count := default 0 (seen !! eid) in
  if Nat.eqb count 1 then (seen, new_ids ++ [eid])
  else (seen, new_ids ++ [_stable_exercise_id (eid +:+ ":" +:+ pretty count)]).

Definition repair_pass (ids : list string) : list string :=
  (fold_left repair_step ids (∅, [])).2.

(** [out_df["id"]] after the block guarded by [duplicated().any()]. *)
Definition has_duplicates (ids : list string) : bool :=
  negb (bool_decide (NoDup ids)).

Definition final_ids (ids : list string) : list string :=
  if has_duplicates ids then repair_pass ids else ids.

Definition set_ids (rows : list Out.row) (ids : list string) : list Out.row :=
  zip_with Out.with_id rows ids.

Section XlsxMain.
Context `{Python}.
(** The paths, the clock, and the reading of the sheet (pandas for the
    cells, openpyxl for the two link columns), the writing of the table
    and the rendering of the report, which the model leaves abstract. *)
Variables XLSX_PATH OUT_CSV OUT_AUDIT : string.
Variable now_utc : string.
Variable read_sheet : string → list sheet_row.
Variable to_csv : list Out.row → string.
Variable render_audit : list sheet_row → list Out.row → string.

Definition xlsx_main (fs : files) : outcome * files :=
  match fs !! XLSX_PATH with
  | None => (SystemExit ("Missing XLSX: " +:+ XLSX_PATH), fs)
  | Some content =>
      let df := read_sheet content in
      let '(out_rows, name_counts) := row_loop now_utc df in
      match out_rows with
      | [] =>
          (* [pd.DataFrame([])] has no column: [out_df["id"]] raises *)
          (Raised "KeyError: 'id'", fs)
      | _ :: _ =>
          let out_df := set_ids out_rows (final_ids (List.map Out.id out_rows)) in
          let fs := <[OUT_CSV := to_csv out_df]> fs in
          let fs := <[OUT_AUDIT := render_audit df out_df]> fs in
          (Completed ["Wrote " +:+ OUT_CSV; "Wrote " +:+ OUT_AUDIT], fs)
      end
  end.
End XlsxMain.

Definition exit_status (o : outcome) : nat :=
  match o with
  | Completed _ => 0
  | SystemExit _ => 1
  | Raised _ => 1
  end.

(** ** Auxiliary definitions for the statements *)

(** An instance of [Python] for the closed examples below; none of them
    takes the text of a finite float, a list or a dict, so none depends on
    it. *)
Definition plain_python : Python :=
  {| py_repr := λ _, "<repr>" |}.

(** The escaping of one character by [_pg_array_literal]. *)
Definition escape_char (c : ascii) : string :=
  if Ascii.eqb c Chr.backslash then "\\"
  else if Ascii.eqb c Chr.dquote then "\" +:+ dq
  else String c EmptyString.

Fixpoint escape (s : string) : string :=
  match s with
  | EmptyString => EmptyString
  | String c r => escape_char c +:+ escape r
  end.

(** A character that the encoder leaves alone and that does not separate
    the pieces of a brace literal. *)
Definition plain_char (c : ascii) : bool :=
  negb (Ascii.eqb c Chr.comma) && negb (Ascii.eqb c Chr.dquote)
  && negb (Ascii.eqb c Chr.backslash).

Definition plain (s : string) : bool := Str.forallb plain_char s.

(** A row of an array column, with its index, whose value is not empty and
    not cleanly parsed; and the example that the loop records for it. *)
Definition unparseable `{Python} (row : nat * pyval) : bool :=
  negb (_is_empty row.2) && negb (_parse_json_array row.2).2.

Definition example_entry `{Python} (df : frame) (row : nat * pyval) : string * string :=
  (example_label df row.1, Str.take 200 (py_str row.2)).

(** The token of the boolean columns for one source value. *)
Definition bool_literal `{Python} (v : pyval) : pyval :=
  PStr (if isna v then "false" else if py_bool v then "true" else "false").

(** The text made of [n] copies of one character. *)
Definition run_of (c : ascii) (n : nat) : string :=
  string_of_list_ascii (repeat c n).

(** The category rules as an ordered list, first match wins: a rule tests
    the folded body region and the folded muscle text.  This follows the
    wording of the spec, with the key words that [_map_category] looks
    for. *)
Definition category_rule : Type := (string → string → bool) * string.

Definition region_is (region : string) : string → string → bool :=
  λ br _, Str.eqb br region.

Definition hint_has (keys : list string) : string → string → bool :=
  λ _ hint, any_in hint keys.

Definition category_rules : list category_rule :=
  [ (region_is "lower body", "legs");
    (region_is "core", "core");
    (region_is "full body", "full_body");
    (hint_has ["pectoralis"; "chest"], "chest");
    (hint_has ["latissimus"; "trapezi"; "rhombo"; "erector"; "back"], "back");
    (hint_has ["deltoid"; "shoulder"; "rotator"], "shoulders");
    (hint_has ["biceps"; "triceps"; "forearm"; "wrist"; "brachii"], "arms");
    (region_is "upper body", "arms") ].

Definition first_match (rules : list category_rule) (br hint : string)
    (otherwise : string) : string :=
  match List.find (λ r : category_rule, r.1 br hint) rules with
  | Some r => r.2
  | None => otherwise
  end.

Definition CATEGORIES : list string :=
  ["legs"; "core"; "full_body"; "chest"; "back"; "shoulders"; "arms"].

(** A row of the sheet that the row loop keeps. *)
Definition kept `{Python} (row : sheet_row) : bool :=
  negb (Str.is_nil (_clean_str (get row "Exercise"))).

(** How many items of [l] are [eid]. *)
Definition count_in (eid : string) (l : list string) : nat :=
  length (List.filter (λ x, Str.eqb x eid) l).

(** Which occurrence of [eid], counted from 1, the one at position [i] of
    [ids] is. *)
Definition occurrence (ids : list string) (i : nat) (eid : string) : nat :=
  S (count_in eid (take i ids)).

(** The text that the repair pass hashes for a later occurrence. *)
Definition rehash_key (eid : string) (n : nat) : string :=
  eid +:+ ":" +:+ pretty n.

(** The id at position [i] after the repair pass, as the spec words it:
    the first occurrence keeps its id, a later one is re-hashed from the
    id and its occurrence index. *)
Definition repaired_id (ids : list string) (i : nat) (eid : string) : string :=
  let n := occurrence ids i eid in
  if Nat.eqb n 1 then eid else _stable_exercise_id (rehash_key eid n).

(** The texts that the repair pass hashes for [ids]. *)
Definition rehash_keys (ids : list string) : list string :=
  omap id
    (imap (λ i eid,
             let n := occurrence ids i eid in
             if Nat.eqb n 1 then None else Some (rehash_key eid n))
       ids).

(** No two different texts of [keys] get the same id. *)
Definition collision_free (keys : list string) : bool :=
  List.forallb
    (λ a, List.forallb
            (λ b, implb (Str.eqb (_stable_exercise_id a) (_stable_exercise_id b))
                    (Str.eqb a b))
            keys)
    keys.

(** The four key fields of a kept row of the sheet, and its id key. *)
Definition key_fields : Type := string * string * string * string.

Definition key_of (k : key_fields) : string :=
  let '(norm_name, primary_equipment, prime_mover, movement_1) := k in
  id_key norm_name primary_equipment prime_mover movement_1.

Definition row_key_fields `{Python} (row : sheet_row) : key_fields :=
  (Str.join " " (Str.words (_clean_str (get row "Exercise"))),
   _clean_str (get row "Primary Equipment"),
   _clean_str (get row "Prime Mover Muscle"),
   _clean_str (get row "Movement Pattern #1")).

(** A text without the pipe that joins the key fields. *)
Definition no_pipe (s : string) : bool :=
  Str.forallb (λ c, negb (Ascii.eqb c "|"%char)) s.

(** A sheet of three rows, the last two with the same key fields. *)
Definition sample_sheet : list sheet_row :=
  [ {[ "Exercise" := PStr "Push Up"; "Primary Equipment" := PStr "Bodyweight";
       "Prime Mover Muscle" := PStr "Pectoralis Major";
       "Movement Pattern #1" := PStr "Horizontal Push" ]};
    {[ "Exercise" := PStr "Goblet Squat"; "Primary Equipment" := PStr "Kettlebell";
       "Prime Mover Muscle" := PStr "Quadriceps Femoris";
       "Movement Pattern #1" := PStr "Knee Dominant" ]};
    {[ "Exercise" := PStr " goblet  squat"; "Primary Equipment" := PStr "Kettlebell";
       "Prime Mover Muscle" := PStr "Quadriceps Femoris";
       "Movement Pattern #1" := PStr "Knee Dominant"; "Grip" := PStr "Neutral" ]};
    {[ "Exercise" := PStr "Goblet  Squat "; "Primary Equipment" := PStr "Kettlebell";
       "Prime Mover Muscle" := PStr "Quadriceps Femoris";
       "Movement Pattern #1" := PStr "Knee Dominant" ]} ].

(** A text with no whitespace at either end. *)
Definition trimmed (s : string) : bool :=
  match s with
  | EmptyString => true
  | String c _ =>
      negb (Chr.is_space c)
      && match Str.last s with
         | Some d => negb (Chr.is_space d)
         | None => true
         end
  end.

(** The cell that the column loop writes for one source cell. *)
Definition cell_literal `{Python} (raw : pyval) : string :=
  if _is_empty raw then _pg_array_literal []
  else _pg_array_literal (_parse_json_array raw).1.

(** The column [k] of the cleaned table, read off the source table. *)
Definition cleaned_column `{Python} (df : frame) (k : string) : option (list pyval) :=
  if decide (k = "name") then
    List.map (λ v, PStr (Str.strip (py_str v))) <$> df !! k
  else if decide (k ∈ ARRAY_COLUMNS) then
    List.map (λ raw, PStr (cell_literal raw)) <$> df !! k
  else if decide (k ∈ BOOL_COLUMNS) then
    List.map bool_literal <$> df !! k
  else if decide (k ∈ NULLABLE_COLUMNS) then
    List.map (λ v, if isna v then PStr "" else v) <$> df !! k
  else df !! k.

(** Reading one escaped item back, up to its closing quote: a backslash
    makes the next character literal.  Used to show that the encoder loses
    nothing. *)
Fixpoint unquote (s : string) : option (string * string) :=
  match s with
  | EmptyString => None
  | String c r =>
      if Ascii.eqb c Chr.dquote then Some (EmptyString, r)
      else if Ascii.eqb c Chr.backslash then
        match r with
        | String e r' => Json.cons_text (String e EmptyString) (unquote r')
        | EmptyString => None
        end
      else Json.cons_text (String c EmptyString) (unquote r)
  end.

(** A text that a JSON string holds as it is: no control character, no
    double quote, no backslash. *)
Definition json_safe_char (c : ascii) : bool :=
  negb (Chr.code c <? 32)%N && negb (Ascii.eqb c Chr.dquote)
  && negb (Ascii.eqb c Chr.backslash).

Definition json_safe (s : string) : bool := Str.forallb json_safe_char s.

(** The JSON array of the strings [items], with [pad] after each comma. *)
Definition json_array_text (pad : string) (items : list string) : string :=
  "[" +:+ Str.join ("," +:+ pad) (List.map (λ s, dq +:+ s +:+ dq) items) +:+ "]".

Definition blank (s : string) : bool := Str.eqb (Str.strip s) "".

Definition DIFFICULTIES : list string := ["beginner"; "intermediate"; "advanced"; ""].

(** [out_df] when it is written: the output rows with the ids of the
    repair pass. *)
Definition out_table `{Python} (now_utc : string) (df : list sheet_row) : list Out.row :=
  let out_rows := (row_loop now_utc df).1 in
  set_ids out_rows (final_ids (List.map Out.id out_rows)).

(** At most [n] texts, none empty or with whitespace at an end, no two
    equal up to the case of their letters. *)
Definition distinct_texts (n : nat) (items : list string) : Prop :=
  length items ≤ n
  ∧ Forall (λ s, s ≠ "" ∧ trimmed s = true) items
  ∧ NoDup (Str.casefold <$> items).

(** The shape of the text of a version-5 UUID: [x] stands for a
    hexadecimal digit in lower case, [y] for one of 8, 9, a and b. *)
Definition UUID5_PATTERN : string := "xxxxxxxx-xxxx-5xxx-yxxx-xxxxxxxxxxxx".

Definition is_hex (c : ascii) : bool :=
  Chr.is_digit c || ((97 <=? Chr.code c) && (Chr.code c <=? 102))%N.

Definition is_variant (c : ascii) : bool :=
  member (String c "") ["8"; "9"; "a"; "b"].

Fixpoint matches (pattern s : string) : bool :=
  match pattern, s with
  | EmptyString, EmptyString => true
  | String p pattern, String c s =>
      (if Ascii.eqb p "x" then is_hex c
       else if Ascii.eqb p "y" then is_variant c
       else Ascii.eqb p c)
      && matches pattern s
  | _, _ => false
  end.

(** A text without whitespace. *)
Definition no_space (s : string) : bool := Str.forallb (λ c, negb (Chr.is_space c)) s.

(** ** The duplicate counts of the two reports

    [series.duplicated()] marks an entry that is equal to an earlier one,
    and [.sum()] counts the marks. *)
Fixpoint duplicated_from (seen : gset string) (l : list string) : list bool :=
  match l with
  | [] => []
  | x :: l => bool_decide (x ∈ seen) :: duplicated_from ({[x]} ∪ seen) l
  end.

Definition duplicated : list string → list bool := duplicated_from ∅.

Definition sum_true (marks : list bool) : nat :=
  length (List.filter (λ mark : bool, mark) marks).

(** [s.lower()], on the letters of ASCII. *)
Definition lower : string → string := Str.map Chr.fold.

(** [dup_name] of [audit_and_clean_exercises_csv.py]. *)
Definition dup_name `{Python} (df : frame) : nat :=
  if has_column df "name"
  then sum_true (duplicated (List.map (λ v, lower (Str.strip (py_str v)))
                               (default [] (df !! "name"))))
  else 0.

(** [dup_names] of [convert_functional_fitness_xlsx.py]. *)
Definition dup_names (out_df : list Out.row) : nat :=
  sum_true (duplicated (List.map (λ r, Str.casefold (Str.strip (Out.name r))) out_df)).

(** [name_key] of a kept row of the sheet. *)
Definition name_key `{Python} (row : sheet_row) : string :=
  Str.casefold (Str.join " " (Str.words (_clean_str (get row "Exercise")))).

(** ** The links of the worksheet

    The worksheet as [openpyxl] gives it: its extent and, at each row and
    column counted from 1, a cell with its value and its hyperlink, if
    any, with the target of the hyperlink, if any. *)
Module Sheet.
Record cell := {
  value : pyval;
  hyperlink : option (option string)
}.

Record worksheet := {
  max_row : nat;
  max_column : nat;
  cell_at : nat → nat → cell
}.
End Sheet.

Definition HEADER_ROW_1_INDEXED : nat := 16.

Record LinkCounts := {
  short_links : nat;
  long_links : nat
}.

(** [v == header_name] for the value of a cell. *)
Definition is_header (header_name : string) (v : pyval) : bool :=
  match v with
  | PStr s => Str.eqb s header_name
  | _ => false
  end.

(** [find_col]: the index, from 1, of the first header with the name. *)
Definition find_col (headers : list pyval) (header_name : string) : option nat :=
  fst <$> List.find (λ p : nat * pyval, is_header header_name p.2)
            (zip (seq 1 (length headers)) headers).

(** [cell.hyperlink.target if cell.hyperlink and cell.hyperlink.target else ""] *)
Definition link_target (c : Sheet.cell) : string :=
  match Sheet.hyperlink c with
  | Some (Some target) => target
  | _ => ""
  end.

(** One iteration of the loop over the data rows, for one of the two
    columns: the list of links and the count of the column. *)
Definition link_step (ws : Sheet.worksheet) (col : option nat) (r : nat)
    (urls : list string) (count : nat) : list string * nat :=
  match col with
  | Some c =>
      let url := link_target (Sheet.cell_at ws r c) in
      (urls ++ [url], if Str.is_nil url then count else count + 1)
  | None => (urls ++ [""], count)
  end.

Definition links_step (ws : Sheet.worksheet) (col_short col_long : option nat)
    (st : list string * list string * LinkCounts) (r : nat)
  : list string * list string * LinkCounts :=
  let '(short_urls, long_urls, counts) := st in
  let '(short_urls, short_count) :=
    link_step ws col_short r short_urls (short_links counts) in
  let '(long_urls, long_count) :=
    link_step ws col_long r long_urls (long_links counts) in
  (short_urls, long_urls, {| short_links := short_count; long_links := long_count |}).

Definition _extract_youtube_links (ws : Sheet.worksheet)
  : list string * list string * LinkCounts :=
  let headers :=
    List.map (λ c, Sheet.value (Sheet.cell_at ws HEADER_ROW_1_INDEXED c))
      (seq 1 (Sheet.max_column ws)) in
  let col_short := find_col headers "Short YouTube Demonstration" in
  let col_long := find_col headers "In-Depth YouTube Explanation" in
  match col_short, col_long with
  | None, None => ([], [], {| short_links := 0; long_links := 0 |})
  | _, _ =>
      fold_left (links_step ws col_short col_long)
        (seq (HEADER_ROW_1_INDEXED + 1) (Sheet.max_row ws - HEADER_ROW_1_INDEXED))
        ([], [], {| short_links := 0; long_links := 0 |})
  end.

(** [urls[:n] if len(urls) >= n else urls + [""] * (n - len(urls))] *)
Definition align (n : nat) (urls : list string) : list string :=
  if n <=? length urls then take n urls
  else urls ++ replicate (n - length urls) "".

(** [df[col] = values], for as many values as the frame has rows. *)
Definition set_column (col : string) (values : list string) (df : list sheet_row)
  : list sheet_row :=
  zip_with (λ row v, <[col := PStr v]> row) df values.

(** The frame of [main] with its two link columns. *)
Definition with_links (ws : Sheet.worksheet) (df : list sheet_row) : list sheet_row :=
  let '(short_urls, long_urls, _) := _extract_youtube_links ws in
  let n := length df in
  set_column "__long_youtube_url" (align n long_urls)
    (set_column "__short_youtube_url" (align n short_urls) df).

(** The columns of the two kinds of link, and the link of a column at a
    row of the worksheet. *)
Definition link_columns (ws : Sheet.worksheet) : option nat * option nat :=
  let headers :=
    List.map (λ c, Sheet.value (Sheet.cell_at ws HEADER_ROW_1_INDEXED c))
      (seq 1 (Sheet.max_column ws)) in
  (find_col headers "Short YouTube Demonstration",
   find_col headers "In-Depth YouTube Explanation").

Definition link_at (ws : Sheet.worksheet) (col : option nat) (r : nat) : string :=
  match col with
  | Some c => link_target (Sheet.cell_at ws r c)
  | None => ""
  end.

Definition data_rows (ws : Sheet.worksheet) : list nat :=
  seq 17 (Sheet.max_row ws - 16).

Definition links_found (urls : list string) : nat :=
  length (List.filter (λ url, negb (Str.is_nil url)) urls).

(** ** The headers of the frame

    [df.columns] of [main]: the first column is dropped when its name
    starts with [Unnamed], the names are trimmed, the two link columns are
    added, and a header with a trailing space is renamed. *)
Definition drop_unnamed `{Python} (columns : list pyval) : list pyval :=
  match columns with
  | c :: rest => if Str.startswith "Unnamed" (py_str c) then rest else columns
  | [] => []
  end.

Definition strip_names `{Python} (columns : list pyval) : list string :=
  List.map (λ c, Str.strip (py_str c)) columns.

(** [df[name] = values]: a new last column, unless the frame has it. *)
Definition add_column (name : string) (columns : list string) : list string :=
  if member name columns then columns else columns ++ [name].

(** [df.rename(columns={old: new})] *)
Definition rename (old new : string) (columns : list string) : list string :=
  List.map (λ c, if Str.eqb c old then new else c) columns.

Definition repair_header (name : string) (columns : list string) : list string :=
  if negb (member name columns) && member (name +:+ " ") columns
  then rename (name +:+ " ") name columns
  else columns.

Definition main_headers `{Python} (columns : list pyval) : list string :=
  repair_header "Primary Equipment"
    (repair_header "Target Muscle Group"
       (add_column "__long_youtube_url"
          (add_column "__short_youtube_url" (strip_names (drop_unnamed columns))))).

(** An output row with another creation time. *)
Definition at_time (now_utc : string) (r : Out.row) : Out.row :=
  {| Out.id := Out.id r; Out.name := Out.name r;
     Out.description := Out.description r; Out.category := Out.category r;
     Out.muscle_groups := Out.muscle_groups r;
     Out.equipment_needed := Out.equipment_needed r;
     Out.difficulty := Out.difficulty r; Out.instructions := Out.instructions r;
     Out.video_url := Out.video_url r; Out.image_url := Out.image_url r;
     Out.is_compound := Out.is_compound r; Out.is_custom := Out.is_custom r;
     Out.created_by := Out.created_by r; Out.created_at := now_utc;
     Out.exercisedb_id := Out.exercisedb_id r; Out.gif_url := Out.gif_url r;
     Out.tips := Out.tips r; Out.last_synced_at := Out.last_synced_at r;
     Out.sync_status := Out.sync_status r |}.

(** ** How many ids there are

    Every character, and every text of a given length: finitely many, so
    more texts than that cannot all be different. *)
Definition all_ascii : list ascii := ascii_of_nat <$> seq 0 256.

Fixpoint texts_of_length (n : nat) : list string :=
  match n with
  | O => [""]
  | S n => all_ascii ≫= λ c, String c <$> texts_of_length n
  end.

(** A sheet of [n] rows with the same exercise. *)
Definition same_rows (n : nat) : list sheet_row :=
  replicate n {[ "Exercise" := PStr "Push Up" ]}.

(** * Properties *)

(** ** Text lemmas *)

Lemma sapp_nil_l (s : string) : "" +:+ s = s.
Proof. reflexivity. Qed.

Lemma sapp_cons (c : ascii) (r s : string) : String c r +:+ s = String c (r +:+ s).
Proof. reflexivity. Qed.

Lemma sapp_nil_r (s : string) : s +:+ "" = s.
Proof. induction s as [|c r IH]; [done|]. by rewrite sapp_cons, IH. Qed.

Lemma sapp_assoc (a b c : string) : (a +:+ b) +:+ c = a +:+ b +:+ c.
Proof. induction a as [|x a IH]; [done|]. by rewrite !sapp_cons, IH. Qed.

Lemma eqb_true (a b : string) : Str.eqb a b = true ↔ a = b.
Proof. unfold Str.eqb. apply bool_decide_eq_true. Qed.

Lemma eqb_false (a b : string) : Str.eqb a b = false ↔ a ≠ b.
Proof. unfold Str.eqb. apply bool_decide_eq_false. Qed.

Lemma is_nil_true (s : string) : Str.is_nil s = true ↔ s = "".
Proof. destruct s; simpl; split; congruence. Qed.

Lemma is_nil_false (s : string) : Str.is_nil s = false ↔ s ≠ "".
Proof. destruct s; simpl; split; congruence. Qed.

(** ** The encoder *)

Lemma replace_backslash_then_quote (s : string) :
  Str.replace Chr.dquote ("\" +:+ dq) (Str.replace Chr.backslash "\\" s) = escape s.
Proof.
  induction s as [|c r IH]; [done|].
  simpl. unfold escape_char.
  destruct (Ascii.eqb c Chr.backslash) eqn:Hb.
  - apply Ascii.eqb_eq in Hb as ->. rewrite <- IH. reflexivity.
  - simpl. destruct (Ascii.eqb c Chr.dquote) eqn:Hq; rewrite IH; reflexivity.
Qed.

Lemma quote_item_escape (s : string) : quote_item s = dq +:+ escape s +:+ dq.
Proof. unfold quote_item. by rewrite replace_backslash_then_quote. Qed.

(** C5. [_pg_array_literal] wraps each item in double quotes after
    escaping it, joins with commas and wraps in braces.  The escaping is
    the two [replace] passes, backslash first and double quote second; it
    doubles each backslash of the item and puts one backslash before each
    of its double quotes.  The two-element example of the spec and the
    empty sequence give the literals it states. *)
Theorem C5_encode_escaping :
  (∀ items : list string,
     _pg_array_literal items
     = "{" +:+ Str.join "," (List.map (λ s, dq +:+ escape s +:+ dq) items) +:+ "}")
  ∧ (∀ s, escape s
          = Str.replace Chr.dquote ("\" +:+ dq) (Str.replace Chr.backslash "\\" s))
  ∧ (∀ c r, escape (String c r)
            = (if Ascii.eqb c Chr.backslash then "\\"
               else if Ascii.eqb c Chr.dquote then "\" +:+ dq
               else String c "") +:+ escape r)
  ∧ _pg_array_literal ["a" +:+ dq +:+ "b"; "c\d"]
    = "{" +:+ dq +:+ "a\" +:+ dq +:+ "b" +:+ dq +:+ ","
      +:+ dq +:+ "c\\d" +:+ dq +:+ "}"
  ∧ _pg_array_literal [] = "{}".
Proof.
  split; [|split; [|split; [|split]]]; try reflexivity.
  - intros items. unfold _pg_array_literal.
    by rewrite (List.map_ext _ _ quote_item_escape).
  - intros s. by rewrite replace_backslash_then_quote.
Qed.

(** ** The decoder on empty input *)

(** C6. Decoding the empty string, an absent value ([None], or the NaN of
    a missing cell) and the string [[]] gives the empty sequence, cleanly
    parsed. *)
Theorem C6_decode_empty `{Python} :
  _parse_json_array (PStr "") = ([], true)
  ∧ _parse_json_array PNone = ([], true)
  ∧ _parse_json_array (PFloat FNaN) = ([], true)
  ∧ _parse_json_array (PStr "[]") = ([], true).
Proof. repeat split; reflexivity. Qed.

(** ** Stripping, splitting and joining *)

Lemma lstrip_by_head p c r : p c = false → Str.lstrip_by p (String c r) = String c r.
Proof. intros Hc. simpl. by rewrite Hc. Qed.

Lemma last_cons c a r : Str.last (String c (String a r)) = Str.last (String a r).
Proof. reflexivity. Qed.

Lemma rstrip_by_last p s c :
  Str.last s = Some c → p c = false → Str.rstrip_by p s = s.
Proof.
  intros Hl Hc. induction s as [|a r IH]; [done|].
  destruct r as [|b r].
  - simpl in *. injection Hl as ->. by rewrite Hc.
  - rewrite last_cons in Hl. specialize (IH Hl).
    change (Str.rstrip_by p (String a (String b r)))
      with (let r' := Str.rstrip_by p (String b r) in
            if Str.is_nil r' && p a then EmptyString else String a r').
    by rewrite IH.
Qed.

Lemma strip_by_noop p a r c :
  p a = false → Str.last (String a r) = Some c → p c = false →
  Str.strip_by p (String a r) = String a r.
Proof.
  intros Ha Hl Hc. unfold Str.strip_by.
  rewrite lstrip_by_head by done. by apply rstrip_by_last with c.
Qed.

Lemma last_app_cons s c r : Str.last (s +:+ String c r) = Str.last (String c r).
Proof.
  induction s as [|a s IH]; [done|].
  rewrite sapp_cons. destruct s as [|b s]; [done|].
  rewrite sapp_cons in *. by rewrite last_cons.
Qed.

Lemma drop_last_snoc s c : Str.drop_last (s +:+ String c "") = s.
Proof.
  induction s as [|a s IH]; [done|].
  rewrite sapp_cons. destruct s as [|b s]; [done|].
  rewrite sapp_cons in *.
  change (Str.drop_last (String a (String b (s +:+ String c ""))))
    with (String a (Str.drop_last (String b (s +:+ String c "")))).
  by rewrite IH.
Qed.

Lemma rstrip_by_all p s : Str.forallb (λ c, negb (p c)) s = true → Str.rstrip_by p s = s.
Proof.
  induction s as [|a r IH]; [done|]. simpl.
  intros [Ha Hr]%andb_true_iff. rewrite (IH Hr).
  apply negb_true_iff in Ha. rewrite Ha. by rewrite andb_false_r.
Qed.

Lemma rstrip_by_snoc p s c :
  p c = true → Str.rstrip_by p (s +:+ String c "") = Str.rstrip_by p s.
Proof.
  intros Hc. induction s as [|a r IH].
  - simpl. by rewrite Hc.
  - rewrite sapp_cons. simpl. by rewrite IH.
Qed.

(** [s.strip(chars)] of [s] between two of the stripped characters gives
    [s] back when [s] holds none of them. *)
Lemma strip_by_wrapped p q s :
  p q = true → Str.forallb (λ c, negb (p c)) s = true →
  Str.strip_by p (String q (s +:+ String q "")) = s.
Proof.
  intros Hq Hs. unfold Str.strip_by. simpl. rewrite Hq.
  destruct s as [|a r].
  - simpl. by rewrite Hq.
  - rewrite sapp_cons. simpl in Hs. apply andb_true_iff in Hs as [Ha Hr].
    rewrite lstrip_by_head by by apply negb_true_iff.
    rewrite <- sapp_cons, rstrip_by_snoc by done.
    apply rstrip_by_all. simpl. by rewrite Ha, Hr.
Qed.

Lemma split_no_sep sep s :
  Str.forallb (λ c, negb (Ascii.eqb c sep)) s = true → Str.split sep s = [s].
Proof.
  induction s as [|a r IH]; [done|]. simpl.
  intros [Ha Hr]%andb_true_iff. apply negb_true_iff in Ha.
  by rewrite Ha, (IH Hr).
Qed.

Lemma split_app_sep sep s rest :
  Str.forallb (λ c, negb (Ascii.eqb c sep)) s = true →
  Str.split sep (s +:+ String sep rest) = s :: Str.split sep rest.
Proof.
  induction s as [|a r IH].
  - intros _. rewrite sapp_nil_l. simpl. by rewrite Ascii.eqb_refl.
  - simpl. intros [Ha Hr]%andb_true_iff. apply negb_true_iff in Ha.
    by rewrite Ha, (IH Hr).
Qed.

(** [sep.join(pieces).split(sep)] gives the pieces back when there is at
    least one and none holds the separator. *)
Lemma split_join sep pieces :
  pieces ≠ [] →
  Forall (λ s, Str.forallb (λ c, negb (Ascii.eqb c sep)) s = true) pieces →
  Str.split sep (Str.join (String sep "") pieces) = pieces.
Proof.
  induction pieces as [|x rest IH]; [done|]. intros _ Hall.
  apply Forall_cons in Hall as [Hx Hrest].
  destruct rest as [|y rest].
  - simpl. by apply split_no_sep.
  - change (Str.join (String sep "") (x :: y :: rest))
      with (x +:+ String sep "" +:+ Str.join (String sep "") (y :: rest)).
    rewrite sapp_cons, sapp_nil_l, split_app_sep by done.
    by rewrite IH.
Qed.

(** ** [json.loads] on an encoded literal *)

Lemma escape_plain s : plain s = true → escape s = s.
Proof.
  induction s as [|c r IH]; [done|]. unfold plain in *. simpl.
  intros [Hc Hr]%andb_true_iff. rewrite (IH Hr). unfold escape_char.
  unfold plain_char in Hc.
  apply andb_true_iff in Hc as [[_ Hq%negb_true_iff]%andb_true_iff Hb%negb_true_iff].
  by rewrite Hb, Hq.
Qed.

Lemma scan_string_plain s rest :
  plain s = true →
  Json.scan_string (s +:+ String Chr.dquote rest) = None
  ∨ Json.scan_string (s +:+ String Chr.dquote rest) = Some (s, rest).
Proof.
  induction s as [|c r IH]; intros Hs.
  - right. reflexivity.
  - unfold plain in *. simpl in Hs. apply andb_true_iff in Hs as [Hc Hr].
    unfold plain_char in Hc.
    apply andb_true_iff in Hc as [[_ Hq%negb_true_iff]%andb_true_iff Hb%negb_true_iff].
    simpl. rewrite Hq, Hb.
    destruct (Chr.code c <? 32)%N; [by left|].
    destruct (IH Hr) as [-> | ->]; [by left|by right].
Qed.

(** The decoder rejects a brace followed by a string that is followed by a
    comma or a closing brace: an object needs a colon there. *)
Lemma scan_once_object fuel r :
  Json.after "}"%char (Json.skip_ws r) = None →
  Json.scan_once (S fuel) (String "{" r)
  = Json.bind (Json.parse_members fuel (Json.skip_ws r)) (λ ms rest, Json.Ok (PDict ms) rest).
Proof. intros Hr. simpl. by rewrite Hr. Qed.

Lemma parse_members_key fuel body :
  Json.parse_members (S fuel) (String Chr.dquote body)
  = match Json.scan_string body with
    | None => Json.Err
    | Some (key, rest) =>
        match Json.after ":"%char (Json.skip_ws rest) with
        | None => Json.Err
        | Some rest1 =>
            Json.bind (Json.scan_once fuel (Json.skip_ws rest1)) (λ v rest2,
              match Json.after "}"%char (Json.skip_ws rest2) with
              | Some rest' => Json.Ok [(key, v)] rest'
              | None =>
                  match Json.after ","%char (Json.skip_ws rest2) with
                  | Some rest' =>
                      Json.bind (Json.parse_members fuel (Json.skip_ws rest'))
                        (λ ms rest'', Json.Ok ((key, v) :: ms) rest'')
                  | None => Json.Err
                  end
              end)
        end
    end.
Proof. reflexivity. Qed.

Lemma loads_brace_string s c rest :
  plain s = true → c = ","%char ∨ c = "}"%char →
  Json.loads (String "{" (String Chr.dquote (s +:+ String Chr.dquote (String c rest)))) = None.
Proof.
  intros Hs Hc. unfold Json.loads.
  change (Json.skip_ws (String "{" ?r)) with (String "{"%char r).
  unfold Json.fuel_for. set (body := s +:+ _).
  change (String.length (String "{" (String Chr.dquote body)))
    with (S (S (String.length body))).
  replace (2 * S (S (String.length body)) + 2)
    with (S (S (2 * String.length body + 4))) by lia.
  rewrite scan_once_object by done.
  change (Json.skip_ws (String Chr.dquote body)) with (String Chr.dquote body).
  rewrite parse_members_key. subst body.
  destruct (scan_string_plain s (String c rest) Hs) as [-> | ->]; [done|].
  by destruct Hc as [-> | ->].
Qed.

(** ** The decoder on a brace literal *)

Lemma is_empty_str s : _is_empty (PStr s) = Str.eqb (Str.strip s) "".
Proof. reflexivity. Qed.

(** The fallback branch of [_parse_json_array], for a trimmed text in
    braces that is not JSON. *)
Lemma parse_brace_literal `{Python} inner :
  let text := String "{" (inner +:+ "}") in
  Json.loads text = None →
  _parse_json_array (PStr text)
  = if Str.eqb (Str.strip inner) "" then ([], true)
    else (List.map (λ s, Str.strip_by is_quote (Str.strip s))
            (Str.split "," (Str.strip inner)), true).
Proof.
  intros text Hloads.
  assert (Hlast : Str.last text = Some "}"%char).
  { unfold text. rewrite <- sapp_cons. apply last_app_cons. }
  assert (Hstrip : Str.strip text = text).
  { unfold text, Str.strip. by apply strip_by_noop with "}"%char. }
  unfold _parse_json_array. rewrite is_empty_str.
  change (py_str (PStr text)) with text. rewrite Hstrip.
  assert (Str.eqb text "" = false) as -> by by apply eqb_false.
  rewrite Hloads, Hlast.
  change (Str.startswith "{" text) with true.
  rewrite bool_decide_true by done. simpl andb. cbv iota.
  change (Str.tail text) with (inner +:+ "}").
  by rewrite drop_last_snoc.
Qed.

Lemma quote_item_plain s : plain s = true → quote_item s = String Chr.dquote (s +:+ dq).
Proof. intros Hs. rewrite quote_item_escape. by rewrite escape_plain. Qed.

Lemma last_quote_item s : Str.last (quote_item s) = Some Chr.dquote.
Proof. unfold quote_item. rewrite <- sapp_assoc. apply last_app_cons. Qed.

(** The joined items start and end with a double quote. *)
Lemma join_quoted_shape x xs :
  ∃ body, Str.join "," (List.map quote_item (x :: xs)) = String Chr.dquote body
          ∧ Str.last (String Chr.dquote body) = Some Chr.dquote.
Proof.
  revert x. induction xs as [|y ys IH]; intros x.
  - exists (Str.replace Chr.dquote ("\" +:+ dq) (Str.replace Chr.backslash "\\" x) +:+ dq).
    split; [done|]. apply (last_quote_item x).
  - destruct (IH y) as (body & Hj & Hl).
    exists ((Str.tail (quote_item x) +:+ ",") +:+ String Chr.dquote body). split.
    + change (Str.join "," (List.map quote_item (x :: y :: ys)))
        with (quote_item x +:+ "," +:+ Str.join "," (List.map quote_item (y :: ys))).
      rewrite Hj, <- sapp_assoc. reflexivity.
    + rewrite <- sapp_cons, last_app_cons. exact Hl.
Qed.

(** What follows the first item of an encoded literal. *)
Lemma join_quoted_first x xs :
  plain x = true →
  ∃ c rest, (c = ","%char ∨ c = "}"%char)
    ∧ Str.join "," (List.map quote_item (x :: xs)) +:+ "}"
      = String Chr.dquote (x +:+ String Chr.dquote (String c rest)).
Proof.
  intros Hx. destruct xs as [|y ys].
  - exists "}"%char, "". split; [by right|].
    simpl. rewrite quote_item_plain by done. by rewrite sapp_cons, sapp_assoc.
  - exists ","%char, (Str.join "," (List.map quote_item (y :: ys)) +:+ "}").
    split; [by left|].
    change (Str.join "," (List.map quote_item (x :: y :: ys)))
      with (quote_item x +:+ "," +:+ Str.join "," (List.map quote_item (y :: ys))).
    rewrite quote_item_plain by done.
    repeat rewrite sapp_cons. repeat rewrite sapp_assoc. reflexivity.
Qed.

Lemma plain_no_comma s :
  plain s = true → Str.forallb (λ c, negb (Ascii.eqb c ","%char)) s = true.
Proof.
  unfold plain. induction s as [|c r IH]; [done|]. simpl.
  intros [Hc Hr]%andb_true_iff. rewrite (IH Hr), andb_true_r.
  unfold plain_char in Hc. by apply andb_true_iff in Hc as [[? _]%andb_true_iff _].
Qed.

Lemma plain_no_quote s :
  plain s = true → Str.forallb (λ c, negb (is_quote c)) s = true.
Proof.
  unfold plain. induction s as [|c r IH]; [done|]. simpl.
  intros [Hc Hr]%andb_true_iff. rewrite (IH Hr), andb_true_r.
  unfold plain_char in Hc. by apply andb_true_iff in Hc as [[_ ?]%andb_true_iff _].
Qed.

Lemma forallb_app p a b :
  Str.forallb p (a +:+ b) = Str.forallb p a && Str.forallb p b.
Proof. induction a as [|c r IH]; [done|]. simpl. by rewrite IH, andb_assoc. Qed.

Lemma quoted_piece s :
  plain s = true →
  Str.forallb (λ c, negb (Ascii.eqb c ","%char)) (quote_item s) = true
  ∧ Str.strip_by is_quote (Str.strip (quote_item s)) = s.
Proof.
  intros Hs. rewrite quote_item_plain by done. split.
  - simpl. rewrite forallb_app, plain_no_comma by done. reflexivity.
  - unfold Str.strip.
    rewrite strip_by_noop with (c := Chr.dquote); [|done| |done].
    + apply strip_by_wrapped; [done|]. by apply plain_no_quote.
    + rewrite <- sapp_cons. apply last_app_cons.
Qed.

(** C1 (as amended). For every non-empty sequence of strings none of which
    holds a comma, a double quote or a backslash, decoding the encoded
    sequence gives the sequence back, cleanly parsed. *)
Theorem C1_roundtrip_plain `{Python} (items : list string) :
  items ≠ [] →
  Forall (λ s, plain s = true) items →
  _parse_json_array (PStr (_pg_array_literal items)) = (items, true).
Proof.
  intros Hne Hplain. destruct items as [|x xs]; [done|].
  pose proof (Forall_inv Hplain) as Hx.
  destruct (join_quoted_first x xs Hx) as (c & rest & Hc & Hfirst).
  destruct (join_quoted_shape x xs) as (body & Hbody & Hlast).
  unfold _pg_array_literal. set (inner := Str.join _ _) in *.
  change ("{" +:+ inner +:+ "}") with (String "{" (inner +:+ "}")).
  rewrite parse_brace_literal.
  2:{ rewrite Hfirst. by apply loads_brace_string. }
  assert (Hinner : Str.strip inner = inner).
  { rewrite Hbody. unfold Str.strip. by apply strip_by_noop with Chr.dquote. }
  rewrite Hinner.
  assert (Str.eqb inner "" = false) as ->.
  { apply eqb_false. by rewrite Hbody. }
  f_equal. unfold inner.
  change "," with (String ","%char "") at 1.
  rewrite split_join.
  - rewrite List.map_map. rewrite <- (List.map_id (x :: xs)) at 2.
    apply List.map_ext_in. intros s Hin.
    apply quoted_piece. rewrite Forall_forall in Hplain. apply Hplain.
    by apply list_elem_of_In.
  - done.
  - apply Forall_forall. intros q [s [<- Hin]]%list_elem_of_In%in_map_iff.
    apply quoted_piece. rewrite Forall_forall in Hplain. apply Hplain.
    by apply list_elem_of_In.
Qed.

(** The amended round trip at a three-item sequence, one item empty and
    one with inner and outer spaces. *)
Lemma C1_roundtrip_plain_witness :
  _parse_json_array (H := plain_python)
    (PStr (_pg_array_literal ["Chest"; ""; " upper  back "]))
  = (["Chest"; ""; " upper  back "], true).
Proof.
  apply (C1_roundtrip_plain (H := plain_python) ["Chest"; ""; " upper  back "]).
  - discriminate.
  - repeat constructor.
Defined.

(** C1 fails as stated: a comma needs no JSON-specific handling, and the
    item [a,b] comes back as the two items [a] and [b]. *)
Lemma C1_roundtrip_comma_counterexample :
  plain "a,b" = false
  ∧ _parse_json_array (H := plain_python) (PStr (_pg_array_literal ["a,b"]))
    = (["a"; "b"], true)
  ∧ _parse_json_array (H := plain_python) (PStr (_pg_array_literal ["a,b"]))
    ≠ (["a,b"], true).
Proof. repeat split. vm_compute. discriminate. Qed.

(** The empty sequence does not come back either: its literal is a JSON
    object, so the decoder reports the literal itself as one unparsed
    item and never reaches its own test for an empty brace literal. *)
Lemma roundtrip_empty_sequence `{Python} :
  _parse_json_array (PStr (_pg_array_literal [])) = (["{}"], false).
Proof. reflexivity. Qed.

(** ** The decoder's fallback item *)

Lemma parse_invalid `{Python} value items :
  _is_empty value = false →
  _parse_json_array value = (items, false) →
  items = [Str.strip (py_str value)] ∧ Str.strip (py_str value) ≠ "".
Proof.
  intros Hne. unfold _parse_json_array. rewrite Hne.
  destruct (Str.eqb (Str.strip (py_str value)) "") eqn:Htext.
  { destruct value; intros; simplify_eq. }
  apply eqb_false in Htext.
  destruct value; intros Hp;
    repeat (case_match; simplify_eq); by simplify_eq.
Qed.

(** ** The loop over an array column *)

Lemma column_step_invalid `{Python} df st row :
  invalid_json_rows (stats (column_step df st row))
  = invalid_json_rows (stats st) + (if unparseable row then 1 else 0).
Proof.
  destruct row as [idx raw]. unfold column_step, unparseable. simpl.
  destruct (_is_empty raw); simpl; [lia|].
  destruct (_parse_json_array raw) as [items []]; simpl; lia.
Qed.

Lemma column_step_examples `{Python} df st row all :
  invalid_examples st = take 10 all →
  invalid_examples (column_step df st row)
  = take 10 (all ++ if unparseable row then [example_entry df row] else []).
Proof.
  intros Hst. destruct row as [idx raw]. unfold column_step, unparseable. simpl.
  destruct (_is_empty raw); simpl; [by rewrite app_nil_r|].
  destruct (_parse_json_array raw) as [items []]; simpl; [by rewrite app_nil_r|].
  rewrite Hst. case_bool_decide as Hlen.
  - rewrite length_take in Hlen.
    assert (length all < 10) by lia.
    rewrite !take_ge by (rewrite ?length_app; simpl; lia). done.
  - rewrite length_take in Hlen.
    rewrite take_app_le by lia. done.
Qed.

Lemma column_fold `{Python} df rows st all :
  invalid_examples st = take 10 all →
  let final := fold_left (column_step df) rows st in
  invalid_json_rows (stats final)
  = invalid_json_rows (stats st) + length (List.filter unparseable rows)
  ∧ invalid_examples final
    = take 10 (all ++ List.map (example_entry df) (List.filter unparseable rows)).
Proof.
  revert st all. induction rows as [|row rows IH]; intros st all Hst; simpl.
  - rewrite app_nil_r. split; [lia|done].
  - pose proof (column_step_examples df st row all Hst) as Hex.
    destruct (IH _ _ Hex) as [Hcount Hexs]. simpl in Hcount, Hexs.
    rewrite Hcount, Hexs, column_step_invalid.
    destruct (unparseable row); simpl.
    + rewrite <- app_assoc. split; [lia|done].
    + rewrite app_nil_r. split; [lia|done].
Qed.

Lemma elem_of_enumerate {A} (l : list A) i x :
  (i, x) ∈ enumerate l ↔ l !! i = Some x.
Proof.
  unfold enumerate. rewrite list_elem_of_lookup. split.
  - intros [k Hk]. apply lookup_zip_with_Some in Hk as (a & b & Heq & Ha & Hb).
    simplify_eq. apply lookup_seq in Ha as [-> _]. done.
  - intros Hx. exists i. apply lookup_zip_with_Some. exists i, x.
    split; [done|]. split; [|done]. apply lookup_seq. split; [done|].
    by apply lookup_lt_Some in Hx.
Qed.

(** C4. When the decoder reports a non-empty value as not cleanly parsed,
    its items are exactly one string, and that string is not empty: it is
    the text of the value with surrounding whitespace trimmed, so it is the
    original text only when that has no whitespace around it.  The invalid
    count that the column loop reports is the number of rows of the column
    whose value is non-empty and not cleanly parsed. *)
Theorem C4_invalid_is_trimmed_text `{Python} :
  (∀ value items,
     _is_empty value = false →
     _parse_json_array value = (items, false) →
     items = [Str.strip (py_str value)] ∧ Str.strip (py_str value) ≠ "")
  ∧ (∀ (df : frame) col,
       invalid_json_rows (stats (column_loop df col))
       = length (List.filter
                   (λ raw, negb (_is_empty raw) && negb (_parse_json_array raw).2)
                   (default [] (df !! col)))).
Proof.
  split; [apply @parse_invalid|].
  intros df col. unfold column_loop.
  destruct (column_fold df (enumerate (default [] (df !! col)))
              {| stats := new_stats col; invalid_examples := []; new_values := [] |}
              [] eq_refl) as [-> _].
  simpl. generalize (default [] (df !! col)). intros values.
  unfold enumerate. generalize 0 at 1.
  induction values as [|v vs IH]; intros n; [done|]. simpl.
  unfold unparseable at 1. simpl.
  destruct (negb (_is_empty v) && negb (_parse_json_array v).2); simpl; by rewrite IH.
Qed.

(** The theorem at a cell that is not JSON, with spaces around it. *)
Lemma C4_invalid_is_trimmed_text_witness :
  ["not json"] = [Str.strip (py_str (H := plain_python) (PStr "  not json "))]
  ∧ Str.strip (py_str (H := plain_python) (PStr "  not json ")) ≠ "".
Proof.
  apply (proj1 (C4_invalid_is_trimmed_text (H := plain_python))
           (PStr "  not json ") ["not json"]); reflexivity.
Defined.

(** C4 at a padded cell: [  not json ] is reported as not cleanly parsed
    and its single item is [not json], not the original text that the
    docstring of [_parse_json_array] promises. *)
Lemma C4_original_text_counterexample :
  _is_empty (PStr "  not json ") = false
  ∧ _parse_json_array (H := plain_python) (PStr "  not json ") = (["not json"], false)
  ∧ ["not json"] ≠ ["  not json "].
Proof. repeat split. discriminate. Qed.

(** ** Decimal numerals *)

Lemma digit_char_is_digit x : Chr.is_digit (pretty_N_char x) = true.
Proof. unfold pretty_N_char. by repeat case_match. Qed.

Lemma pretty_N_go_digits x s :
  ∃ d, pretty_N_go x s = d +:+ s ∧ Str.forallb Chr.is_digit d = true
       ∧ ((0 < x)%N → d ≠ "").
Proof.
  revert s. induction (N.lt_wf_0 x) as [x _ IH]; intros s.
  assert (x = 0 ∨ 0 < x)%N as [->|Hpos] by lia.
  - exists "". rewrite pretty_N_go_0. split; [done|]. split; [done|lia].
  - rewrite pretty_N_go_step by done.
    destruct (IH (x `div` 10)%N (N.div_lt x 10 Hpos eq_refl)
                (String (pretty_N_char (x `mod` 10)) s)) as (d & -> & Hd & _).
    exists (d +:+ String (pretty_N_char (x `mod` 10)) "").
    rewrite sapp_assoc. split; [done|]. split.
    + rewrite forallb_app, Hd. simpl. by rewrite digit_char_is_digit.
    + intros _. by destruct d.
Qed.

Lemma pretty_nat_digits (n : nat) :
  Str.forallb Chr.is_digit (pretty n) = true ∧ pretty n ≠ "".
Proof.
  unfold pretty, pretty_nat, pretty, pretty_N.
  case_decide; [done|].
  destruct (pretty_N_go_digits (N.of_nat n) "") as (d & -> & Hd & Hne).
  rewrite sapp_nil_r. split; [done|]. apply Hne. lia.
Qed.

Lemma digit_not_space c : Chr.is_digit c = true → Chr.is_space c = false.
Proof.
  unfold Chr.is_digit, Chr.is_space. generalize (Chr.code c). intros n.
  intros [H1%N.leb_le H2%N.leb_le]%andb_true_iff.
  apply orb_false_iff. split; apply andb_false_iff.
  - right. apply N.leb_gt. lia.
  - right. apply N.leb_gt. lia.
Qed.

Lemma forallb_impl (p q : ascii → bool) s :
  (∀ c, p c = true → q c = true) → Str.forallb p s = true → Str.forallb q s = true.
Proof.
  intros Hpq. induction s as [|c r IH]; [done|]. simpl.
  intros [Hc Hr]%andb_true_iff. by rewrite (Hpq c Hc), (IH Hr).
Qed.

(** A numeral followed by a space is trimmed to the numeral. *)
Lemma strip_numeral (n : nat) : Str.strip (pretty n +:+ " ") = pretty n.
Proof.
  destruct (pretty_nat_digits n) as [Hd Hne].
  destruct (pretty n) as [|c r] eqn:Hp; [done|].
  unfold Str.strip, Str.strip_by. rewrite sapp_cons.
  simpl in Hd. apply andb_true_iff in Hd as [Hc Hr].
  rewrite lstrip_by_head by by apply digit_not_space.
  rewrite <- sapp_cons, rstrip_by_snoc by done.
  apply rstrip_by_all. simpl. rewrite (digit_not_space c Hc). simpl.
  eapply forallb_impl; [|exact Hr]. intros a Ha. by rewrite (digit_not_space a Ha).
Qed.

(** ** The examples of invalid input *)

(** C8 (as amended). For each array column the recorded examples are at
    most 10: the entries of the first ten rows whose value is non-empty and
    not cleanly parsed, in row order.  The entry of such a row is its label
    with the first 200 characters of the text of its raw value; the label is
    the row's id (the row index when the table has no [id] column), a
    space, and the row's name (nothing when the table has no [name]
    column), trimmed: the row index alone when both columns are missing. *)
Theorem C8_invalid_examples `{Python} (df : frame) (col : string) :
  let values := default [] (df !! col) in
  let examples := invalid_examples (column_loop df col) in
  length examples ≤ 10
  ∧ examples
    = take 10 (List.map (λ row : nat * pyval,
                           (example_label df row.1, Str.take 200 (py_str row.2)))
                 (List.filter unparseable (enumerate values)))
  ∧ Forall (λ e, ∃ idx raw,
               values !! idx = Some raw
               ∧ _is_empty raw = false
               ∧ (_parse_json_array raw).2 = false
               ∧ e = (example_label df idx, Str.take 200 (py_str raw)))
      examples
  ∧ (∀ idx,
       example_label df idx
       = Str.strip
           ((if has_column df "id" then py_str (loc df idx "id") else pretty idx)
            +:+ " "
            +:+ (if has_column df "name" then py_str (loc df idx "name") else "")))
  ∧ (∀ idx,
       has_column df "id" = false → has_column df "name" = false →
       example_label df idx = pretty idx).
Proof.
  intros values examples.
  assert (Hex : examples
    = take 10 (List.map (example_entry df) (List.filter unparseable (enumerate values)))).
  { subst examples values. unfold column_loop.
    by destruct (column_fold df (enumerate (default [] (df !! col)))
              {| stats := new_stats col; invalid_examples := []; new_values := [] |}
              [] eq_refl) as [_ ->]. }
  split; [|split; [|split; [|split]]].
  - rewrite Hex, length_take. lia.
  - exact Hex.
  - rewrite Hex. apply Forall_forall. intros e He.
    apply elem_of_take in He as (i & He%list_elem_of_lookup_2 & _).
    apply list_elem_of_In, in_map_iff in He as ([idx raw] & <- & Hin).
    apply filter_In in Hin as [Hin Hun].
    apply list_elem_of_In, elem_of_enumerate in Hin.
    unfold unparseable in Hun. simpl in Hun.
    apply andb_true_iff in Hun as [?%negb_true_iff ?%negb_true_iff].
    by exists idx, raw.
  - done.
  - intros idx Hid Hname. unfold example_label. rewrite Hid, Hname.
    apply strip_numeral.
Qed.

(** The label of a row of a table with neither an [id] nor a [name]
    column. *)
Lemma C8_invalid_examples_witness :
  example_label (H := plain_python) (∅ : frame) 3 = "3".
Proof.
  apply (C8_invalid_examples (H := plain_python) ∅ "tips"); reflexivity.
Defined.

(** C8 fails as stated: of an unparseable value of 201 characters the
    loop records the first 200, not the raw text. *)
Lemma C8_raw_text_counterexample :
  invalid_examples
    (column_loop (H := plain_python) {[ "tips" := [PStr (run_of "x" 201)] ]} "tips")
  = [("0", run_of "x" 200)]
  ∧ run_of "x" 200 ≠ py_str (H := plain_python) (PStr (run_of "x" 201)).
Proof. split; [by vm_compute|]. vm_compute. discriminate. Qed.

(** ** The boolean columns *)

Lemma coerce_bool_column_spec `{Python} values :
  coerce_bool_column values = List.map bool_literal values.
Proof.
  unfold coerce_bool_column. apply List.map_ext. intros v.
  unfold bool_literal, bool_token, fillna. by destruct (isna v), (py_bool v).
Qed.

Lemma bool_literal_token `{Python} v :
  bool_literal v = PStr "true" ∨ bool_literal v = PStr "false".
Proof. unfold bool_literal. destruct (isna v), (py_bool v); auto. Qed.

Lemma on_column_lookup f (df : frame) col k :
  on_column f df col !! k = if decide (col = k) then f <$> df !! k else df !! k.
Proof.
  unfold on_column. destruct (df !! col) eqn:Hcol.
  - rewrite lookup_insert. case_decide; simplify_eq; [by rewrite Hcol|done].
  - case_decide; simplify_eq; [by rewrite Hcol|done].
Qed.

Lemma fold_on_column_other f cols (df : frame) k :
  k ∉ cols → fold_left (on_column f) cols df !! k = df !! k.
Proof.
  revert df. induction cols as [|c cols IH]; intros df Hk; [done|]. simpl.
  apply not_elem_of_cons in Hk as [Hne Hk].
  rewrite IH by done. rewrite on_column_lookup. by case_decide.
Qed.

Lemma fold_insert_other (g : string → list pyval) cols (df : frame) k :
  k ∉ cols → fold_left (λ acc col, <[col := g col]> acc) cols df !! k = df !! k.
Proof.
  revert df. induction cols as [|c cols IH]; intros df Hk; [done|]. simpl.
  apply not_elem_of_cons in Hk as [Hne Hk].
  rewrite IH by done. by rewrite lookup_insert_ne.
Qed.

Lemma array_columns_of_sub (df : frame) k :
  k ∉ ARRAY_COLUMNS → k ∉ array_columns_of df.
Proof.
  intros Hk Hin. apply Hk. unfold array_columns_of in Hin.
  apply list_elem_of_In, filter_In in Hin as [Hin _]. by apply list_elem_of_In.
Qed.

Lemma clean_frame_bool_column `{Python} (df : frame) k :
  k ∈ BOOL_COLUMNS → clean_frame df !! k = coerce_bool_column <$> df !! k.
Proof.
  intros Hk. unfold clean_frame, BOOL_COLUMNS in *.
  apply elem_of_cons in Hk as [->|Hk%list_elem_of_singleton]; subst.
  - rewrite fold_on_column_other by compute_done.
    cbn [fold_left]. rewrite !on_column_lookup.
    rewrite decide_False, decide_True by done.
    rewrite fold_insert_other by (apply array_columns_of_sub; compute_done).
    rewrite on_column_lookup. by rewrite decide_False.
  - rewrite fold_on_column_other by compute_done.
    cbn [fold_left]. rewrite !on_column_lookup.
    rewrite decide_True, decide_False by done.
    rewrite fold_insert_other by (apply array_columns_of_sub; compute_done).
    rewrite on_column_lookup. by rewrite decide_False.
Qed.

Lemma bool_literal_cases `{Python} (v : pyval) :
  bool_literal v
  = PStr (match v with
          | PNone | PFloat FNaN => "false"
          | PBool b => if b then "true" else "false"
          | PInt z => if (z =? 0)%Z then "false" else "true"
          | PFloat (FInf _) => "true"
          | PFloat (FNum lexeme) => if float_is_zero lexeme then "false" else "true"
          | PStr s => if Str.is_nil s then "false" else "true"
          | PList items => if bool_decide (items = []) then "false" else "true"
          | PDict members => if bool_decide (members = []) then "false" else "true"
          end).
Proof.
  unfold bool_literal. destruct v as [|b|z|[|neg|lexeme]|s|items|members];
    cbn [isna py_bool]; try done.
  - by destruct (z =? 0)%Z.
  - by destruct (float_is_zero lexeme).
  - by destruct (Str.is_nil s).
  - by destruct (bool_decide (items = [])).
  - by destruct (bool_decide (members = [])).
Qed.

(** C7. In the cleaned table each of the two boolean columns is the source
    column with every value replaced by a token, and the script writes
    that table.  A null ([None] or NaN) gives [false]; a boolean gives its
    own token; a number gives [false] when it is zero and [true]
    otherwise; a text gives [true] unless it is empty.  So the column holds
    only the two tokens, but the token of a text cell is [true] whatever the
    text says: the cells [no], [false], [0] and [f] are all written
    [true]. *)
Theorem C7_boolean_columns `{Python} (df : frame) :
  let token v :=
    PStr (match v with
          | PNone | PFloat FNaN => "false"
          | PBool b => if b then "true" else "false"
          | PInt z => if (z =? 0)%Z then "false" else "true"
          | PFloat (FInf _) => "true"
          | PFloat (FNum lexeme) => if float_is_zero lexeme then "false" else "true"
          | PStr s => if Str.is_nil s then "false" else "true"
          | PList items => if bool_decide (items = []) then "false" else "true"
          | PDict members => if bool_decide (members = []) then "false" else "true"
          end) in
  clean_frame df !! "is_compound" = List.map token <$> df !! "is_compound"
  ∧ clean_frame df !! "is_custom" = List.map token <$> df !! "is_custom"
  ∧ (∀ values, coerce_bool_column values = List.map token values)
  ∧ (∀ values,
       Forall (λ v, v = PStr "true" ∨ v = PStr "false") (coerce_bool_column values))
  ∧ coerce_bool_column
      [PNone; PFloat FNaN; PBool true; PBool false; PInt 1; PInt 0;
       PFloat (FNum "1.0"); PFloat (FNum "0.0")]
    = [PStr "false"; PStr "false"; PStr "true"; PStr "false"; PStr "true";
       PStr "false"; PStr "true"; PStr "false"]
  ∧ coerce_bool_column [PStr "yes"; PStr "no"; PStr "false"; PStr "0"; PStr "f"]
    = [PStr "true"; PStr "true"; PStr "true"; PStr "true"; PStr "true"]
  ∧ (∀ (INPUT_CSV OUTPUT_CSV OUTPUT_REPORT_MD : string) (read_csv : string → frame)
       (to_csv : frame → string)
       (render_report :
          frame → list (string * ArrayParseStats * list (string * string)) → string)
       (fs : files) content,
       fs !! INPUT_CSV = Some content →
       read_csv content = df →
       OUTPUT_CSV ≠ OUTPUT_REPORT_MD →
       (csv_main INPUT_CSV OUTPUT_CSV OUTPUT_REPORT_MD read_csv to_csv render_report
          fs).2 !! OUTPUT_CSV
       = Some (to_csv (clean_frame df))).
Proof.
  intros token.
  assert (Hspec : ∀ values, coerce_bool_column values = List.map token values).
  { intros values. rewrite coerce_bool_column_spec. apply List.map_ext.
    intros v. apply bool_literal_cases. }
  split; [|split; [|split; [|split; [|split; [|split]]]]].
  - rewrite clean_frame_bool_column by compute_done.
    destruct (df !! "is_compound"); simpl; by rewrite ?Hspec.
  - rewrite clean_frame_bool_column by compute_done.
    destruct (df !! "is_custom"); simpl; by rewrite ?Hspec.
  - exact Hspec.
  - intros values. rewrite coerce_bool_column_spec. apply Forall_forall.
    intros v [x [<- _]]%list_elem_of_In%in_map_iff. apply bool_literal_token.
  - rewrite Hspec. by vm_compute.
  - rewrite Hspec. by vm_compute.
  - intros INPUT_CSV OUTPUT_CSV OUTPUT_REPORT_MD read_csv to_csv render_report
      fs content Hin Hread Hne.
    unfold csv_main. rewrite Hin, Hread. cbn [snd].
    by rewrite lookup_insert_ne, lookup_insert_eq.
Qed.

(** C7 at text cells: a column that holds the texts [yes] and [no] is
    written with [true] in both rows. *)
Lemma C7_text_cells_counterexample :
  clean_frame (H := plain_python) {[ "is_compound" := [PStr "yes"; PStr "no"] ]}
    !! "is_compound"
  = Some [PStr "true"; PStr "true"]
  ∧ PStr "true" ≠ PStr "false".
Proof. split; [reflexivity|discriminate]. Qed.

(** ** The category mapper *)

Lemma clean_str_text `{Python} s : _clean_str (PStr s) = Str.strip s.
Proof.
  unfold _clean_str. rewrite is_empty_str.
  destruct (Str.eqb (Str.strip s) "") eqn:He; [|done].
  by apply eqb_true in He.
Qed.

(** C2 (as amended). The category of a row is the result of the first
    rule of [category_rules] that matches its trimmed, case-folded body
    region and the case-folded text of its trimmed prime mover, a space
    and its trimmed target group, and [full_body] when none matches; it is
    one of the seven categories.  The key words are those of the code:
    pectoralis, chest; latissimus, trapezi, rhombo, erector, back; deltoid,
    shoulder, rotator; biceps, triceps, forearm, wrist, brachii. *)
Theorem C2_category_rules `{Python} (body_region prime_mover target_group : string) :
  _map_category body_region prime_mover target_group
  = first_match category_rules
      (Str.casefold (Str.strip body_region))
      (Str.casefold (Str.strip prime_mover +:+ " " +:+ Str.strip target_group))
      "full_body"
  ∧ _map_category body_region prime_mover target_group ∈ CATEGORIES
  ∧ _map_category "Lower Body" prime_mover target_group = "legs"
  ∧ _map_category "" "Anterior Deltoid" "" = "shoulders"
  ∧ _map_category "Upper Body" "Gluteus" "Hips" = "arms"
  ∧ _map_category "" "Gluteus" "Hips" = "full_body".
Proof.
  assert (Hrules : _map_category body_region prime_mover target_group
                   = first_match category_rules
                       (Str.casefold (Str.strip body_region))
                       (Str.casefold (Str.strip prime_mover +:+ " "
                                      +:+ Str.strip target_group))
                       "full_body").
  { unfold _map_category, first_match, category_rules, region_is, hint_has.
    rewrite !clean_str_text. cbn [List.find fst snd].
    repeat (match goal with |- context [if ?b then _ else _] => destruct b end;
            try reflexivity). }
  split; [exact Hrules|]. split; [|clear; split; [|by vm_compute]].
  2:{ unfold _map_category. rewrite !clean_str_text. by vm_compute. }
  rewrite Hrules. unfold first_match.
  destruct (List.find _ category_rules) as [r|] eqn:Hfind; [|compute_done].
  apply List.find_some in Hfind as [Hin _].
  unfold category_rules in Hin. simpl in Hin.
  repeat (destruct Hin as [<-|Hin]; [compute_done|]). done.
Qed.

(** C2 fails as stated: with an empty body region, the muscle text [arm]
    holds the listed hint [arm] and no earlier one, and the category is
    [full_body], not [arms]. *)
Lemma C2_arm_hint_counterexample :
  Str.contains "arm" (Str.casefold ("arm" +:+ " " +:+ "")) = true
  ∧ _map_category (H := plain_python) "" "arm" "" = "full_body"
  ∧ _map_category (H := plain_python) "" "arm" "" ≠ "arms".
Proof. by repeat split. Qed.

(** ** The row loop of the spreadsheet script *)

Lemma rstrip_by_only p s :
  Str.forallb p (Str.rstrip_by p s) = true → Str.rstrip_by p s = "".
Proof.
  induction s as [|c r IH]; [done|]. simpl.
  destruct (Str.is_nil (Str.rstrip_by p r) && p c) eqn:Hc; [done|].
  simpl. intros [Hpc Hr]%andb_true_iff.
  rewrite (IH Hr), Hpc in Hc. done.
Qed.

Lemma rev_app_ne a b : b ≠ "" → String.rev_app a b ≠ "".
Proof. revert b. induction a as [|c r IH]; intros b Hb; [done|]. simpl. by apply IH. Qed.

Lemma words_go_spec s cur :
  Forall (λ w, w ≠ "") (Str.words_go cur s)
  ∧ (Str.words_go cur s = [] → cur = "" ∧ Str.forallb Chr.is_space s = true).
Proof.
  revert cur. induction s as [|c r IH]; intros cur; simpl.
  - destruct cur as [|a cur]; simpl; [by split|].
    split; [|done]. constructor; [|done]. by apply (rev_app_ne cur (String a "")).
  - destruct (Chr.is_space c) eqn:Hc.
    + destruct (IH "") as [Hall Hnil].
      destruct cur as [|a cur]; simpl.
      * split; [done|]. intros Hw. by destruct (Hnil Hw).
      * split; [|done]. constructor; [|done]. by apply (rev_app_ne cur (String a "")).
    + destruct (IH (String c cur)) as [Hall Hnil].
      split; [done|]. intros Hw. by destruct (Hnil Hw).
Qed.

Lemma join_ne sep l : l ≠ [] → Forall (λ w, w ≠ "") l → Str.join sep l ≠ "".
Proof.
  destruct l as [|w ws]; [done|]. intros _ [Hw _]%Forall_cons.
  destruct w as [|c r]; [done|]. by destruct ws.
Qed.

(** The normalised name of a non-empty trimmed name is not empty. *)
Lemma norm_name_ne s :
  Str.strip s ≠ "" → Str.join " " (Str.words (Str.strip s)) ≠ "".
Proof.
  intros Hne. destruct (words_go_spec (Str.strip s) "") as [Hall Hnil].
  apply join_ne; [|done]. intros Hw. destruct (Hnil Hw) as [_ Hsp].
  apply Hne. unfold Str.strip, Str.strip_by in *. by apply rstrip_by_only.
Qed.

Lemma clean_str_cases `{Python} v :
  _clean_str v = "" ∨ ∃ s, _clean_str v = Str.strip s ∧ Str.strip s ≠ "".
Proof.
  destruct (decide (_clean_str v = "")) as [|Hne]; [by left|]. right.
  unfold _clean_str in *. destruct (_is_empty v); [done|]. by eexists.
Qed.

Lemma row_step_skip `{Python} now st row : kept row = false → row_step now st row = st.
Proof.
  unfold kept, row_step. intros Hk%negb_false_iff. destruct st. by rewrite Hk.
Qed.

Lemma row_step_keep `{Python} now st row :
  kept row = true →
  (row_step now st row).1
  = st.1 ++ [build_row now row (_clean_str (get row "Exercise"))].
Proof.
  unfold kept, row_step. intros Hk%negb_true_iff. destruct st. by rewrite Hk.
Qed.

Lemma row_fold_filter `{Python} now df st :
  fold_left (row_step now) df st = fold_left (row_step now) (List.filter kept df) st.
Proof.
  revert st. induction df as [|row df IH]; intros st; [done|]. simpl.
  destruct (kept row) eqn:Hk; simpl; [apply IH|].
  rewrite row_step_skip by done. apply IH.
Qed.

Lemma row_fold_rows `{Python} now df st :
  (fold_left (row_step now) df st).1
  = st.1 ++ List.map (λ row, build_row now row (_clean_str (get row "Exercise")))
              (List.filter kept df).
Proof.
  revert st. induction df as [|row df IH]; intros st; simpl.
  - by rewrite app_nil_r.
  - rewrite IH. destruct (kept row) eqn:Hk.
    + rewrite row_step_keep by done. simpl. by rewrite <- app_assoc.
    + by rewrite row_step_skip.
Qed.

(** C10. A row of the sheet whose [Exercise] cell is absent, empty or
    blank changes neither the output rows nor the name counts: the loop
    gives what it gives on the sheet without such rows, one output row for
    each remaining row, in order; and every output row has a non-empty
    name. *)
Theorem C10_blank_names_skipped `{Python} (now_utc : string) (df : list sheet_row) :
  (∀ st row, _is_empty (get row "Exercise") = true → row_step now_utc st row = st)
  ∧ (∀ st row, row !! "Exercise" = None → row_step now_utc st row = st)
  ∧ (∀ st row s,
       row !! "Exercise" = Some (PStr s) → Str.strip s = "" →
       row_step now_utc st row = st)
  ∧ row_loop now_utc df = row_loop now_utc (List.filter kept df)
  ∧ (row_loop now_utc df).1
    = List.map (λ row, build_row now_utc row (_clean_str (get row "Exercise")))
        (List.filter kept df)
  ∧ Forall (λ r, Out.name r ≠ "") (row_loop now_utc df).1.
Proof.
  assert (Hskip : ∀ st row,
             _is_empty (get row "Exercise") = true → row_step now_utc st row = st).
  { intros st row He. apply row_step_skip. unfold kept, _clean_str. by rewrite He. }
  split; [exact Hskip|]. split; [|split; [|split; [|split]]].
  - intros st row Hrow. apply Hskip. unfold get. by rewrite Hrow.
  - intros st row s Hrow Hs. apply Hskip. unfold get. rewrite Hrow. simpl.
    by apply eqb_true.
  - apply row_fold_filter.
  - unfold row_loop. by rewrite row_fold_rows.
  - unfold row_loop. rewrite row_fold_rows. simpl.
    apply Forall_forall. intros r [row [<- Hin]]%list_elem_of_In%in_map_iff.
    apply filter_In in Hin as [_ Hk]. unfold kept in Hk.
    apply negb_true_iff, is_nil_false in Hk.
    destruct (clean_str_cases (get row "Exercise")) as [?|(s & Hs & Hne)]; [done|].
    unfold build_row. simpl. rewrite Hs. by apply norm_name_ne.
Qed.

(** A sheet of three rows, the second with a blank name and the third with
    none: the loop keeps the first row only. *)
Lemma C10_blank_names_skipped_witness :
  row_step (H := plain_python) "2024-01-01 00:00:00+00" ([], ∅)
    {[ "Exercise" := PStr "   "; "Body Region" := PStr "Core" ]}
  = ([], ∅).
Proof.
  apply (proj1 (proj2 (proj2
           (C10_blank_names_skipped (H := plain_python) "2024-01-01 00:00:00+00" [])))
           ([], ∅) _ "   "); reflexivity.
Defined.

(** ** The id repair pass *)

Lemma count_in_app eid l1 l2 : count_in eid (l1 ++ l2) = count_in eid l1 + count_in eid l2.
Proof. unfold count_in. by rewrite List.filter_app, length_app. Qed.

Lemma count_in_one_eq eid : count_in eid [eid] = 1.
Proof. unfold count_in. simpl. by rewrite (proj2 (eqb_true eid eid) eq_refl). Qed.

Lemma count_in_one_ne eid x : x ≠ eid → count_in eid [x] = 0.
Proof. intros Hne. unfold count_in. simpl. by rewrite (proj2 (eqb_false x eid) Hne). Qed.

Lemma count_in_pos eid l : eid ∈ l → 0 < count_in eid l.
Proof.
  intros [l1 [l2 ->]]%list_elem_of_split.
  rewrite count_in_app. change (eid :: l2) with ([eid] ++ l2).
  rewrite count_in_app, count_in_one_eq. lia.
Qed.

Lemma count_in_zero eid l : eid ∉ l → count_in eid l = 0.
Proof.
  induction l as [|x l IH]; [done|]. intros [Hne Hl]%not_elem_of_cons.
  change (x :: l) with ([x] ++ l). rewrite count_in_app, IH by done.
  by rewrite count_in_one_ne.
Qed.

Lemma repair_step_spec (seen : gmap string nat) acc x :
  let n := S (default 0 (seen !! x)) in
  repair_step (seen, acc) x
  = (<[x := n]> seen,
     acc ++ [if Nat.eqb n 1 then x else _stable_exercise_id (rehash_key x n)]).
Proof.
  unfold repair_step. rewrite lookup_insert_eq, Nat.add_1_r.
  change (default 0 (Some ?v)) with v.
  by destruct (Nat.eqb (S (default 0 (seen !! x))) 1).
Qed.

Lemma repair_fold l pre (seen : gmap string nat) acc :
  (∀ k, default 0 (seen !! k) = count_in k pre) →
  (fold_left repair_step l (seen, acc)).2
  = acc ++ imap (λ j eid, repaired_id (pre ++ l) (length pre + j) eid) l.
Proof.
  revert pre seen acc. induction l as [|x l IH]; intros pre seen acc Hseen.
  - simpl. by rewrite app_nil_r.
  - rewrite imap_cons. cbn [fold_left]. rewrite repair_step_spec.
    set (n := S (default 0 (seen !! x))).
    assert (Hocc : occurrence (pre ++ x :: l) (length pre + 0) x = n).
    { unfold occurrence, n. by rewrite Nat.add_0_r, take_app_length, Hseen. }
    assert (Hseen' : ∀ k, default 0 (<[x := n]> seen !! k) = count_in k (pre ++ [x])).
    { intros k. rewrite count_in_app. unfold n.
      destruct (decide (x = k)) as [->|Hne].
      - rewrite lookup_insert_eq, count_in_one_eq, Hseen. simpl. lia.
      - rewrite lookup_insert_ne, count_in_one_ne, Hseen by done. lia. }
    rewrite (IH (pre ++ [x]) _ _ Hseen'), <- app_assoc. f_equal. simpl. f_equal.
    + unfold repaired_id. by rewrite Hocc.
    + apply imap_ext. intros j y _. simpl.
      rewrite <- app_assoc, length_app. simpl. f_equal. lia.
Qed.

Lemma repair_pass_spec ids : repair_pass ids = imap (repaired_id ids) ids.
Proof.
  unfold repair_pass. rewrite (repair_fold ids [] ∅ []).
  - simpl. by apply imap_ext.
  - intros k. by rewrite lookup_empty.
Qed.

Lemma repaired_id_first ids i eid :
  eid ∉ take i ids → repaired_id ids i eid = eid.
Proof. intros Hk. unfold repaired_id, occurrence. by rewrite count_in_zero. Qed.

Lemma repaired_id_later ids i eid :
  eid ∈ take i ids →
  repaired_id ids i eid = _stable_exercise_id (rehash_key eid (occurrence ids i eid))
  ∧ 2 ≤ occurrence ids i eid.
Proof.
  intros Hk%count_in_pos. unfold repaired_id, occurrence.
  destruct (count_in eid (take i ids)) as [|n]; [lia|]. split; [done|lia].
Qed.

Lemma NoDup_first_occurrence (ids : list string) i eid :
  NoDup ids → ids !! i = Some eid → eid ∉ take i ids.
Proof.
  intros Hnd Hi [j Hj]%list_elem_of_lookup.
  apply lookup_take_Some in Hj as [Hj Hlt].
  pose proof (NoDup_lookup _ _ _ _ Hnd Hi Hj). lia.
Qed.

(** The ids after the block guarded by [duplicated().any()]. *)
Lemma final_ids_spec ids : final_ids ids = imap (repaired_id ids) ids.
Proof.
  unfold final_ids, has_duplicates. case_bool_decide as Hnd; simpl.
  - apply list_eq. intros i. rewrite list_lookup_imap.
    destruct (ids !! i) as [eid|] eqn:Hi; [|done]. simpl.
    by rewrite repaired_id_first by by apply NoDup_first_occurrence.
  - apply repair_pass_spec.
Qed.

(** ** The id key and the shape of an id *)

Lemma slength_app a b : String.length (a +:+ b) = String.length a + String.length b.
Proof. induction a as [|c a IH]; [done|]. rewrite sapp_cons. simpl. by rewrite IH. Qed.

Lemma sapp_inj_len a b s t :
  String.length a = String.length b → a +:+ s = b +:+ t → a = b ∧ s = t.
Proof.
  revert b. induction a as [|c a IH]; intros [|d b] Hlen Heq; try done.
  rewrite !sapp_cons in Heq. injection Heq as -> Heq. simpl in Hlen.
  destruct (IH b) as [-> ->]; [lia|done|done].
Qed.

Lemma sapp_inj_r a b s : a +:+ s = b +:+ s → a = b.
Proof.
  intros Heq. apply (sapp_inj_len a b s s); [|done].
  apply (f_equal String.length) in Heq. rewrite !slength_app in Heq. lia.
Qed.

Lemma id_key_unfold n e p m : id_key n e p m = n +:+ "|" +:+ e +:+ "|" +:+ p +:+ "|" +:+ m.
Proof. reflexivity. Qed.

(** Changing one of the four key fields changes the id key. *)
Lemma id_key_sensitive n e p m x :
  (x ≠ n → id_key x e p m ≠ id_key n e p m)
  ∧ (x ≠ e → id_key n x p m ≠ id_key n e p m)
  ∧ (x ≠ p → id_key n e x m ≠ id_key n e p m)
  ∧ (x ≠ m → id_key n e p x ≠ id_key n e p m).
Proof.
  rewrite !id_key_unfold. repeat split; intros Hne Heq; apply Hne.
  - by apply sapp_inj_r in Heq.
  - apply (inj (String.app n)), (inj (String.app "|")) in Heq.
    by apply sapp_inj_r in Heq.
  - apply (inj (String.app n)), (inj (String.app "|")),
      (inj (String.app e)), (inj (String.app "|")) in Heq.
    by apply sapp_inj_r in Heq.
  - by apply (inj (String.app n)), (inj (String.app "|")),
      (inj (String.app e)), (inj (String.app "|")),
      (inj (String.app p)), (inj (String.app "|")) in Heq.
Qed.

Lemma hex_digit_no_pipe n : negb (Ascii.eqb (Uuid.hex_digit n) "|"%char) = true.
Proof.
  apply negb_true_iff, Ascii.eqb_neq. intros Heq.
  apply (f_equal N_of_ascii) in Heq. revert Heq. unfold Uuid.hex_digit.
  pose proof (N.mod_upper_bound n 16 ltac:(done)) as Hd.
  destruct (n mod 16 <? 10)%N; rewrite N_ascii_embedding by lia;
    change (N_of_ascii "|"%char) with 124%N; lia.
Qed.

Lemma stable_id_length key : String.length (_stable_exercise_id key) = 36.
Proof. reflexivity. Qed.

Lemma stable_id_no_pipe key : no_pipe (_stable_exercise_id key) = true.
Proof.
  unfold _stable_exercise_id, Uuid.uuid5, Uuid.to_string, Uuid.hex2, no_pipe.
  cbn [Str.forallb]. rewrite !hex_digit_no_pipe. reflexivity.
Qed.

Lemma digits_no_pipe s : Str.forallb Chr.is_digit s = true → no_pipe s = true.
Proof.
  apply forallb_impl. intros c Hc. apply negb_true_iff, Ascii.eqb_neq. by intros ->.
Qed.

Lemma rehash_key_no_pipe key n : no_pipe (rehash_key (_stable_exercise_id key) n) = true.
Proof.
  unfold rehash_key, no_pipe. rewrite !forallb_app.
  fold (no_pipe (_stable_exercise_id key)). rewrite stable_id_no_pipe. simpl.
  apply digits_no_pipe, pretty_nat_digits.
Qed.

Lemma key_of_pipe k : no_pipe (key_of k) = false.
Proof.
  destruct k as [[[n e] p] m]. unfold key_of. rewrite id_key_unfold.
  unfold no_pipe. rewrite forallb_app. simpl. by rewrite andb_false_r.
Qed.

Lemma rehash_key_inj a b n m :
  rehash_key (_stable_exercise_id a) n = rehash_key (_stable_exercise_id b) m →
  _stable_exercise_id a = _stable_exercise_id b ∧ n = m.
Proof.
  unfold rehash_key. intros Heq.
  apply sapp_inj_len in Heq as [Hid Hrest]; [|by rewrite !stable_id_length].
  split; [done|]. apply (inj (String.app ":")) in Hrest.
  by apply (inj pretty) in Hrest.
Qed.

(** ** Uniqueness of the repaired ids *)

Lemma collision_free_spec keys a b :
  collision_free keys = true → a ∈ keys → b ∈ keys →
  _stable_exercise_id a = _stable_exercise_id b → a = b.
Proof.
  unfold collision_free. rewrite List.forallb_forall. intros Hall Ha Hb Hid.
  specialize (Hall a (proj1 (list_elem_of_In _ _) Ha)).
  rewrite List.forallb_forall in Hall.
  specialize (Hall b (proj1 (list_elem_of_In _ _) Hb)).
  rewrite (proj2 (eqb_true _ _) Hid) in Hall. simpl in Hall. by apply eqb_true.
Qed.

Lemma rehash_key_hashed ids i eid :
  ids !! i = Some eid → eid ∈ take i ids →
  rehash_key eid (occurrence ids i eid) ∈ rehash_keys ids.
Proof.
  intros Hi Hin. unfold rehash_keys. apply list_elem_of_omap.
  exists (Some (rehash_key eid (occurrence ids i eid))). split; [|done].
  destruct (repaired_id_later ids i eid Hin) as [_ Hocc].
  assert (Hf : Nat.eqb (occurrence ids i eid) 1 = false) by (apply Nat.eqb_neq; lia).
  apply list_elem_of_lookup. exists i. rewrite list_lookup_imap, Hi.
  cbv beta zeta. cbn [fmap option_fmap option_map]. by rewrite Hf.
Qed.

Lemma same_occurrence (ids : list string) i j eid :
  ids !! i = Some eid → ids !! j = Some eid →
  count_in eid (take i ids) = count_in eid (take j ids) → i = j.
Proof.
  assert (Hlt : ∀ i j, ids !! i = Some eid → i < j →
                count_in eid (take i ids) < count_in eid (take j ids)).
  { clear. intros i j Hi Hij.
    replace j with (S i + (j - S i)) by lia.
    rewrite <- take_take_drop, (take_S_r _ _ _ Hi), !count_in_app, count_in_one_eq.
    lia. }
  intros Hi Hj Hc. destruct (Nat.lt_trichotomy i j) as [H|[H|H]]; [|done|].
  - pose proof (Hlt i j Hi H). lia.
  - pose proof (Hlt j i Hj H). lia.
Qed.

(** When no two of the texts hashed in a batch collide, the ids of the
    batch are pairwise different after the repair pass. *)
Lemma final_ids_NoDup (fields : list key_fields) :
  let keys := List.map key_of fields in
  let ids := List.map _stable_exercise_id keys in
  collision_free (keys ++ rehash_keys ids) = true →
  NoDup (final_ids ids).
Proof.
  intros keys ids Hfree. rewrite final_ids_spec. apply NoDup_alt.
  intros i j x Hi Hj. rewrite list_lookup_imap in Hi, Hj.
  destruct (ids !! i) as [a|] eqn:Hia; [|done].
  destruct (ids !! j) as [b|] eqn:Hjb; [|done].
  simpl in Hi, Hj. injection Hi as Hi. injection Hj as Hj.
  assert (Hkey : ∀ i a, ids !! i = Some a →
            ∃ f, a = _stable_exercise_id (key_of f) ∧ key_of f ∈ keys).
  { intros i' a' H'. unfold ids, keys in H'.
    rewrite List.map_map in H'. apply list_lookup_fmap_Some in H' as (f & -> & Hf).
    exists f. split; [done|]. unfold keys. apply list_elem_of_fmap. exists f.
    split; [done|]. by eapply list_elem_of_lookup_2. }
  destruct (Hkey i a Hia) as (fa & Ha & Hfa).
  destruct (Hkey j b Hjb) as (fb & Hb & Hfb).
  assert (Hin : ∀ k, k ∈ keys → k ∈ keys ++ rehash_keys ids)
    by (intros; apply elem_of_app; by left).
  assert (Hre : ∀ i a, ids !! i = Some a → a ∈ take i ids →
            rehash_key a (occurrence ids i a) ∈ keys ++ rehash_keys ids)
    by (intros; apply elem_of_app; right; by apply rehash_key_hashed).
  destruct (decide (a ∈ take i ids)) as [Hai|Hai];
    destruct (decide (b ∈ take j ids)) as [Hbj|Hbj].
  - destruct (repaired_id_later ids i a Hai) as [Ea _].
    destruct (repaired_id_later ids j b Hbj) as [Eb _].
    rewrite Ea in Hi. rewrite Eb in Hj. subst x.
    apply (collision_free_spec _ _ _ Hfree) in Hj; [|by apply Hre..].
    rewrite Ha, Hb in Hj. apply rehash_key_inj in Hj as [Hid Hocc].
    rewrite <- Ha, <- Hb in Hid, Hocc. subst b.
    unfold occurrence in Hocc. injection Hocc as Hocc.
    symmetry. by eapply same_occurrence.
  - destruct (repaired_id_later ids i a Hai) as [Ea _].
    rewrite Ea in Hi. rewrite repaired_id_first in Hj by done. subst x.
    rewrite Hb in Hj at 1.
    apply (collision_free_spec _ _ _ Hfree) in Hj; [|by apply Hin|by apply Hre].
    pose proof (key_of_pipe fb) as Hp. rewrite Hj, Ha in Hp.
    by rewrite rehash_key_no_pipe in Hp.
  - destruct (repaired_id_later ids j b Hbj) as [Eb _].
    rewrite Eb in Hj. rewrite repaired_id_first in Hi by done. subst x.
    symmetry in Hj. rewrite Ha in Hj at 1.
    apply (collision_free_spec _ _ _ Hfree) in Hj; [|by apply Hin|by apply Hre].
    pose proof (key_of_pipe fa) as Hp. rewrite Hj, Hb in Hp.
    by rewrite rehash_key_no_pipe in Hp.
  - rewrite repaired_id_first in Hi, Hj by done. subst a b.
    apply (same_occurrence ids i j x Hia Hjb).
    by rewrite !count_in_zero.
Qed.

Lemma build_row_id `{Python} now row :
  Out.id (build_row now row (_clean_str (get row "Exercise")))
  = _stable_exercise_id (key_of (row_key_fields row)).
Proof. reflexivity. Qed.

Lemma row_loop_ids `{Python} now df :
  List.map Out.id (row_loop now df).1
  = List.map (λ k, _stable_exercise_id (key_of k))
      (List.map row_key_fields (List.filter kept df)).
Proof.
  unfold row_loop. rewrite row_fold_rows. simpl.
  rewrite !List.map_map. apply List.map_ext. intros row. apply build_row_id.
Qed.

(** ** How a run ends *)

Section Runs.
Context `{Python}.
Variables (INPUT_CSV OUTPUT_CSV OUTPUT_REPORT_MD : string).
Variables (read_csv : string → frame) (frame_to_csv : frame → string).
Variable render_report :
  frame → list (string * ArrayParseStats * list (string * string)) → string.
Variables (XLSX_PATH OUT_CSV OUT_AUDIT now_utc : string).
Variables (read_sheet : string → list sheet_row).
Variables (rows_to_csv : list Out.row → string).
Variable render_audit : list sheet_row → list Out.row → string.

Local Abbreviation run_csv :=
  (csv_main INPUT_CSV OUTPUT_CSV OUTPUT_REPORT_MD read_csv frame_to_csv render_report).
Local Abbreviation run_xlsx :=
  (xlsx_main XLSX_PATH OUT_CSV OUT_AUDIT now_utc read_sheet rows_to_csv render_audit).

Lemma csv_main_missing fs :
  fs !! INPUT_CSV = None →
  run_csv fs = (SystemExit ("Missing input CSV: " +:+ INPUT_CSV), fs).
Proof. intros Hin. unfold run_csv, csv_main. by rewrite Hin. Qed.

Lemma xlsx_main_missing fs :
  fs !! XLSX_PATH = None →
  run_xlsx fs = (SystemExit ("Missing XLSX: " +:+ XLSX_PATH), fs).
Proof. intros Hin. unfold run_xlsx, xlsx_main. by rewrite Hin. Qed.

Lemma csv_main_present fs content :
  fs !! INPUT_CSV = Some content →
  ∃ table report,
    run_csv fs
    = (Completed ["Wrote " +:+ OUTPUT_CSV; "Wrote " +:+ OUTPUT_REPORT_MD],
       <[OUTPUT_REPORT_MD := report]> (<[OUTPUT_CSV := table]> fs)).
Proof. intros Hin. unfold run_csv, csv_main. rewrite Hin. by eexists _, _. Qed.

Lemma xlsx_main_present fs content :
  fs !! XLSX_PATH = Some content →
  match (row_loop now_utc (read_sheet content)).1 with
  | [] => run_xlsx fs = (Raised "KeyError: 'id'", fs)
  | _ :: _ =>
      ∃ table report,
        run_xlsx fs
        = (Completed ["Wrote " +:+ OUT_CSV; "Wrote " +:+ OUT_AUDIT],
           <[OUT_AUDIT := report]> (<[OUT_CSV := table]> fs))
  end.
Proof.
  intros Hin. unfold xlsx_main. rewrite Hin.
  destruct (row_loop now_utc (read_sheet content)) as [[|r rows] counts]; simpl.
  - done.
  - by eexists _, _.
Qed.

(** The outcomes of the two scripts.  When the input file is missing a
    run ends with [SystemExit], a message that names the path and no file
    written.  Otherwise the CSV script completes with both outputs
    written; the spreadsheet script does so when at least one row of the
    sheet is kept, and when none is it raises [KeyError] with no file
    written. *)
Lemma run_outcomes fs :
  match fs !! INPUT_CSV with
  | None => run_csv fs = (SystemExit ("Missing input CSV: " +:+ INPUT_CSV), fs)
  | Some _ =>
      ∃ table report,
        run_csv fs
        = (Completed ["Wrote " +:+ OUTPUT_CSV; "Wrote " +:+ OUTPUT_REPORT_MD],
           <[OUTPUT_REPORT_MD := report]> (<[OUTPUT_CSV := table]> fs))
  end
  ∧ match fs !! XLSX_PATH with
    | None => run_xlsx fs = (SystemExit ("Missing XLSX: " +:+ XLSX_PATH), fs)
    | Some content =>
        match List.filter kept (read_sheet content) with
        | [] => run_xlsx fs = (Raised "KeyError: 'id'", fs)
        | _ :: _ =>
            ∃ table report,
              run_xlsx fs
              = (Completed ["Wrote " +:+ OUT_CSV; "Wrote " +:+ OUT_AUDIT],
                 <[OUT_AUDIT := report]> (<[OUT_CSV := table]> fs))
        end
    end.
Proof.
  split.
  - destruct (fs !! INPUT_CSV) eqn:Hin.
    + by eapply csv_main_present.
    + by apply csv_main_missing.
  - destruct (fs !! XLSX_PATH) as [content|] eqn:Hin.
    + pose proof (xlsx_main_present fs content Hin) as Hrun.
      unfold row_loop in Hrun. rewrite row_fold_rows in Hrun. simpl in Hrun.
      by destruct (List.filter kept (read_sheet content)).
    + by apply xlsx_main_missing.
Qed.
End Runs.

(** C9. In both scripts a missing input file ends the run with
    [SystemExit], status 1, a message naming the path, and the files as
    they were; with the input present the CSV script completes with both
    outputs written, and the spreadsheet script completes with both outputs
    written when some row of the sheet has a name, but raises [KeyError],
    status 1, with nothing written, when no row has one. *)
Theorem C9_run_outcomes `{Python}
    (INPUT_CSV OUTPUT_CSV OUTPUT_REPORT_MD : string)
    (read_csv : string → frame) (frame_to_csv : frame → string)
    (render_report :
       frame → list (string * ArrayParseStats * list (string * string)) → string)
    (XLSX_PATH OUT_CSV OUT_AUDIT now_utc : string)
    (read_sheet : string → list sheet_row) (rows_to_csv : list Out.row → string)
    (render_audit : list sheet_row → list Out.row → string) (fs : files) :
  let run_csv :=
    csv_main INPUT_CSV OUTPUT_CSV OUTPUT_REPORT_MD read_csv frame_to_csv render_report in
  let run_xlsx :=
    xlsx_main XLSX_PATH OUT_CSV OUT_AUDIT now_utc read_sheet rows_to_csv render_audit in
  match fs !! INPUT_CSV with
  | None =>
      run_csv fs = (SystemExit ("Missing input CSV: " +:+ INPUT_CSV), fs)
      ∧ exit_status (run_csv fs).1 = 1
  | Some _ =>
      ∃ table report,
        run_csv fs
        = (Completed ["Wrote " +:+ OUTPUT_CSV; "Wrote " +:+ OUTPUT_REPORT_MD],
           <[OUTPUT_REPORT_MD := report]> (<[OUTPUT_CSV := table]> fs))
  end
  ∧ match fs !! XLSX_PATH with
    | None =>
        run_xlsx fs = (SystemExit ("Missing XLSX: " +:+ XLSX_PATH), fs)
        ∧ exit_status (run_xlsx fs).1 = 1
    | Some content =>
        match List.filter kept (read_sheet content) with
        | [] =>
            run_xlsx fs = (Raised "KeyError: 'id'", fs)
            ∧ exit_status (run_xlsx fs).1 = 1
        | _ :: _ =>
            ∃ table report,
              run_xlsx fs
              = (Completed ["Wrote " +:+ OUT_CSV; "Wrote " +:+ OUT_AUDIT],
                 <[OUT_AUDIT := report]> (<[OUT_CSV := table]> fs))
        end
    end.
Proof.
  cbv zeta.
  destruct (run_outcomes INPUT_CSV OUTPUT_CSV OUTPUT_REPORT_MD read_csv frame_to_csv
              render_report XLSX_PATH OUT_CSV OUT_AUDIT now_utc read_sheet
              rows_to_csv render_audit fs) as [Hcsv Hxlsx].
  split.
  - destruct (fs !! INPUT_CSV); [done|]. by rewrite Hcsv.
  - destruct (fs !! XLSX_PATH) as [content|]; [|by rewrite Hxlsx].
    destruct (List.filter kept (read_sheet content)); [|done]. by rewrite Hxlsx.
Qed.

(** A sheet that is present and whose two rows have no name: the run
    raises and the files are as they were. *)
Lemma xlsx_no_named_row_example :
  let fs : files := {[ "database/exercises.xlsx" := "<workbook>" ]} in
  xlsx_main (H := plain_python) "database/exercises.xlsx" "out.csv" "audit.md"
    "2024-01-01 00:00:00+00"
    (λ _, [ {[ "Exercise" := PStr "  "; "Body Region" := PStr "Core" ]}; ∅ ])
    (λ _, "") (λ _ _, "") fs
  = (Raised "KeyError: 'id'", fs).
Proof. reflexivity. Qed.

(** ** The decoder never runs out of fuel *)

Lemma skip_ws_le s : String.length (Json.skip_ws s) ≤ String.length s.
Proof.
  induction s as [|c r IH]; [done|]. simpl.
  destruct (Json.is_ws c); simpl; lia.
Qed.

Lemma after_length c s r : Json.after c s = Some r → String.length s = S (String.length r).
Proof.
  destruct s as [|a s]; [done|]. simpl.
  destruct (Ascii.eqb a c); [|done]. by intros [= ->].
Qed.

Lemma cons_text_some t r u rest :
  Json.cons_text t r = Some (u, rest) → ∃ u', r = Some (u', rest).
Proof. destruct r as [[u' rest']|]; simpl; [|done]. intros [= _ ->]. by eexists. Qed.

Lemma scan_string_lt n s t rest :
  String.length s ≤ n → Json.scan_string s = Some (t, rest) →
  String.length rest < String.length s.
Proof.
  revert s t rest. induction n as [|n IH]; intros s t rest Hlen Hscan.
  { destruct s; [done|simpl in Hlen; lia]. }
  destruct s as [|c r]; [done|]. simpl in Hscan, Hlen.
  assert (Hrec : ∀ u r' t', String.length r' ≤ n →
            Json.cons_text u (Json.scan_string r') = Some (t', rest) →
            String.length rest < String.length r').
  { intros u r' t' Hr' [u' Hu]%cons_text_some. by eapply IH. }
  destruct (Ascii.eqb c Chr.dquote).
  { injection Hscan as _ ->. simpl. lia. }
  destruct (Ascii.eqb c Chr.backslash).
  - destruct r as [|e r1]; [done|].
    destruct (Ascii.eqb e "u"%char).
    + destruct r1 as [|h1 [|h2 [|h3 [|h4 r2]]]]; try done.
      destruct (Json.hex4 h1 h2 h3 h4) as [cp|]; [|done].
      simpl in Hlen |- *.
      assert (Hsingle : ∀ t', Json.cons_text (Json.utf8 cp) (Json.scan_string r2) = Some (t', rest) →
                String.length rest < S (S (S (S (S (S (String.length r2))))))).
      { intros t' Ht. apply Hrec in Ht; lia. }
      destruct r2 as [|b [|u [|l1 [|l2 [|l3 [|l4 r3]]]]]]; try by eapply Hsingle.
      destruct (Json.hex4 l1 l2 l3 l4) as [lo|]; [|by eapply Hsingle].
      destruct (_ && _); [|by eapply Hsingle].
      apply Hrec in Hscan; simpl in *; lia.
    + destruct (Json.simple_escape e); [|done].
      apply Hrec in Hscan; simpl in *; lia.
  - destruct (Chr.code c <? 32)%N; [done|].
    apply Hrec in Hscan; simpl in *; lia.
Qed.

Lemma span_digits_length s d rest :
  Json.span_digits s = (d, rest) →
  String.length s = String.length d + String.length rest.
Proof.
  revert d rest. induction s as [|c r IH]; intros d rest; simpl.
  - by intros [= <- <-].
  - destruct (Chr.is_digit c).
    + destruct (Json.span_digits r) as [d' rest']. intros [= <- <-].
      simpl. by rewrite (IH d' rest' eq_refl).
    + by intros [= <- <-].
Qed.

Lemma scan_frac_le s frac rest :
  Json.scan_frac s = (frac, rest) → String.length rest ≤ String.length s.
Proof.
  unfold Json.scan_frac. destruct (Json.after "." s) as [r|] eqn:Hr.
  - apply after_length in Hr.
    destruct (Json.span_digits r) as [d rest'] eqn:Hd. apply span_digits_length in Hd.
    destruct (Str.is_nil d); intros [= <- <-]; lia.
  - by intros [= <- <-].
Qed.

Lemma scan_exp_le s ex rest :
  Json.scan_exp s = (ex, rest) → String.length rest ≤ String.length s.
Proof.
  unfold Json.scan_exp. destruct s as [|e r]; [by intros [= <- <-]|].
  destruct (_ || _); [|by intros [= <- <-]].
  assert (∃ sign r1, (match Json.after "+" r, Json.after "-" r with
                      | Some r', _ => ("+", r')
                      | None, Some r' => ("-", r')
                      | None, None => ("", r)
                      end) = (sign, r1)
                     ∧ String.length r1 ≤ String.length r) as (sign & r1 & -> & Hr1).
  { destruct (Json.after "+" r) as [r'|] eqn:Hp.
    - apply after_length in Hp. eexists _, _. split; [done|lia].
    - destruct (Json.after "-" r) as [r'|] eqn:Hm.
      + apply after_length in Hm. eexists _, _. split; [done|lia].
      + by eexists _, _. }
  destruct (Json.span_digits r1) as [d rest'] eqn:Hd. apply span_digits_length in Hd.
  destruct (Str.is_nil d); intros [= <- <-]; simpl; lia.
Qed.

Lemma scan_int_lt s ds r :
  Json.scan_int s = Some (ds, r) → String.length r < String.length s.
Proof.
  unfold Json.scan_int. destruct s as [|c s]; [done|].
  destruct (Ascii.eqb c "0"%char); [intros [= <- <-]; simpl; lia|].
  destruct (Chr.is_digit c) eqn:Hc; [|done]. intros [= Hd].
  simpl in Hd. rewrite Hc in Hd.
  destruct (Json.span_digits s) as [d' rest'] eqn:Hs. injection Hd as <- <-.
  apply span_digits_length in Hs. simpl. lia.
Qed.

Lemma scan_number_lt neg s v rest :
  Json.scan_number neg s = Json.Ok v rest → String.length rest < String.length s.
Proof.
  unfold Json.scan_number. destruct (Json.scan_int s) as [[ds r]|] eqn:Hi; [|done].
  apply scan_int_lt in Hi.
  destruct (Json.scan_frac r) as [frac r1] eqn:Hf. apply scan_frac_le in Hf.
  destruct (Json.scan_exp r1) as [ex r2] eqn:He. apply scan_exp_le in He.
  destruct (_ && _); intros [= _ <-]; lia.
Qed.

Lemma strip_prefix_length p s r :
  Json.strip_prefix p s = Some r → String.length s = String.length p + String.length r.
Proof.
  revert s. induction p as [|a p IH]; intros s; simpl.
  - by intros [= ->].
  - destruct s as [|b s]; [done|]. destruct (Ascii.eqb a b); [|done].
    intros Hr. simpl. by rewrite (IH s Hr).
Qed.

Lemma scan_constant_lt s v rest :
  Json.scan_constant Json.CONSTANTS s = Some (v, rest) →
  String.length rest < String.length s.
Proof.
  unfold Json.CONSTANTS. cbn [Json.scan_constant].
  repeat (destruct (Json.strip_prefix _ s) as [r|] eqn:Hr;
          [apply strip_prefix_length in Hr; intros [= _ <-]; simpl in Hr; lia|clear Hr]).
  done.
Qed.

Lemma fuel_enough fuel :
  (∀ s, 2 * String.length s + 1 ≤ fuel →
        Json.scan_once fuel s ≠ Json.OutOfFuel
        ∧ ∀ v rest, Json.scan_once fuel s = Json.Ok v rest →
                    String.length rest < String.length s)
  ∧ (∀ s, 2 * String.length s + 2 ≤ fuel →
          Json.parse_items fuel s ≠ Json.OutOfFuel
          ∧ ∀ vs rest, Json.parse_items fuel s = Json.Ok vs rest →
                       String.length rest < String.length s)
  ∧ (∀ s, 2 * String.length s + 2 ≤ fuel →
          Json.parse_members fuel s ≠ Json.OutOfFuel
          ∧ ∀ ms rest, Json.parse_members fuel s = Json.Ok ms rest →
                       String.length rest < String.length s).
Proof.
  induction fuel as [|fuel (IHv & IHi & IHm)].
  { repeat split; intros; lia. }
  split; [|split].
  - intros s Hfuel. destruct s as [|c r]; [done|]. simpl in Hfuel.
    cbn [Json.scan_once].
    pose proof (skip_ws_le r) as Hws.
    destruct (Ascii.eqb c Chr.dquote).
    { destruct (Json.scan_string r) as [[t rest]|] eqn:Hs; [|done].
      apply (scan_string_lt _ _ _ _ (Nat.le_refl _)) in Hs.
      split; [done|]. intros ?? [= _ <-]. simpl. lia. }
    destruct (Ascii.eqb c "{"%char).
    { destruct (Json.after "}" (Json.skip_ws r)) as [rest|] eqn:Ha.
      - apply after_length in Ha. split; [done|]. intros ?? [= _ <-]. simpl. lia.
      - destruct (IHm (Json.skip_ws r)) as [Hne Hlt]; [lia|].
        destruct (Json.parse_members fuel (Json.skip_ws r)) as [ms rest| |] eqn:Hp;
          [|done|done].
        simpl. split; [done|]. intros ?? [= _ <-].
        specialize (Hlt _ _ eq_refl). simpl. lia. }
    destruct (Ascii.eqb c "["%char).
    { destruct (Json.after "]" (Json.skip_ws r)) as [rest|] eqn:Ha.
      - apply after_length in Ha. split; [done|]. intros ?? [= _ <-]. simpl. lia.
      - destruct (IHi (Json.skip_ws r)) as [Hne Hlt]; [lia|].
        destruct (Json.parse_items fuel (Json.skip_ws r)) as [vs rest| |] eqn:Hp;
          [|done|done].
        simpl. split; [done|]. intros ?? [= _ <-].
        specialize (Hlt _ _ eq_refl). simpl. lia. }
    destruct (Json.scan_constant Json.CONSTANTS (String c r)) as [[v rest]|] eqn:Hc.
    { apply scan_constant_lt in Hc. split; [done|]. by intros ?? [= _ <-]. }
    destruct (Ascii.eqb c "-"%char).
    + split; [by destruct r; unfold Json.scan_number; repeat case_match|].
      intros v rest Hn%scan_number_lt. simpl. lia.
    + split; [by unfold Json.scan_number; repeat case_match|].
      by intros v rest Hn%scan_number_lt.
  - intros s Hfuel. cbn [Json.parse_items].
    destruct (IHv s) as [Hne Hlt]; [lia|].
    destruct (Json.scan_once fuel s) as [v rest| |] eqn:Hv; [|done|done].
    specialize (Hlt _ _ eq_refl). simpl.
    pose proof (skip_ws_le rest) as Hws.
    destruct (Json.after "]" (Json.skip_ws rest)) as [rest'|] eqn:Ha.
    { apply after_length in Ha. split; [done|]. intros ?? [= _ <-]. lia. }
    destruct (Json.after "," (Json.skip_ws rest)) as [rest'|] eqn:Hb; [|done].
    apply after_length in Hb. pose proof (skip_ws_le rest') as Hws'.
    destruct (IHi (Json.skip_ws rest')) as [Hne' Hlt']; [lia|].
    destruct (Json.parse_items fuel (Json.skip_ws rest')) as [vs rest''| |] eqn:Hp;
      [|done|done].
    specialize (Hlt' _ _ eq_refl). simpl. split; [done|]. intros ?? [= _ <-]. lia.
  - intros s Hfuel. cbn [Json.parse_members].
    destruct (Json.after Chr.dquote s) as [r|] eqn:Hq; [|done].
    apply after_length in Hq.
    destruct (Json.scan_string r) as [[key rest]|] eqn:Hs; [|done].
    apply (scan_string_lt _ _ _ _ (Nat.le_refl _)) in Hs.
    pose proof (skip_ws_le rest) as Hws.
    destruct (Json.after ":" (Json.skip_ws rest)) as [rest1|] eqn:Hc; [|done].
    apply after_length in Hc. pose proof (skip_ws_le rest1) as Hws1.
    destruct (IHv (Json.skip_ws rest1)) as [Hne Hlt]; [lia|].
    destruct (Json.scan_once fuel (Json.skip_ws rest1)) as [v rest2| |] eqn:Hv;
      [|done|done].
    specialize (Hlt _ _ eq_refl). simpl.
    pose proof (skip_ws_le rest2) as Hws2.
    destruct (Json.after "}" (Json.skip_ws rest2)) as [rest'|] eqn:Ha.
    { apply after_length in Ha. split; [done|]. intros ?? [= _ <-]. lia. }
    destruct (Json.after "," (Json.skip_ws rest2)) as [rest'|] eqn:Hb; [|done].
    apply after_length in Hb. pose proof (skip_ws_le rest') as Hws'.
    destruct (IHm (Json.skip_ws rest')) as [Hne' Hlt']; [lia|].
    destruct (Json.parse_members fuel (Json.skip_ws rest')) as [ms rest''| |] eqn:Hp;
      [|done|done].
    specialize (Hlt' _ _ eq_refl). simpl. split; [done|]. intros ?? [= _ <-]. lia.
Qed.

(** The fuel that [Json.loads] gives the scanner is enough for every text:
    [None] stands for a text that is not JSON, never for a scan cut short. *)
Theorem loads_never_out_of_fuel (text : string) :
  Json.scan_once (Json.fuel_for (Json.skip_ws text)) (Json.skip_ws text)
  ≠ Json.OutOfFuel.
Proof.
  destruct (fuel_enough (Json.fuel_for (Json.skip_ws text))) as [Hv _].
  apply Hv. unfold Json.fuel_for. lia.
Qed.

(** * Further properties of the two scripts *)

(** ** Trimming *)

Lemma lstrip_by_shape p s :
  Str.lstrip_by p s = "" ∨ ∃ c r, Str.lstrip_by p s = String c r ∧ p c = false.
Proof.
  induction s as [|c r IH]; [by left|]. simpl.
  destruct (p c) eqn:Hc; [done|]. right. by exists c, r.
Qed.

Lemma rstrip_by_shape p s :
  Str.rstrip_by p s = ""
  ∨ ∃ d, Str.last (Str.rstrip_by p s) = Some d ∧ p d = false.
Proof.
  induction s as [|c r IH]; [by left|]. simpl.
  destruct (Str.is_nil (Str.rstrip_by p r) && p c) eqn:Hc; [by left|]. right.
  destruct (Str.rstrip_by p r) as [|a r'] eqn:Hr.
  - simpl in Hc. by exists c.
  - destruct IH as [?|(d & Hd & Hp)]; [done|]. exists d. by rewrite last_cons.
Qed.

Lemma rstrip_by_head p c r :
  Str.rstrip_by p (String c r) = ""
  ∨ ∃ r', Str.rstrip_by p (String c r) = String c r'.
Proof.
  simpl. destruct (Str.is_nil (Str.rstrip_by p r) && p c); [by left|].
  right. by eexists.
Qed.

Lemma strip_trimmed s : trimmed (Str.strip s) = true.
Proof.
  unfold Str.strip, Str.strip_by.
  destruct (lstrip_by_shape Chr.is_space s) as [->|(c & r & -> & Hc)]; [done|].
  destruct (rstrip_by_head Chr.is_space c r) as [->|[r' Hr']]; [done|].
  destruct (rstrip_by_shape Chr.is_space (String c r)) as [Hnil|(d & Hd & Hp)].
  { by rewrite Hnil. }
  rewrite Hr' in *. unfold trimmed. by rewrite Hc, Hd, Hp.
Qed.

Lemma last_is_some c r : ∃ d, Str.last (String c r) = Some d.
Proof.
  revert c. induction r as [|a r IH]; intros c; [by exists c|].
  rewrite last_cons. apply IH.
Qed.

Lemma trimmed_strip s : trimmed s = true → Str.strip s = s.
Proof.
  destruct s as [|c r]; [done|]. unfold trimmed.
  intros [Hc%negb_true_iff Hl]%andb_true_iff.
  destruct (last_is_some c r) as [d Hd]. rewrite Hd in Hl.
  apply negb_true_iff in Hl. unfold Str.strip. by apply strip_by_noop with d.
Qed.

Lemma strip_idem s : Str.strip (Str.strip s) = Str.strip s.
Proof. apply trimmed_strip, strip_trimmed. Qed.

(** ** [_clean_str] *)

(** X1. [_clean_str] gives the empty text for an empty value ([None], NaN,
    a blank string); its result never starts or ends with whitespace, and
    cleaning a cleaned text changes nothing. *)
Theorem X1_clean_str_trimmed `{Python} (value : pyval) :
  (if _is_empty value then _clean_str value = ""
   else _clean_str value = Str.strip (py_str value))
  ∧ trimmed (_clean_str value) = true
  ∧ _clean_str (PStr (_clean_str value)) = _clean_str value.
Proof.
  assert (Htrim : trimmed (_clean_str value) = true).
  { unfold _clean_str. destruct (_is_empty value); [done|apply strip_trimmed]. }
  split; [|split; [done|]].
  - unfold _clean_str. by destruct (_is_empty value).
  - rewrite clean_str_text. by apply trimmed_strip.
Qed.

(** ** The decoder and surrounding whitespace *)

(** X2. The decoder works on the trimmed text of a string: whitespace
    around a cell changes neither the items nor the flag. *)
Theorem X2_decode_ignores_outer_whitespace `{Python} (s : string) :
  _parse_json_array (PStr s) = _parse_json_array (PStr (Str.strip s)).
Proof.
  unfold _parse_json_array. rewrite !is_empty_str.
  change (py_str (PStr ?t)) with t. by rewrite !strip_idem.
Qed.

(** ** The column loop, cell by cell *)

Lemma column_step_values `{Python} df st row :
  new_values (column_step df st row) = new_values st ++ [cell_literal row.2].
Proof.
  destruct row as [idx raw]. unfold column_step, cell_literal. simpl.
  destruct (_is_empty raw); [done|].
  by destruct (_parse_json_array raw) as [items []].
Qed.

Lemma column_step_counts `{Python} df st row :
  let s := stats st in
  let s' := stats (column_step df st row) in
  column s' = column s
  ∧ total_rows s' = S (total_rows s)
  ∧ empty_rows s' = empty_rows s + (if _is_empty row.2 then 1 else 0)
  ∧ valid_json_rows s'
    = valid_json_rows s
      + (if negb (_is_empty row.2) && (_parse_json_array row.2).2 then 1 else 0).
Proof.
  destruct row as [idx raw]. unfold column_step. simpl.
  destruct (_is_empty raw); simpl; [repeat split; lia|].
  destruct (_parse_json_array raw) as [items []]; simpl; repeat split; lia.
Qed.

Lemma column_fold_values `{Python} df rows st :
  new_values (fold_left (column_step df) rows st)
  = new_values st ++ List.map (λ row, cell_literal row.2) rows.
Proof.
  revert st. induction rows as [|row rows IH]; intros st; simpl.
  - by rewrite app_nil_r.
  - by rewrite IH, column_step_values, <- app_assoc.
Qed.

Lemma column_fold_counts `{Python} df rows st :
  let s := stats st in
  let s' := stats (fold_left (column_step df) rows st) in
  column s' = column s
  ∧ total_rows s' = total_rows s + length rows
  ∧ empty_rows s'
    = empty_rows s + length (List.filter (λ row, _is_empty row.2) rows)
  ∧ valid_json_rows s'
    = valid_json_rows s
      + length (List.filter
                  (λ row, negb (_is_empty row.2) && (_parse_json_array row.2).2) rows).
Proof.
  revert st. induction rows as [|row rows IH]; intros st; simpl.
  - repeat split; lia.
  - destruct (IH (column_step df st row)) as (Hc & Ht & He & Hv).
    destruct (column_step_counts df st row) as (Hc' & Ht' & He' & Hv').
    simpl in *. rewrite Hc, Ht, He, Hv, Hc', Ht', He', Hv'.
    destruct (_is_empty row.2); simpl;
      [|destruct ((_parse_json_array row.2).2)]; simpl; repeat split; lia.
Qed.

Lemma enumerate_values {A} (l : list A) : List.map snd (enumerate l) = l.
Proof.
  unfold enumerate. change (List.map snd ?x) with (x.*2).
  apply snd_zip. by rewrite length_seq.
Qed.

Lemma filter_enumerate_length {A} (p : A → bool) (l : list A) :
  length (List.filter (λ row : nat * A, p row.2) (enumerate l))
  = length (List.filter p l).
Proof.
  unfold enumerate. generalize 0. induction l as [|x l IH]; intros n; [done|].
  simpl. destruct (p x); simpl; by rewrite IH.
Qed.

Lemma column_loop_values `{Python} (df : frame) col :
  new_values (column_loop df col)
  = List.map cell_literal (default [] (df !! col)).
Proof.
  unfold column_loop. rewrite column_fold_values. simpl.
  rewrite <- (enumerate_values (default [] (df !! col))) at 2.
  by rewrite List.map_map.
Qed.

(** X3. The loop over an array column writes one cell for each source
    cell, in order: the empty literal for an empty cell, and otherwise the
    literal of the decoded items, so an unparseable cell becomes the
    literal of its one trimmed text. *)
Theorem X3_column_cells `{Python} (df : frame) (col : string) :
  let values := default [] (df !! col) in
  let cells := new_values (column_loop df col) in
  cells
  = List.map (λ raw, if _is_empty raw then "{}"
                     else _pg_array_literal (_parse_json_array raw).1) values
  ∧ length cells = length values
  ∧ (∀ i raw,
       values !! i = Some raw → _is_empty raw = false →
       (_parse_json_array raw).2 = false →
       cells !! i = Some (_pg_array_literal [Str.strip (py_str raw)])).
Proof.
  intros values cells.
  assert (Hcells : cells = List.map cell_literal values) by apply column_loop_values.
  split; [exact Hcells|]. split.
  - by rewrite Hcells, length_map.
  - intros i raw Hi Hne Hinv. rewrite Hcells.
    change (List.map cell_literal values) with (cell_literal <$> values).
    rewrite list_lookup_fmap, Hi. simpl. unfold cell_literal. rewrite Hne.
    destruct (_parse_json_array raw) as [items valid] eqn:Hp. simpl in Hinv. subst valid.
    by destruct (parse_invalid raw items Hne Hp) as [-> _].
Qed.

(** A column of three cells: a JSON array, an empty cell and a cell that
    is not JSON. *)
Lemma X3_column_cells_witness :
  new_values
    (column_loop (H := plain_python)
       {[ "tips" := [PStr ("[" +:+ dq +:+ "Go slow" +:+ dq +:+ "]"); PFloat FNaN;
                     PStr " keep back straight "] ]} "tips") !! 2
  = Some (_pg_array_literal
            [Str.strip (py_str (H := plain_python) (PStr " keep back straight "))]).
Proof.
  apply (X3_column_cells (H := plain_python)
           {[ "tips" := [PStr ("[" +:+ dq +:+ "Go slow" +:+ dq +:+ "]"); PFloat FNaN;
                         PStr " keep back straight "] ]} "tips");
    reflexivity.
Defined.

Lemma rows_partition `{Python} (rows : list (nat * pyval)) :
  length (List.filter (λ row, _is_empty row.2) rows)
  + length (List.filter
              (λ row, negb (_is_empty row.2) && (_parse_json_array row.2).2) rows)
  + length (List.filter unparseable rows)
  = length rows.
Proof.
  induction rows as [|row l IH]; [done|]. unfold unparseable in *. simpl.
  destruct (_is_empty row.2); simpl; [lia|].
  destruct ((_parse_json_array row.2).2); simpl; lia.
Qed.

(** X4. The statistics of an array column count every row once: the total
    is the number of rows, and the empty, valid and invalid counts are the
    numbers of rows whose cell is empty, cleanly parsed, and not cleanly
    parsed, which add up to the total. *)
Theorem X4_column_statistics `{Python} (df : frame) (col : string) :
  let values := default [] (df !! col) in
  let s := stats (column_loop df col) in
  column s = col
  ∧ total_rows s = length values
  ∧ empty_rows s = length (List.filter _is_empty values)
  ∧ valid_json_rows s
    = length (List.filter
                (λ raw, negb (_is_empty raw) && (_parse_json_array raw).2) values)
  ∧ empty_rows s + valid_json_rows s + invalid_json_rows s = total_rows s.
Proof.
  intros values s. subst s values. unfold column_loop.
  set (rows := enumerate (default [] (df !! col))).
  set (st := {| stats := new_stats col; invalid_examples := []; new_values := [] |}).
  destruct (column_fold_counts df rows st) as (Hc & Ht & He & Hv).
  destruct (column_fold df rows st [] eq_refl) as [Hi _].
  simpl in Hc, Ht, He, Hv, Hi.
  pose proof (rows_partition rows) as Hpart.
  assert (Hlen : length rows = length (default [] (df !! col))).
  { unfold rows. by rewrite <- (enumerate_values (default [] (df !! col))) at 2;
      rewrite length_map. }
  split; [done|]. split; [lia|]. split; [|split; [|lia]].
  - rewrite He. unfold rows. apply filter_enumerate_length.
  - rewrite Hv. unfold rows.
    apply (filter_enumerate_length
             (λ raw, negb (_is_empty raw) && (_parse_json_array raw).2)).
Qed.

(** ** The cleaned table, column by column *)

Lemma fold_insert_lookup (g : string → list pyval) cols (df : frame) k :
  fold_left (λ acc col, <[col := g col]> acc) cols df !! k
  = if decide (k ∈ cols) then Some (g k) else df !! k.
Proof.
  revert df. induction cols as [|c cols IH]; intros df; cbn [fold_left].
  - case_decide as Hin; [by apply elem_of_nil in Hin|done].
  - rewrite IH. destruct (decide (k ∈ cols)) as [Hin|Hin].
    + rewrite decide_True; [done|]. by apply elem_of_cons; right.
    + destruct (decide (k = c)) as [->|Hne].
      * rewrite decide_True by (apply elem_of_cons; by left).
        by rewrite lookup_insert_eq.
      * rewrite decide_False by (intros [?|?]%elem_of_cons; done).
        by rewrite lookup_insert_ne.
Qed.

Lemma fold_on_column_lookup f cols (df : frame) k :
  NoDup cols →
  fold_left (on_column f) cols df !! k
  = if decide (k ∈ cols) then f <$> df !! k else df !! k.
Proof.
  revert df. induction cols as [|c cols IH]; intros df Hnd; cbn [fold_left].
  - case_decide as Hin; [by apply elem_of_nil in Hin|done].
  - apply NoDup_cons in Hnd as [Hc Hnd]. rewrite IH by done.
    rewrite on_column_lookup.
    destruct (decide (k ∈ cols)) as [Hin|Hin].
    + rewrite (decide_True (P := k ∈ c :: cols)) by (apply elem_of_cons; by right).
      rewrite decide_False; [done|]. by intros ->.
    + destruct (decide (c = k)) as [->|Hne].
      * by rewrite decide_True by (apply elem_of_cons; by left).
      * by rewrite decide_False by (intros [?|?]%elem_of_cons; done).
Qed.

Lemma in_array_columns_of (df : frame) k :
  k ∈ array_columns_of df ↔ k ∈ ARRAY_COLUMNS ∧ is_Some (df !! k).
Proof.
  unfold array_columns_of, has_column.
  rewrite list_elem_of_In, filter_In, <- list_elem_of_In, bool_decide_eq_true. done.
Qed.

Lemma in_scalar_nullable k :
  k ∈ List.filter (λ c, negb (bool_decide (c ∈ ARRAY_COLUMNS))) NULLABLE_COLUMNS
  ↔ k ∈ NULLABLE_COLUMNS ∧ k ∉ ARRAY_COLUMNS.
Proof.
  rewrite list_elem_of_In, filter_In, <- list_elem_of_In, negb_true_iff,
    bool_decide_eq_false. done.
Qed.

Ltac literal_cases H :=
  repeat (apply elem_of_cons in H as [->|H]); [..|by apply elem_of_nil in H].

Lemma clean_frame_lookup `{Python} (df : frame) k :
  clean_frame df !! k = cleaned_column df k.
Proof.
  unfold clean_frame, cleaned_column.
  rewrite fold_on_column_lookup by compute_done.
  rewrite fold_on_column_lookup by compute_done.
  rewrite fold_insert_lookup, on_column_lookup.
  destruct (decide (k = "name")) as [->|Hname].
  { rewrite decide_False by compute_done.
    rewrite decide_False by compute_done.
    assert ("name" ∉ ARRAY_COLUMNS) by compute_done.
    rewrite decide_False by (rewrite in_array_columns_of; tauto).
    by rewrite decide_True. }
  rewrite (decide_False (P := "name" = k)) by done.
  destruct (decide (k ∈ ARRAY_COLUMNS)) as [Harr|Harr].
  { rewrite decide_False by (rewrite in_scalar_nullable; tauto).
    rewrite decide_False
      by (unfold ARRAY_COLUMNS in Harr; literal_cases Harr; compute_done).
    destruct (df !! k) as [values|] eqn:Hk.
    - rewrite decide_True by (rewrite in_array_columns_of; eauto).
      simpl. rewrite column_loop_values, Hk. simpl. by rewrite List.map_map.
    - rewrite decide_False by (rewrite in_array_columns_of, Hk; by intros [_ []]).
      done. }
  rewrite (decide_False (P := k ∈ array_columns_of df))
    by (rewrite in_array_columns_of; tauto).
  destruct (decide (k ∈ BOOL_COLUMNS)) as [Hbool|Hbool].
  { rewrite decide_False
      by (unfold BOOL_COLUMNS in Hbool; literal_cases Hbool; compute_done).
    destruct (df !! k); simpl; [|done]. by rewrite coerce_bool_column_spec. }
  destruct (decide (k ∈ NULLABLE_COLUMNS)) as [Hnull|Hnull].
  - rewrite decide_True by (rewrite in_scalar_nullable; tauto). done.
  - rewrite decide_False by (rewrite in_scalar_nullable; tauto). done.
Qed.

Lemma cleaned_column_length `{Python} (df : frame) k :
  length <$> cleaned_column df k = length <$> df !! k.
Proof.
  unfold cleaned_column.
  repeat case_decide; destruct (df !! k); simpl; by rewrite ?length_map.
Qed.


(** X6. The name column keeps its row count, and the cleaned name of every
    row whose name is not missing is the trimmed text of that name, so it
    does not start or end with whitespace.  Nothing is said of a missing
    name: what [astype(str)] makes of it differs between versions of
    pandas. *)
Theorem X6_cleaned_names `{Python} (df : frame) (names cleaned : list pyval) :
  df !! "name" = Some names →
  clean_frame df !! "name" = Some cleaned →
  length cleaned = length names
  ∧ ∀ i v,
      names !! i = Some v → isna v = false →
      cleaned !! i = Some (PStr (Str.strip (py_str v)))
      ∧ trimmed (Str.strip (py_str v)) = true.
Proof.
  intros Hnames. rewrite clean_frame_lookup. unfold cleaned_column.
  rewrite decide_True, Hnames by done. simpl. intros [= <-].
  split; [by rewrite length_map|].
  intros i v Hi _. split; [|apply strip_trimmed].
  change (List.map ?f names) with (f <$> names).
  by rewrite list_lookup_fmap, Hi.
Qed.

(** A name column with a padded name and a number. *)
Lemma X6_cleaned_names_witness :
  length [PStr "Push Up"; PStr "7"] = length [PStr "  Push Up "; PInt 7]
  ∧ ∀ i v,
      [PStr "  Push Up "; PInt 7] !! i = Some v → isna v = false →
      [PStr "Push Up"; PStr "7"] !! i
      = Some (PStr (Str.strip (py_str (H := plain_python) v)))
      ∧ trimmed (Str.strip (py_str (H := plain_python) v)) = true.
Proof.
  apply (X6_cleaned_names (H := plain_python)
           {[ "name" := [PStr "  Push Up "; PInt 7] ]}); reflexivity.
Defined.

(** ** The encoder loses nothing *)

Lemma unquote_escape s rest : unquote (escape s +:+ dq +:+ rest) = Some (s, rest).
Proof.
  induction s as [|c r IH]; [done|].
  cbn [escape]. unfold escape_char.
  destruct (Ascii.eqb c Chr.backslash) eqn:Hb.
  { apply Ascii.eqb_eq in Hb as ->. rewrite sapp_assoc.
    change ("\\" +:+ ?t) with (String Chr.backslash (String Chr.backslash t)).
    cbn [unquote].
    change (Ascii.eqb Chr.backslash Chr.dquote) with false.
    change (Ascii.eqb Chr.backslash Chr.backslash) with true.
    cbv iota. by rewrite IH. }
  destruct (Ascii.eqb c Chr.dquote) eqn:Hq.
  { apply Ascii.eqb_eq in Hq as ->. rewrite sapp_assoc.
    change (("\" +:+ dq) +:+ ?t) with (String Chr.backslash (String Chr.dquote t)).
    cbn [unquote].
    change (Ascii.eqb Chr.backslash Chr.dquote) with false.
    change (Ascii.eqb Chr.backslash Chr.backslash) with true.
    cbv iota. by rewrite IH. }
  rewrite sapp_assoc. change (String c "" +:+ ?t) with (String c t).
  cbn [unquote]. by rewrite Hq, Hb, IH.
Qed.

Lemma quote_item_inj x y r1 r2 :
  quote_item x +:+ r1 = quote_item y +:+ r2 → x = y ∧ r1 = r2.
Proof.
  rewrite !quote_item_escape, !sapp_assoc.
  change (dq +:+ ?t) with (String Chr.dquote t). intros [= Heq].
  pose proof (unquote_escape x r1) as Hx. rewrite Heq, unquote_escape in Hx.
  by injection Hx as -> ->.
Qed.

Lemma join_quoted_cons x xs :
  Str.join "," (List.map quote_item (x :: xs)) +:+ "}"
  = quote_item x +:+ match xs with
                     | [] => "}"
                     | _ :: _ => "," +:+ Str.join "," (List.map quote_item xs) +:+ "}"
                     end.
Proof. destruct xs as [|y ys]; [done|]. cbn [List.map Str.join]. by rewrite !sapp_assoc. Qed.

Lemma join_quoted_inj l1 l2 :
  l1 ≠ [] → l2 ≠ [] →
  Str.join "," (List.map quote_item l1) +:+ "}"
  = Str.join "," (List.map quote_item l2) +:+ "}" →
  l1 = l2.
Proof.
  revert l2. induction l1 as [|x xs IH]; intros [|y ys] H1 H2; try done.
  rewrite !join_quoted_cons. intros [-> Hrest]%quote_item_inj.
  destruct xs as [|x' xs], ys as [|y' ys]; try done.
  f_equal. apply IH; [done|done|].
  by apply (inj (String.app ",")) in Hrest.
Qed.

(** X7. The encoder is injective: two sequences of strings with the same
    array literal are the same sequence, so a literal determines the items
    it was made from. *)
Theorem X7_encode_injective (items1 items2 : list string) :
  _pg_array_literal items1 = _pg_array_literal items2 → items1 = items2.
Proof.
  unfold _pg_array_literal.
  intros Heq%(inj (String.app "{")).
  destruct items1 as [|x xs], items2 as [|y ys]; [done| | |].
  - rewrite join_quoted_cons, quote_item_escape in Heq. done.
  - rewrite join_quoted_cons, quote_item_escape in Heq. done.
  - by apply join_quoted_inj.
Qed.

(** Two items with a quote, a backslash and a comma. *)
Lemma X7_encode_injective_witness :
  ["a\" +:+ dq; "b,c"] = ["a\" +:+ dq; "b,c"].
Proof. apply X7_encode_injective. reflexivity. Defined.

(** ** The decoder on a JSON array of strings *)

Lemma scan_string_safe s rest :
  json_safe s = true →
  Json.scan_string (s +:+ String Chr.dquote rest) = Some (s, rest).
Proof.
  unfold json_safe. induction s as [|c r IH]; [done|]. simpl.
  intros [Hc Hr]%andb_true_iff. unfold json_safe_char in Hc.
  apply andb_true_iff in Hc as [[Hctl%negb_true_iff Hq%negb_true_iff]%andb_true_iff
                                  Hb%negb_true_iff].
  by rewrite Hq, Hb, Hctl, (IH Hr).
Qed.

Lemma skip_ws_pad pad rest :
  Str.forallb Json.is_ws pad = true →
  Json.skip_ws (pad +:+ String Chr.dquote rest) = String Chr.dquote rest.
Proof.
  induction pad as [|c r IH]; [done|]. simpl.
  intros [Hc Hr]%andb_true_iff. by rewrite Hc, (IH Hr).
Qed.

(** The quoted items joined, and what follows the first of them. *)
Lemma join_json_cons pad x xs tail :
  Str.join ("," +:+ pad) (List.map (λ s, dq +:+ s +:+ dq) (x :: xs)) +:+ tail
  = String Chr.dquote
      (x +:+ String Chr.dquote
         match xs with
         | [] => tail
         | _ :: _ =>
             String ","%char
               (pad +:+ Str.join ("," +:+ pad) (List.map (λ s, dq +:+ s +:+ dq) xs)
                +:+ tail)
         end).
Proof.
  destruct xs as [|y ys]; cbn [List.map Str.join].
  - by rewrite !sapp_assoc.
  - repeat rewrite sapp_assoc. reflexivity.
Qed.

Lemma parse_items_step fuel s :
  Json.parse_items (S fuel) s
  = Json.bind (Json.scan_once fuel s) (λ v rest,
      match Json.after "]"%char (Json.skip_ws rest) with
      | Some rest' => Json.Ok [v] rest'
      | None =>
          match Json.after ","%char (Json.skip_ws rest) with
          | Some rest' =>
              Json.bind (Json.parse_items fuel (Json.skip_ws rest'))
                (λ vs rest'', Json.Ok (v :: vs) rest'')
          | None => Json.Err
          end
      end).
Proof. reflexivity. Qed.

Lemma scan_once_string fuel r :
  Json.scan_once (S fuel) (String Chr.dquote r)
  = match Json.scan_string r with
    | Some (t, rest) => Json.Ok (PStr t) rest
    | None => Json.Err
    end.
Proof. reflexivity. Qed.

Lemma parse_items_strings pad items rest fuel :
  Str.forallb Json.is_ws pad = true →
  Forall (λ s, json_safe s = true) items → items ≠ [] →
  length items < fuel →
  Json.parse_items fuel
    (Str.join ("," +:+ pad) (List.map (λ s, dq +:+ s +:+ dq) items)
     +:+ String "]"%char rest)
  = Json.Ok (List.map PStr items) rest.
Proof.
  intros Hpad. revert fuel. induction items as [|x xs IH]; intros fuel Hsafe Hne Hfuel;
    [done|].
  apply Forall_cons in Hsafe as [Hx Hxs].
  destruct fuel as [|[|fuel]]; [simpl in Hfuel; lia..|].
  rewrite join_json_cons, parse_items_step, scan_once_string.
  rewrite scan_string_safe by done. cbn [Json.bind].
  destruct xs as [|y ys].
  - reflexivity.
  - change (Json.skip_ws (String "," ?t)) with (String ","%char t).
    cbn [Json.after]. change (Ascii.eqb "," "]") with false.
    change (Ascii.eqb "," ",") with true. cbv iota.
    rewrite (join_json_cons pad y ys), skip_ws_pad by done.
    rewrite <- (join_json_cons pad y ys).
    rewrite (IH (S fuel)); [done|done|done|simpl in *; lia].
Qed.

Lemma join_json_length pad items :
  2 * length items
  ≤ String.length (Str.join ("," +:+ pad) (List.map (λ s, dq +:+ s +:+ dq) items)).
Proof.
  induction items as [|x [|y ys] IH]; [done| |].
  - simpl. rewrite !slength_app. simpl. lia.
  - change (Str.join ?sep (List.map ?f (x :: y :: ys)))
      with (f x +:+ sep +:+ Str.join sep (List.map f (y :: ys))).
    rewrite !slength_app. simpl in *. lia.
Qed.

Lemma loads_json_array pad items :
  Str.forallb Json.is_ws pad = true →
  Forall (λ s, json_safe s = true) items →
  Json.loads (json_array_text pad items) = Some (PList (List.map PStr items)).
Proof.
  intros Hpad Hsafe. destruct items as [|x xs]; [done|].
  unfold Json.loads, json_array_text.
  set (body := Str.join _ _).
  change ("[" +:+ body +:+ "]") with (String "["%char (body +:+ "]")).
  change (Json.skip_ws (String "[" ?t)) with (String "["%char t).
  unfold Json.fuel_for.
  pose proof (join_json_length pad (x :: xs)) as Hlen. fold body in Hlen.
  change (String.length (String "[" (body +:+ "]")))
    with (S (String.length (body +:+ "]"))).
  rewrite slength_app.
  destruct (2 * S (String.length body + String.length "]") + 2) as [|fuel] eqn:Hf;
    [lia|].
  cbn [Json.scan_once]. change (Ascii.eqb "[" Chr.dquote) with false.
  change (Ascii.eqb "[" "{") with false. change (Ascii.eqb "[" "[") with true.
  cbv iota.
  assert (Hbody : body +:+ "]"
                  = String Chr.dquote (Str.tail (body +:+ "]"))).
  { unfold body. by rewrite join_json_cons. }
  rewrite Hbody. change (Json.skip_ws (String Chr.dquote ?t)) with (String Chr.dquote t).
  cbn [Json.after]. change (Ascii.eqb Chr.dquote "]") with false. cbv iota.
  rewrite <- Hbody. unfold body.
  rewrite parse_items_strings; [done|done|done|done|].
  simpl in *. lia.
Qed.

(** X8. A cell that holds the JSON array of strings without control
    characters, double quotes or backslashes, none of them blank, written
    with or without whitespace after the commas, is decoded to exactly
    those strings, cleanly parsed; so the cell is rewritten as the same
    quoted strings joined by commas between braces. *)
Theorem X8_decode_json_array `{Python} (pad : string) (items : list string) :
  Str.forallb Json.is_ws pad = true →
  Forall (λ s, json_safe s = true ∧ blank s = false) items →
  _parse_json_array (PStr (json_array_text pad items)) = (items, true)
  ∧ _pg_array_literal (_parse_json_array (PStr (json_array_text pad items))).1
    = "{" +:+ Str.join "," (List.map (λ s, dq +:+ s +:+ dq) items) +:+ "}".
Proof.
  intros Hpad Hitems.
  assert (Hsafe : Forall (λ s, json_safe s = true) items)
    by (eapply Forall_impl; [exact Hitems|]; by intros s [? _]).
  assert (Hdec : _parse_json_array (PStr (json_array_text pad items)) = (items, true)).
  { unfold _parse_json_array. rewrite is_empty_str.
    change (py_str (PStr ?t)) with t.
    assert (Hstrip : Str.strip (json_array_text pad items) = json_array_text pad items).
    { unfold json_array_text, Str.strip.
      change ("[" +:+ ?b +:+ "]") with (String "["%char (b +:+ "]")).
      apply strip_by_noop with "]"%char; [done| |done].
      rewrite <- sapp_cons. apply last_app_cons. }
    rewrite Hstrip.
    assert (Str.eqb (json_array_text pad items) "" = false) as -> by by apply eqb_false.
    rewrite loads_json_array by done. f_equal.
    rewrite List.map_map. simpl. rewrite List.map_id.
    clear Hsafe Hstrip. induction Hitems as [|s l [_ Hs] _ IH]; [done|].
    simpl. unfold blank in Hs. rewrite Hs. simpl. by f_equal. }
  split; [exact Hdec|]. rewrite Hdec. simpl. unfold _pg_array_literal.
  do 3 f_equal. apply List.map_ext_in. intros s Hin.
  rewrite quote_item_escape. do 2 f_equal.
  rewrite Forall_forall in Hsafe.
  specialize (Hsafe s (proj2 (list_elem_of_In _ _) Hin)).
  clear -Hsafe. unfold json_safe in Hsafe.
  induction s as [|c r IH]; [done|]. simpl in *.
  apply andb_true_iff in Hsafe as [Hc Hr]. rewrite (IH Hr).
  unfold json_safe_char in Hc.
  apply andb_true_iff in Hc as [[_ Hq%negb_true_iff]%andb_true_iff Hb%negb_true_iff].
  unfold escape_char. by rewrite Hb, Hq.
Qed.

(** The array of two muscle groups, with a space after the comma. *)
Lemma X8_decode_json_array_witness :
  _parse_json_array (H := plain_python)
    (PStr (json_array_text " " ["Chest"; "Triceps Brachii"]))
  = (["Chest"; "Triceps Brachii"], true)
  ∧ _pg_array_literal
      (_parse_json_array (H := plain_python)
         (PStr (json_array_text " " ["Chest"; "Triceps Brachii"]))).1
    = "{" +:+ Str.join "," (List.map (λ s, dq +:+ s +:+ dq) ["Chest"; "Triceps Brachii"])
      +:+ "}".
Proof.
  apply (X8_decode_json_array (H := plain_python) " " ["Chest"; "Triceps Brachii"]).
  - reflexivity.
  - repeat constructor.
Defined.

(** ** Case folding and trimming *)

Lemma fold_code c :
  Chr.code (Chr.fold c)
  = if Chr.is_upper c then (Chr.code c + 32)%N else Chr.code c.
Proof.
  unfold Chr.fold. destruct (Chr.is_upper c) eqn:Hu; [|done].
  unfold Chr.is_upper in Hu. apply andb_true_iff in Hu as [_ Hu%N.leb_le].
  unfold Chr.code in *. apply N_ascii_embedding. lia.
Qed.

Lemma fold_idem c : Chr.fold (Chr.fold c) = Chr.fold c.
Proof.
  unfold Chr.fold at 1.
  assert (Chr.is_upper (Chr.fold c) = false) as ->; [|done].
  unfold Chr.is_upper at 1. rewrite fold_code.
  destruct (Chr.is_upper c) eqn:Hu.
  - unfold Chr.is_upper in Hu. apply andb_true_iff in Hu as [H1%N.leb_le H2%N.leb_le].
    apply andb_false_iff. right. apply N.leb_gt. lia.
  - exact Hu.
Qed.

Lemma fold_space c : Chr.is_space (Chr.fold c) = Chr.is_space c.
Proof.
  unfold Chr.is_space. rewrite fold_code.
  destruct (Chr.is_upper c) eqn:Hu; [|done].
  unfold Chr.is_upper in Hu. apply andb_true_iff in Hu as [H1%N.leb_le H2%N.leb_le].
  generalize dependent (Chr.code c). intros n H1 H2.
  assert ((n + 32 <=? 13) = false)%N as -> by (apply N.leb_gt; lia).
  assert ((n + 32 <=? 32) = false)%N as -> by (apply N.leb_gt; lia).
  assert ((n <=? 13) = false)%N as -> by (apply N.leb_gt; lia).
  assert ((n <=? 32) = false)%N as -> by (apply N.leb_gt; lia).
  by rewrite !andb_false_r.
Qed.

Lemma casefold_idem s : Str.casefold (Str.casefold s) = Str.casefold s.
Proof.
  unfold Str.casefold. induction s as [|c r IH]; [done|]. simpl.
  by rewrite fold_idem, IH.
Qed.

Lemma casefold_app a b : Str.casefold (a +:+ b) = Str.casefold a +:+ Str.casefold b.
Proof.
  unfold Str.casefold. induction a as [|c r IH]; [done|].
  rewrite sapp_cons. simpl. by rewrite IH.
Qed.

Lemma lstrip_casefold s :
  Str.lstrip_by Chr.is_space (Str.casefold s)
  = Str.casefold (Str.lstrip_by Chr.is_space s).
Proof.
  unfold Str.casefold. induction s as [|c r IH]; [done|]. simpl.
  rewrite fold_space. by destruct (Chr.is_space c).
Qed.

Lemma rstrip_casefold s :
  Str.rstrip_by Chr.is_space (Str.casefold s)
  = Str.casefold (Str.rstrip_by Chr.is_space s).
Proof.
  unfold Str.casefold. induction s as [|c r IH]; [done|]. simpl.
  rewrite IH, fold_space.
  assert (Str.is_nil (Str.map Chr.fold (Str.rstrip_by Chr.is_space r))
          = Str.is_nil (Str.rstrip_by Chr.is_space r)) as ->.
  { by destruct (Str.rstrip_by Chr.is_space r). }
  by destruct (Str.is_nil _ && Chr.is_space c).
Qed.

Lemma strip_casefold s : Str.strip (Str.casefold s) = Str.casefold (Str.strip s).
Proof. unfold Str.strip, Str.strip_by. by rewrite lstrip_casefold, rstrip_casefold. Qed.

(** The text that the two mappers compare: trimmed and case-folded. *)
Lemma folded_key s :
  Str.casefold (Str.strip (Str.casefold s)) = Str.casefold (Str.strip s)
  ∧ Str.casefold (Str.strip (Str.strip s)) = Str.casefold (Str.strip s).
Proof. by rewrite strip_casefold, casefold_idem, strip_idem. Qed.

(** ** The difficulty mapper *)

(** X9. The difficulty mapper returns one of beginner, intermediate,
    advanced and the empty text, and it sees neither the case of the
    letters of the level nor the whitespace around it. *)
Theorem X9_difficulty_insensitive `{Python} (level : string) :
  _map_difficulty level ∈ DIFFICULTIES
  ∧ _map_difficulty (Str.casefold level) = _map_difficulty level
  ∧ _map_difficulty (Str.strip level) = _map_difficulty level
  ∧ _map_difficulty level = _map_difficulty (Str.casefold (Str.strip level)).
Proof.
  destruct (folded_key level) as [Hfold Hstrip].
  split; [|split; [|split]].
  - unfold _map_difficulty, DIFFICULTIES.
    repeat (match goal with |- context [if ?b then _ else _] => destruct b end);
      compute_done.
  - unfold _map_difficulty. by rewrite !clean_str_text, Hfold.
  - unfold _map_difficulty. by rewrite !clean_str_text, Hstrip.
  - unfold _map_difficulty.
    by rewrite !clean_str_text, strip_casefold, strip_idem, casefold_idem.
Qed.

(** ** The category mapper and letter case *)

Lemma casefold_hint p t :
  Str.casefold (Str.strip (Str.casefold p) +:+ " " +:+ Str.strip (Str.casefold t))
  = Str.casefold (Str.strip p +:+ " " +:+ Str.strip t).
Proof. by rewrite !casefold_app, !strip_casefold, !casefold_idem. Qed.

(** X10. The category mapper sees neither the case of the letters of its
    three fields nor the whitespace around each of them. *)
Theorem X10_category_insensitive `{Python} (body_region prime_mover target_group : string) :
  _map_category (Str.casefold body_region) (Str.casefold prime_mover)
    (Str.casefold target_group)
  = _map_category body_region prime_mover target_group
  ∧ _map_category (Str.strip body_region) (Str.strip prime_mover)
      (Str.strip target_group)
    = _map_category body_region prime_mover target_group.
Proof.
  destruct (folded_key body_region) as [Hfold Hstrip].
  split; unfold _map_category; rewrite !clean_str_text.
  - by rewrite Hfold, casefold_hint.
  - by rewrite Hstrip, !strip_idem.
Qed.

(** ** [_dedupe_case_insensitive] *)

Lemma dedupe_step_spec `{Python} (seen : gset string) out item :
  dedupe_step (seen, out) item
  = if bool_decide (Str.strip item = "" ∨ Str.casefold (Str.strip item) ∈ seen)
    then (seen, out)
    else ({[Str.casefold (Str.strip item)]} ∪ seen, out ++ [Str.strip item]).
Proof.
  unfold dedupe_step. rewrite clean_str_text.
  destruct (Str.is_nil (Str.strip item)) eqn:Hnil.
  - apply is_nil_true in Hnil. rewrite bool_decide_eq_true_2; [done|by left].
  - apply is_nil_false in Hnil. repeat case_bool_decide; try done; tauto.
Qed.

(** The loop from any state: the entries it adds, [new], are picked in
    order from the trimmed items, none is empty, their folded keys are
    new and pairwise different, and the key of every non-blank item ends
    up among the keys seen. *)
Lemma dedupe_fold `{Python} items (seen : gset string) out :
  ∃ new,
    fold_left dedupe_step items (seen, out)
    = (list_to_set (Str.casefold <$> new) ∪ seen, out ++ new)
    ∧ sublist new (Str.strip <$> items)
    ∧ Forall (λ s, s ≠ "" ∧ Str.casefold s ∉ seen) new
    ∧ NoDup (Str.casefold <$> new)
    ∧ (∀ item, item ∈ items → Str.strip item ≠ "" →
         Str.casefold (Str.strip item) ∈ seen
         ∨ Str.casefold (Str.strip item) ∈ Str.casefold <$> new).
Proof.
  revert seen out. induction items as [|item items IH]; intros seen out.
  - exists []. simpl. rewrite (left_id_L ∅ (∪)), app_nil_r.
    split; [done|]. split; [constructor|]. split; [constructor|].
    split; [constructor|]. by intros x Hin%elem_of_nil.
  - cbn [fold_left]. rewrite dedupe_step_spec. case_bool_decide as Hskip.
    + destruct (IH seen out) as (new & Hrun & Hsub & Hall & Hnd & Hcov).
      exists new. split; [done|]. split; [by apply sublist_cons|].
      split; [done|]. split; [done|].
      intros x [->|Hin]%elem_of_cons Hx; [|by apply Hcov].
      destruct Hskip as [?|?]; [done|by left].
    + destruct (IH ({[Str.casefold (Str.strip item)]} ∪ seen) (out ++ [Str.strip item]))
        as (new & Hrun & Hsub & Hall & Hnd & Hcov).
      exists (Str.strip item :: new). rewrite Hrun, <-app_assoc. simpl.
      split; [f_equal; by rewrite (assoc_L (∪)), (comm_L (∪) _ {[_]})|].
      split; [by apply sublist_skip|]. split; [|split].
      * constructor; [tauto|]. eapply Forall_impl; [exact Hall|].
        intros s [Hs Hk]. split; [done|]. intros Hin. apply Hk, elem_of_union. by right.
      * constructor; [|done]. intros [s [Hs Hin]]%list_elem_of_fmap.
        rewrite Forall_forall in Hall. destruct (Hall s Hin) as [_ Hk].
        apply Hk, elem_of_union. left. by apply elem_of_singleton.
      * intros x [->|Hin]%elem_of_cons Hx.
        { right. apply elem_of_cons. by left. }
        destruct (Hcov x Hin Hx) as [[Hk%elem_of_singleton|Hk]%elem_of_union|Hk].
        -- right. rewrite Hk. apply elem_of_cons. by left.
        -- by left.
        -- right. apply elem_of_cons. by right.
Qed.

(** A list of trimmed, non-empty entries with pairwise different, unseen
    keys goes through the loop unchanged. *)
Lemma dedupe_fold_fixed `{Python} l (seen : gset string) out :
  Forall (λ s, s ≠ "" ∧ Str.strip s = s ∧ Str.casefold s ∉ seen) l →
  NoDup (Str.casefold <$> l) →
  (fold_left dedupe_step l (seen, out)).2 = out ++ l.
Proof.
  revert seen out. induction l as [|s l IH]; intros seen out Hall Hnd.
  - simpl. by rewrite app_nil_r.
  - apply Forall_cons in Hall as [(Hs & Hst & Hk) Hall].
    rewrite fmap_cons in Hnd. apply NoDup_cons in Hnd as [Hfirst Hnd].
    cbn [fold_left]. rewrite dedupe_step_spec, Hst.
    rewrite bool_decide_eq_false_2 by tauto.
    rewrite IH, <-app_assoc; [done| |done].
    rewrite Forall_forall in Hall. apply Forall_forall. intros x Hx.
    destruct (Hall x Hx) as (Hx1 & Hx2 & Hx3). split; [done|]. split; [done|].
    intros [Heq%elem_of_singleton|Hin]%elem_of_union; [|done].
    apply Hfirst. rewrite <-Heq. apply list_elem_of_fmap. by exists x.
Qed.

(** X11. The result of [_dedupe_case_insensitive] is picked, in order, from
    the trimmed items; no entry is empty or has whitespace at an end; no
    two entries are equal up to the case of their letters; every item that
    is not blank is represented by an entry equal to it up to case; and
    the function changes nothing when it is applied to its own result. *)
Theorem X11_dedupe `{Python} (items : list string) :
  let out := _dedupe_case_insensitive items in
  sublist out (Str.strip <$> items)
  ∧ Forall (λ s, s ≠ "" ∧ trimmed s = true) out
  ∧ NoDup (Str.casefold <$> out)
  ∧ (∀ item, item ∈ items → Str.strip item ≠ "" →
       ∃ s, s ∈ out ∧ Str.casefold s = Str.casefold (Str.strip item))
  ∧ length out ≤ length items
  ∧ _dedupe_case_insensitive out = out.
Proof.
  intros out.
  destruct (dedupe_fold items ∅ []) as (new & Hrun & Hsub & Hall & Hnd & Hcov).
  assert (Hnew : out = new).
  { subst out. unfold _dedupe_case_insensitive. by rewrite Hrun. }
  rewrite Hnew. clear out Hnew Hrun.
  assert (Htrim : Forall (λ s, Str.strip s = s) new).
  { apply Forall_forall. intros s Hs.
    assert (s ∈ Str.strip <$> items) as [x [-> _]]%list_elem_of_fmap
      by by eapply elem_of_sublist.
    apply strip_idem. }
  split; [done|]. split; [|split; [done|split; [|split]]].
  - rewrite Forall_forall in Hall, Htrim. apply Forall_forall. intros s Hs.
    split; [by apply Hall|]. rewrite <-(Htrim s Hs). apply strip_trimmed.
  - intros item Hin Hne. destruct (Hcov item Hin Hne) as [Hk|Hk].
    { exfalso. by eapply (not_elem_of_empty (C := gset string)). }
    apply list_elem_of_fmap in Hk as [s [Heq Hs]]. by exists s.
  - apply sublist_length in Hsub. by rewrite length_fmap in Hsub.
  - unfold _dedupe_case_insensitive. rewrite dedupe_fold_fixed; [done| |done].
    rewrite Forall_forall in Hall, Htrim. apply Forall_forall. intros s Hs.
    split; [by apply Hall|]. split; [by apply Htrim|]. apply not_elem_of_empty.
Qed.

(** ** The links and the tips of an output row *)

Lemma in_depth_condition (short long : string) :
  negb (Str.is_nil long)
  && negb (Str.eqb long (if Str.is_nil short then long else short)) = true
  ↔ long ≠ "" ∧ short ≠ "" ∧ long ≠ short.
Proof.
  rewrite andb_true_iff, !negb_true_iff, is_nil_false, eqb_false.
  destruct (Str.is_nil short) eqn:Hs.
  - apply is_nil_true in Hs. tauto.
  - apply is_nil_false in Hs. tauto.
Qed.

(** X12. The video of an output row is the short link of its sheet row
    when there is one, and the long link otherwise.  The tips are at most
    eleven entries, each a label, a colon, a space and a non-empty value;
    the in-depth entry of the long link is among them exactly when the row
    has both links and they differ.  So a link of the row is never
    dropped, and the long link is never written twice. *)
Theorem X12_row_links `{Python} (now_utc : string) (row : sheet_row) (name : string) :
  let short := _clean_str (get row "__short_youtube_url") in
  let long := _clean_str (get row "__long_youtube_url") in
  let r := build_row now_utc row name in
  Out.video_url r = (if Str.is_nil short then long else short)
  ∧ (Out.video_url r = "" ↔ short = "" ∧ long = "")
  ∧ ∃ tips,
      Out.tips r = _pg_array_literal tips
      ∧ length tips ≤ 11
      ∧ Forall (λ t, ∃ label value, t = label +:+ ": " +:+ value ∧ value ≠ "") tips
      ∧ ("In-depth video: " +:+ long ∈ tips ↔ long ≠ "" ∧ short ≠ "" ∧ long ≠ short)
      ∧ (long = "" ∨ Out.video_url r = long ∨ "In-depth video: " +:+ long ∈ tips).
Proof.
  intros short long r. subst r. unfold build_row. cbn [Out.video_url Out.tips].
  fold short long.
  split; [done|]. split.
  { destruct (Str.is_nil short) eqn:Hs.
    - apply is_nil_true in Hs. tauto.
    - apply is_nil_false in Hs. tauto. }
  eexists. split; [reflexivity|].
  match goal with
  | |- context [List.map ?f (List.filter ?g ?l)] =>
      set (base := List.map f (List.filter g l));
      assert (Hlen : length base ≤ 10)
        by (subst base; rewrite length_map; apply (List.filter_length_le g l));
      assert (Hall : Forall (λ t, ∃ label value, t = label +:+ ": " +:+ value ∧ value ≠ "") base);
      [subst base; apply Forall_forall;
       intros t [p [<- Hp]]%list_elem_of_In%in_map_iff;
       apply filter_In in Hp as [_ Hp%negb_true_iff%is_nil_false];
       by exists p.1, p.2|];
      assert (Hout : "In-depth video: " +:+ long ∉ base);
      [subst base; intros [p [Heq Hp]]%list_elem_of_In%in_map_iff;
       apply filter_In in Hp as [Hp _]; simpl in Hp;
       repeat (destruct Hp as [<-|Hp]; [by simpl in Heq|]); done|]
  end.
  clearbody base.
  pose proof (in_depth_condition short long) as Hcond.
  destruct (negb (Str.is_nil long)
            && negb (Str.eqb long (if Str.is_nil short then long else short))) eqn:Hc.
  - assert (Hin : "In-depth video: " +:+ long ∈ base ++ ["In-depth video: " +:+ long]).
    { apply elem_of_app. right. by apply list_elem_of_singleton. }
    split; [rewrite length_app; simpl; lia|]. split; [|split].
    + apply Forall_app. split; [done|]. constructor; [|done].
      exists "In-depth video", long. split; [done|]. by apply Hcond.
    + split; [intros _; by apply Hcond|done].
    + by right; right.
  - split; [lia|]. split; [done|]. split.
    + split; [done|]. intros Hyes%Hcond. done.
    + destruct (Str.is_nil long) eqn:Hl; [left; by apply is_nil_true|].
      destruct (Str.is_nil short) eqn:Hs; [by right; left|].
      simpl in Hc. apply negb_false_iff, eqb_true in Hc. by right; left.
Qed.

(** ** The table that the spreadsheet script writes *)

Lemma out_table_lookup `{Python} now df i :
  let rows := (row_loop now df).1 in
  out_table now df !! i
  = (λ r, Out.with_id r (repaired_id (List.map Out.id rows) i (Out.id r))) <$> rows !! i.
Proof.
  intros rows. unfold out_table, set_ids. fold rows.
  rewrite lookup_zip_with, final_ids_spec, list_lookup_imap.
  change (List.map Out.id rows) with (Out.id <$> rows). rewrite list_lookup_fmap.
  by destruct (rows !! i).
Qed.

Lemma out_table_elem `{Python} now df r' :
  r' ∈ out_table now df →
  ∃ row new_id,
    kept row = true
    ∧ r' = Out.with_id (build_row now row (_clean_str (get row "Exercise"))) new_id.
Proof.
  intros [i Hi]%list_elem_of_lookup. rewrite out_table_lookup in Hi.
  destruct ((row_loop now df).1 !! i) as [r|] eqn:Hr; [|done].
  injection Hi as <-. apply list_elem_of_lookup_2 in Hr.
  unfold row_loop in Hr. rewrite row_fold_rows in Hr. simpl in Hr.
  apply list_elem_of_In, in_map_iff in Hr as [row [<- Hin]].
  apply filter_In in Hin as [_ Hk]. by eexists row, _.
Qed.

Lemma map_category_range `{Python} b p t : _map_category b p t ∈ CATEGORIES.
Proof.
  unfold _map_category, CATEGORIES.
  repeat (match goal with |- context [if ?c then _ else _] => destruct c end);
    compute_done.
Qed.

Lemma map_difficulty_range `{Python} level : _map_difficulty level ∈ DIFFICULTIES.
Proof.
  unfold _map_difficulty, DIFFICULTIES.
  repeat (match goal with |- context [if ?c then _ else _] => destruct c end);
    compute_done.
Qed.

Lemma dedupe_distinct `{Python} items :
  distinct_texts (length items) (_dedupe_case_insensitive items).
Proof.
  unfold distinct_texts, _dedupe_case_insensitive.
  destruct (dedupe_fold items ∅ []) as (new & Hrun & Hsub & Hall & Hnd & _).
  rewrite Hrun. cbn [snd app]. split; [|split; [|done]].
  - apply sublist_length in Hsub. by rewrite length_fmap in Hsub.
  - rewrite Forall_forall in Hall. apply Forall_forall. intros s Hs.
    split; [by apply Hall|].
    assert (s ∈ Str.strip <$> items) as [x [-> _]]%list_elem_of_fmap
      by by eapply elem_of_sublist.
    apply strip_trimmed.
Qed.


(** ** The shape of the ids *)

Lemma bounded_check (f : N → bool) (bound : nat) :
  List.forallb f (List.map N.of_nat (seq 0 bound)) = true →
  ∀ d, (d < N.of_nat bound)%N → f d = true.
Proof.
  intros Hall d Hd. rewrite List.forallb_forall in Hall. apply Hall.
  apply in_map_iff. exists (N.to_nat d). split; [apply N2Nat.id|].
  apply in_seq. lia.
Qed.

Lemma hex_digit_is_hex n : is_hex (Uuid.hex_digit n) = true.
Proof.
  unfold Uuid.hex_digit. cbv zeta.
  apply (bounded_check
           (λ d, is_hex (if (d <? 10)%N then ascii_of_N (48 + d) else ascii_of_N (87 + d)))
           16); [by vm_compute|].
  by apply N.mod_upper_bound.
Qed.

Lemma land_low (x : N) (k : N) : (N.land x (N.ones k) < 2 ^ k)%N.
Proof. rewrite N.land_ones. apply N.mod_upper_bound. by apply N.pow_nonzero. Qed.

Lemma version_digit x :
  Uuid.hex_digit (N.lor (N.land x 15) 80 / 16) = "5"%char.
Proof.
  apply Ascii.eqb_eq.
  apply (bounded_check (λ d, Ascii.eqb (Uuid.hex_digit (N.lor d 80 / 16)) "5") 16);
    [by vm_compute|].
  apply (land_low x 4).
Qed.

Lemma variant_digit x :
  is_variant (Uuid.hex_digit (N.lor (N.land x 63) 128 / 16)) = true.
Proof.
  apply (bounded_check (λ d, is_variant (Uuid.hex_digit (N.lor d 128 / 16))) 64);
    [by vm_compute|].
  apply (land_low x 6).
Qed.

Lemma stable_id_shape key : matches UUID5_PATTERN (_stable_exercise_id key) = true.
Proof.
  unfold _stable_exercise_id, Uuid.uuid5, Uuid.to_string, Uuid.hex2, UUID5_PATTERN.
  cbv zeta. cbn [matches].
  rewrite version_digit, variant_digit, !hex_digit_is_hex. reflexivity.
Qed.

Lemma matches_length pattern s :
  matches pattern s = true → String.length s = String.length pattern.
Proof.
  revert s. induction pattern as [|p pattern IH]; intros [|c s]; simpl; try done.
  intros [_ Hs]%andb_true_iff. by rewrite (IH s Hs).
Qed.

Lemma out_table_ids `{Python} now df :
  List.map Out.id (out_table now df)
  = final_ids (List.map Out.id (row_loop now df).1).
Proof.
  apply list_eq. intros i.
  change (List.map Out.id (out_table now df)) with (Out.id <$> out_table now df).
  rewrite list_lookup_fmap, out_table_lookup, final_ids_spec, list_lookup_imap.
  change (List.map Out.id (row_loop now df).1) with (Out.id <$> (row_loop now df).1).
  rewrite list_lookup_fmap. by destruct ((row_loop now df).1 !! i).
Qed.

(** X14. Every id of the table that the spreadsheet script writes, repaired
    or not, is the text of a version-5 UUID: 36 characters, lower-case
    hexadecimal digits in groups of 8, 4, 4, 4 and 12 separated by dashes,
    with 5 as the first digit of the third group and 8, 9, a or b as the
    first digit of the fourth; and so is every result of
    [_stable_exercise_id]. *)
Theorem X14_ids_are_uuids `{Python} (now_utc : string) (df : list sheet_row) :
  Forall (λ r, matches UUID5_PATTERN (Out.id r) = true
               ∧ String.length (Out.id r) = 36)
    (out_table now_utc df)
  ∧ (∀ key, matches UUID5_PATTERN (_stable_exercise_id key) = true).
Proof.
  split; [|apply stable_id_shape].
  assert (Hids : Forall (λ eid, matches UUID5_PATTERN eid = true)
                   (List.map Out.id (out_table now_utc df))).
  { rewrite out_table_ids, final_ids_spec, row_loop_ids.
    apply Forall_forall. intros eid [i Hi]%list_elem_of_lookup.
    rewrite list_lookup_imap in Hi.
    destruct (_ !! i) as [old|] eqn:Hold; [|done]. injection Hi as <-.
    unfold repaired_id. destruct (Nat.eqb _ 1); [|apply stable_id_shape].
    apply list_elem_of_lookup_2, list_elem_of_In, in_map_iff in Hold as [k [<- _]].
    apply stable_id_shape. }
  rewrite Forall_forall in Hids. apply Forall_forall. intros r Hr.
  assert (Hm : matches UUID5_PATTERN (Out.id r) = true).
  { apply Hids, list_elem_of_In, in_map. by apply list_elem_of_In. }
  split; [done|]. by apply matches_length in Hm.
Qed.

(** ** The repair pass and the rows *)

(** X15. The table that the spreadsheet script writes has one row for each
    output row of the loop, in order; each differs from its output row in
    the id at most, and the table is the list of output rows itself when
    no two of them have the same id. *)
Theorem X15_repair_keeps_rows `{Python} (now_utc : string) (df : list sheet_row) :
  let rows := (row_loop now_utc df).1 in
  let table := out_table now_utc df in
  length table = length rows
  ∧ length table = length (List.filter kept df)
  ∧ Forall2 (λ r r', Out.with_id r' (Out.id r) = r) rows table
  ∧ table = (if has_duplicates (List.map Out.id rows)
             then set_ids rows (repair_pass (List.map Out.id rows))
             else rows).
Proof.
  intros rows table.
  assert (Hlen : length table = length rows).
  { subst table. unfold out_table, set_ids. fold rows.
    rewrite length_zip_with, final_ids_spec, length_imap, length_map. lia. }
  split; [done|]. split; [|split].
  - rewrite Hlen. subst rows. unfold row_loop. rewrite row_fold_rows. simpl.
    by rewrite length_map.
  - apply Forall2_same_length_lookup. split; [done|].
    intros i r r' Hr Hr'. subst table. rewrite out_table_lookup in Hr'.
    fold rows in Hr'. rewrite Hr in Hr'. injection Hr' as <-. by destruct r.
  - subst table. unfold out_table, final_ids. fold rows.
    destruct (has_duplicates (List.map Out.id rows)); [done|].
    unfold set_ids. clear Hlen. induction rows as [|r l IH]; [done|]. simpl.
    rewrite IH. by destruct r.
Qed.

(** ** The normalised names *)

Lemma rev_app_rev_app a b c :
  String.rev_app (String.rev_app a b) c = String.rev_app b (a +:+ c).
Proof.
  revert b c. induction a as [|x a IH]; intros b c; [done|]. simpl.
  by rewrite IH.
Qed.

Lemma rev_rev s : String.rev (String.rev s) = s.
Proof. unfold String.rev. rewrite rev_app_rev_app. simpl. apply sapp_nil_r. Qed.

Lemma forallb_rev_app p a b :
  Str.forallb p (String.rev_app a b) = Str.forallb p a && Str.forallb p b.
Proof.
  revert b. induction a as [|x a IH]; intros b; [done|]. simpl.
  rewrite IH. simpl. destruct (p x), (Str.forallb p a); simpl; try done.
Qed.

Lemma words_go_word w cur rest :
  no_space w = true →
  Str.words_go cur (w +:+ rest) = Str.words_go (String.rev_app w cur) rest.
Proof.
  revert cur. induction w as [|c w IH]; intros cur Hw; [done|].
  simpl in Hw. apply andb_true_iff in Hw as [Hc%negb_true_iff Hw].
  rewrite sapp_cons. simpl. rewrite Hc. by apply IH.
Qed.

Lemma words_go_no_space s cur :
  no_space cur = true → Forall (λ w, no_space w = true) (Str.words_go cur s).
Proof.
  assert (Hrev : ∀ t, no_space t = true → no_space (String.rev t) = true).
  { intros t Ht. unfold no_space, String.rev in *.
    rewrite forallb_rev_app. by rewrite Ht. }
  revert cur. induction s as [|c r IH]; intros cur Hcur; simpl.
  - destruct (Str.is_nil cur); constructor; [by apply Hrev|done].
  - destruct (Chr.is_space c) eqn:Hc.
    + apply Forall_app. split; [|by apply IH].
      destruct (Str.is_nil cur); constructor; [by apply Hrev|done].
    + apply IH. unfold no_space in *. simpl. by rewrite Hc, Hcur.
Qed.

Lemma words_shape s : Forall (λ w, w ≠ "" ∧ no_space w = true) (Str.words s).
Proof.
  destruct (words_go_spec s "") as [Hne _].
  pose proof (words_go_no_space s "" eq_refl) as Hns.
  rewrite Forall_forall in Hne, Hns. apply Forall_forall. intros w Hw.
  split; [by apply Hne|by apply Hns].
Qed.

Lemma words_one w : w ≠ "" → no_space w = true → Str.words_go "" (w +:+ "") = [w].
Proof.
  intros Hne Hw. rewrite words_go_word by done. simpl.
  destruct (Str.is_nil (String.rev_app w "")) eqn:Hnil.
  - apply is_nil_true in Hnil. destruct w as [|c r]; [done|].
    by apply (rev_app_ne r (String c "")) in Hnil.
  - f_equal. apply rev_rev.
Qed.

Lemma words_join ws :
  Forall (λ w, w ≠ "" ∧ no_space w = true) ws → Str.words (Str.join " " ws) = ws.
Proof.
  unfold Str.words. induction ws as [|w ws IH]; intros Hall; [done|].
  apply Forall_cons in Hall as [[Hne Hw] Hall]. destruct ws as [|y ys].
  - cbn [Str.join]. rewrite <-(sapp_nil_r w) at 1. by apply words_one.
  - change (Str.join " " (w :: y :: ys)) with (w +:+ String " " (Str.join " " (y :: ys))).
    rewrite words_go_word by done.
    change (Str.words_go (String.rev_app w "") (String " " (Str.join " " (y :: ys))))
      with ((if Str.is_nil (String.rev_app w "") then [] else [String.rev (String.rev_app w "")])
            ++ Str.words_go "" (Str.join " " (y :: ys))).
    rewrite (IH Hall).
    destruct (Str.is_nil (String.rev_app w "")) eqn:Hnil.
    + apply is_nil_true in Hnil. destruct w as [|c r]; [done|].
      by apply (rev_app_ne r (String c "")) in Hnil.
    + simpl. f_equal. apply rev_rev.
Qed.

Lemma last_forallb p s d :
  Str.forallb p s = true → Str.last s = Some d → p d = true.
Proof.
  induction s as [|c r IH]; [done|]. simpl.
  intros [Hc Hr]%andb_true_iff. destruct r as [|a r].
  - by intros [= <-].
  - by apply IH.
Qed.

Lemma join_last ws :
  ws ≠ [] → Forall (λ w, w ≠ "" ∧ no_space w = true) ws →
  ∃ d, Str.last (Str.join " " ws) = Some d ∧ Chr.is_space d = false.
Proof.
  induction ws as [|w ws IH]; [done|]. intros _ [[Hne Hw] Hall]%Forall_cons.
  destruct ws as [|y ys].
  - cbn [Str.join]. destruct w as [|c r]; [done|].
    destruct (last_is_some c r) as [d Hd]. exists d. split; [done|].
    apply negb_true_iff. by apply (last_forallb _ _ _ Hw Hd).
  - destruct (IH ltac:(done) Hall) as (d & Hd & Hsp). exists d. split; [|done].
    change (Str.join " " (w :: y :: ys)) with (w +:+ String " " (Str.join " " (y :: ys))).
    rewrite last_app_cons.
    destruct (Str.join " " (y :: ys)) as [|a r] eqn:Hj; [done|].
    by rewrite last_cons.
Qed.

Lemma join_trimmed ws :
  Forall (λ w, w ≠ "" ∧ no_space w = true) ws → trimmed (Str.join " " ws) = true.
Proof.
  intros Hall. destruct ws as [|w ws]; [done|].
  destruct (join_last (w :: ws) ltac:(done) Hall) as (d & Hd & Hsp).
  apply Forall_cons in Hall as [[Hne Hw] _].
  destruct w as [|c r]; [done|].
  simpl in Hw. apply andb_true_iff in Hw as [Hc _].
  assert (Hj : ∃ rest, Str.join " " (String c r :: ws) = String c rest).
  { destruct ws; by eexists. }
  destruct Hj as [rest Hj]. rewrite Hj in *. unfold trimmed. by rewrite Hd, Hc, Hsp.
Qed.

(** X16. The normalised form of a text is its words, the maximal runs of
    characters that are not whitespace, joined by single spaces; it has
    the words of the text, so normalising it again changes nothing, and no
    whitespace at an end.  Every name of the table that the spreadsheet
    script writes is non-empty and in normalised form. *)
Theorem X16_normalised_names `{Python} (now_utc : string) (df : list sheet_row) :
  (∀ s,
     let n := Str.join " " (Str.words s) in
     Forall (λ w, w ≠ "" ∧ no_space w = true) (Str.words s)
     ∧ Str.words n = Str.words s
     ∧ Str.join " " (Str.words n) = n
     ∧ trimmed n = true)
  ∧ Forall (λ r, Out.name r ≠ ""
                 ∧ Str.join " " (Str.words (Out.name r)) = Out.name r
                 ∧ trimmed (Out.name r) = true)
      (out_table now_utc df).
Proof.
  assert (Hnorm : ∀ s,
     let n := Str.join " " (Str.words s) in
     Forall (λ w, w ≠ "" ∧ no_space w = true) (Str.words s)
     ∧ Str.words n = Str.words s
     ∧ Str.join " " (Str.words n) = n
     ∧ trimmed n = true).
  { intros s n. pose proof (words_shape s) as Hshape.
    assert (Hw : Str.words n = Str.words s) by by apply words_join.
    split; [done|]. split; [done|]. split; [by rewrite Hw|by apply join_trimmed]. }
  split; [exact Hnorm|].
  apply Forall_forall. intros r' (row & new_id & Hk & ->)%out_table_elem.
  unfold Out.with_id, build_row. cbn [Out.name].
  destruct (Hnorm (_clean_str (get row "Exercise"))) as (_ & _ & Hidem & Htrim).
  split; [|done].
  unfold kept in Hk. apply negb_true_iff, is_nil_false in Hk.
  destruct (clean_str_cases (get row "Exercise")) as [?|(s & Hs & Hne)]; [done|].
  rewrite Hs. by apply norm_name_ne.
Qed.

(** ** The duplicate counts *)

Lemma duplicated_from_sum (seen : gset string) l :
  sum_true (duplicated_from seen l) + size (seen ∪ list_to_set l)
  = length l + size seen.
Proof.
  revert seen. induction l as [|x l IH]; intros seen.
  - simpl. by rewrite (right_id_L ∅ (∪)).
  - cbn [duplicated_from list_to_set length]. specialize (IH ({[x]} ∪ seen)).
    assert (Hset : seen ∪ ({[x]} ∪ list_to_set l) = {[x]} ∪ seen ∪ list_to_set l).
    { by rewrite (assoc_L (∪)), (comm_L (∪) seen). }
    rewrite Hset. unfold sum_true in *. cbn [List.filter].
    case_bool_decide as Hx; cbn [length].
    + assert (Hsub : {[x]} ∪ seen = seen).
      { apply subseteq_union_1_L. by apply singleton_subseteq_l. }
      rewrite Hsub in *. lia.
    + rewrite (size_union {[x]} seen) in IH by by apply disjoint_singleton_l.
      rewrite size_singleton in IH. lia.
Qed.

Lemma duplicated_sum l :
  sum_true (duplicated l) + size (list_to_set l : gset string) = length l.
Proof.
  pose proof (duplicated_from_sum ∅ l) as Hsum.
  rewrite (left_id_L ∅ (∪)), size_empty in Hsum. unfold duplicated. lia.
Qed.

Lemma duplicated_from_none (seen : gset string) l :
  sum_true (duplicated_from seen l) = 0 ↔ NoDup l ∧ ∀ x, x ∈ l → x ∉ seen.
Proof.
  revert seen. induction l as [|x l IH]; intros seen.
  - split; [|done]. intros _. split; [constructor|]. by intros x Hx%elem_of_nil.
  - cbn [duplicated_from]. unfold sum_true in *. cbn [List.filter].
    case_bool_decide as Hx; cbn [length].
    + split; [done|]. intros [_ Hall]. exfalso. apply (Hall x); [|done].
      apply elem_of_cons. by left.
    + rewrite IH, NoDup_cons. split.
      * intros [Hnd Hall]. split; [split; [|done]|].
        -- intros Hin. apply (Hall x Hin), elem_of_union. left.
           by apply elem_of_singleton.
        -- intros y [->|Hy]%elem_of_cons; [done|].
           intros Hs. apply (Hall y Hy), elem_of_union. by right.
      * intros [[Hfirst Hnd] Hall]. split; [done|].
        intros y Hy [->%elem_of_singleton|Hs]%elem_of_union; [done|].
        apply (Hall y); [|done]. apply elem_of_cons. by right.
Qed.

Lemma duplicated_none l : sum_true (duplicated l) = 0 ↔ NoDup l.
Proof.
  unfold duplicated. rewrite duplicated_from_none. split; [tauto|].
  intros Hnd. split; [done|]. intros x _. apply not_elem_of_empty.
Qed.

Lemma count_in_cons eid x l :
  count_in eid (x :: l) = (if Str.eqb x eid then 1 else 0) + count_in eid l.
Proof. unfold count_in. simpl. by destruct (Str.eqb x eid). Qed.

Lemma row_step_counts `{Python} now st row :
  (row_step now st row).2
  = if kept row
    then <[name_key row := default 0 (st.2 !! name_key row) + 1]> st.2
    else st.2.
Proof.
  destruct st as [rows counts]. unfold row_step, kept, name_key. simpl.
  by destruct (Str.is_nil (_clean_str (get row "Exercise"))).
Qed.

Lemma row_fold_counts `{Python} now df st key :
  let n := count_in key (List.map name_key (List.filter kept df)) in
  (fold_left (row_step now) df st).2 !! key
  = if Nat.eqb n 0 then st.2 !! key else Some (default 0 (st.2 !! key) + n).
Proof.
  revert st. induction df as [|row df IH]; intros st; [done|].
  cbn [fold_left List.filter]. cbv zeta in *. rewrite IH, row_step_counts.
  destruct (kept row) eqn:Hk; [|done].
  cbn [List.map]. rewrite count_in_cons.
  set (n := count_in key _).
  destruct (Str.eqb (name_key row) key) eqn:Heq.
  - apply eqb_true in Heq. rewrite Heq, lookup_insert_eq. simpl.
    destruct (Nat.eqb n 0) eqn:Hn.
    + apply Nat.eqb_eq in Hn. rewrite Hn. f_equal; lia.
    + f_equal; lia.
  - apply eqb_false in Heq. by rewrite lookup_insert_ne.
Qed.

Lemma name_counts_lookup `{Python} now df key :
  let n := count_in key (List.map name_key (List.filter kept df)) in
  (row_loop now df).2 !! key = if Nat.eqb n 0 then None else Some n.
Proof.
  intros n. unfold row_loop. rewrite row_fold_counts. fold n. simpl.
  by rewrite lookup_empty.
Qed.

Lemma name_counts_dom `{Python} now df :
  dom (row_loop now df).2
  = (list_to_set (List.map name_key (List.filter kept df)) : gset string).
Proof.
  apply set_eq. intros key.
  rewrite elem_of_dom, elem_of_list_to_set, name_counts_lookup.
  destruct (decide (key ∈ List.map name_key (List.filter kept df))) as [Hin|Hout].
  - pose proof (count_in_pos _ _ Hin) as Hpos.
    destruct (count_in key _); [lia|]. simpl. split; [done|by eexists].
  - rewrite (count_in_zero _ _ Hout). simpl. split; [by intros [? ?]|done].
Qed.

Lemma out_table_keys `{Python} now df :
  List.map (λ r, Str.casefold (Str.strip (Out.name r))) (out_table now df)
  = List.map name_key (List.filter kept df).
Proof.
  apply list_eq. intros i.
  change (List.map ?f ?l) with (f <$> l).
  rewrite !list_lookup_fmap, out_table_lookup.
  unfold row_loop. rewrite row_fold_rows. cbn [fst app].
  change (List.map ?f ?l) with (f <$> l). rewrite list_lookup_fmap.
  destruct (List.filter kept df !! i) as [row|]; [|done]. simpl.
  unfold name_key. do 2 f_equal. apply trimmed_strip, join_trimmed, words_shape.
Qed.

(** X17. The name counter of the row loop holds, for the case-folded
    normalised name of each kept row, the number of kept rows with that
    name, and nothing else.  The duplicate count of the audit report is
    the number of rows of the written table less the number of entries of
    the counter, and it is zero exactly when no two kept rows have the
    same name up to case and spacing. *)
Theorem X17_duplicate_names `{Python} (now_utc : string) (df : list sheet_row) :
  let keys := List.map name_key (List.filter kept df) in
  let name_counts := (row_loop now_utc df).2 in
  let table := out_table now_utc df in
  (∀ key,
     name_counts !! key
     = if Nat.eqb (count_in key keys) 0 then None else Some (count_in key keys))
  ∧ dup_names table + size name_counts = length table
  ∧ (dup_names table = 0 ↔ NoDup keys).
Proof.
  intros keys name_counts table.
  split; [intros key; apply name_counts_lookup|].
  unfold dup_names. subst table. rewrite out_table_keys. fold keys. split.
  - rewrite <-(length_map (λ r, Str.casefold (Str.strip (Out.name r)))
                 (out_table now_utc df)).
    rewrite out_table_keys. fold keys.
    subst name_counts. rewrite <-size_dom, name_counts_dom. fold keys.
    apply duplicated_sum.
  - apply duplicated_none.
Qed.


(** ** The links of the worksheet *)

Lemma link_step_spec ws col r urls count :
  link_step ws col r urls count
  = (urls ++ [link_at ws col r], count + links_found [link_at ws col r]).
Proof.
  unfold link_step, link_at, links_found. destruct col as [c|]; simpl.
  - destruct (Str.is_nil (link_target (Sheet.cell_at ws r c))); simpl; f_equal; lia.
  - f_equal. lia.
Qed.

Lemma links_found_app a b : links_found (a ++ b) = links_found a + links_found b.
Proof. unfold links_found. by rewrite List.filter_app, length_app. Qed.

Lemma links_fold ws col_short col_long rows short long counts :
  fold_left (links_step ws col_short col_long) rows (short, long, counts)
  = (short ++ List.map (link_at ws col_short) rows,
     long ++ List.map (link_at ws col_long) rows,
     {| short_links :=
          short_links counts + links_found (List.map (link_at ws col_short) rows);
        long_links :=
          long_links counts + links_found (List.map (link_at ws col_long) rows) |}).
Proof.
  revert short long counts. induction rows as [|r rows IH]; intros short long counts.
  - simpl. rewrite !app_nil_r. unfold links_found. simpl. rewrite !Nat.add_0_r.
    by destruct counts.
  - cbn [fold_left List.map]. unfold links_step at 2. rewrite !link_step_spec.
    rewrite IH. cbn [short_links long_links].
    change (?x :: List.map ?f rows) with ([x] ++ List.map f rows).
    rewrite !links_found_app, <-!app_assoc. do 2 f_equal; lia.
Qed.

(** X19. The two lists of links that [_extract_youtube_links] returns have
    the same length.  When the header row has neither link column they are
    empty; otherwise each has one entry for every data row of the
    worksheet, in order: the target of the hyperlink of the row's cell in
    the column, and the empty text when the cell has no hyperlink, the
    hyperlink no target, or the column is missing.  Each of the two counts
    is the number of non-empty entries of its list. *)
Theorem X19_extracted_links (ws : Sheet.worksheet) :
  let '(short_urls, long_urls, counts) := _extract_youtube_links ws in
  let '(col_short, col_long) := link_columns ws in
  length short_urls = length long_urls
  ∧ short_links counts = links_found short_urls
  ∧ long_links counts = links_found long_urls
  ∧ short_urls
    = (if bool_decide (col_short = None ∧ col_long = None) then []
       else List.map (link_at ws col_short) (data_rows ws))
  ∧ long_urls
    = (if bool_decide (col_short = None ∧ col_long = None) then []
       else List.map (link_at ws col_long) (data_rows ws))
  ∧ (col_short = None → Forall (λ url, url = "") short_urls)
  ∧ (col_long = None → Forall (λ url, url = "") long_urls).
Proof.
  unfold _extract_youtube_links, link_columns. cbv zeta.
  set (col_short := find_col _ "Short YouTube Demonstration").
  set (col_long := find_col _ "In-Depth YouTube Explanation").
  assert (Hnone : ∀ rows, Forall (λ url, url = "") (List.map (link_at ws None) rows)).
  { intros rows. apply Forall_forall. by intros url [r [<- _]]%list_elem_of_In%in_map_iff. }
  change (seq (HEADER_ROW_1_INDEXED + 1) (Sheet.max_row ws - HEADER_ROW_1_INDEXED))
    with (data_rows ws).
  destruct col_short as [cs|], col_long as [cl|];
    rewrite ?links_fold; cbn [app short_links long_links Nat.add];
    rewrite ?length_map;
    (split; [done|]); (split; [done|]); (split; [done|]);
    (split; [by try rewrite bool_decide_eq_false_2 by (by intros [? ?])|]);
    (split; [by try rewrite bool_decide_eq_false_2 by (by intros [? ?])|]);
    (split; [intros ?|intros ?]); try done; try apply Hnone; constructor.
Qed.

(** ** The link columns of the frame *)

Lemma align_length n urls : length (align n urls) = n.
Proof.
  unfold align. destruct (n <=? length urls) eqn:Hn.
  - apply Nat.leb_le in Hn. by apply length_take_le.
  - apply Nat.leb_gt in Hn. rewrite length_app, length_replicate. lia.
Qed.

Lemma align_lookup n urls i :
  i < n → align n urls !! i = Some (default "" (urls !! i)).
Proof.
  intros Hi. unfold align. destruct (n <=? length urls) eqn:Hn.
  - apply Nat.leb_le in Hn. rewrite lookup_take_lt by done.
    destruct (lookup_lt_is_Some_2 urls i ltac:(lia)) as [u Hu]. by rewrite Hu.
  - apply Nat.leb_gt in Hn. destruct (decide (i < length urls)) as [Hlt|Hge].
    + rewrite lookup_app_l by done.
      destruct (lookup_lt_is_Some_2 urls i Hlt) as [u Hu]. by rewrite Hu.
    + rewrite lookup_app_r by lia. rewrite lookup_replicate_2 by lia.
      by rewrite (lookup_ge_None_2 urls i) by lia.
Qed.

Lemma set_column_lookup col urls df i :
  set_column col (align (length df) urls) df !! i
  = (λ row, <[col := PStr (default "" (urls !! i))]> row) <$> df !! i.
Proof.
  unfold set_column. rewrite lookup_zip_with.
  destruct (df !! i) as [row|] eqn:Hrow; [|done]. simpl.
  by rewrite align_lookup by by eapply lookup_lt_Some.
Qed.

Lemma set_column_length col urls df :
  length (set_column col (align (length df) urls) df) = length df.
Proof. unfold set_column. rewrite length_zip_with, align_length. lia. Qed.

Lemma with_links_lookup ws df i :
  with_links ws df !! i
  = (λ row,
       <["__long_youtube_url" := PStr (default "" ((_extract_youtube_links ws).1.2 !! i))]>
         (<["__short_youtube_url" :=
              PStr (default "" ((_extract_youtube_links ws).1.1 !! i))]> row))
    <$> df !! i.
Proof.
  unfold with_links. destruct (_extract_youtube_links ws) as [[short long] counts].
  cbv zeta. cbn [fst snd].
  rewrite <-(set_column_length "__short_youtube_url" short df) at 1.
  rewrite set_column_lookup, set_column_lookup. by destruct (df !! i).
Qed.

(** X20. Each list of links is fitted to the number of rows of the frame:
    the fitted list has exactly that many entries, the entry at a position
    being the link at that position and the empty text where the list has
    none.  The frame with its two link columns has the rows of the frame,
    in order, each with the two links of its position and every other cell
    as it was; so a row is kept exactly when it was, and the video of its
    output row is its trimmed short link, or its trimmed long link when the
    short one is blank. *)
Theorem X20_link_columns `{Python} (ws : Sheet.worksheet) (df : list sheet_row) :
  let short_urls := (_extract_youtube_links ws).1.1 in
  let long_urls := (_extract_youtube_links ws).1.2 in
  (∀ n urls,
     length (align n urls) = n
     ∧ ∀ i, i < n → align n urls !! i = Some (default "" (urls !! i)))
  ∧ length (with_links ws df) = length df
  ∧ ∀ i row,
      df !! i = Some row →
      ∃ linked,
        with_links ws df !! i = Some linked
        ∧ get linked "__short_youtube_url" = PStr (default "" (short_urls !! i))
        ∧ get linked "__long_youtube_url" = PStr (default "" (long_urls !! i))
        ∧ (∀ k, k ≠ "__short_youtube_url" → k ≠ "__long_youtube_url" →
             linked !! k = row !! k)
        ∧ kept linked = kept row
        ∧ ∀ now_utc name,
            Out.video_url (build_row now_utc linked name)
            = (if Str.is_nil (Str.strip (default "" (short_urls !! i)))
               then Str.strip (default "" (long_urls !! i))
               else Str.strip (default "" (short_urls !! i))).
Proof.
  intros short_urls long_urls.
  split; [intros n urls; split; [apply align_length|apply align_lookup]|].
  split.
  { unfold with_links. destruct (_extract_youtube_links ws) as [[short long] counts].
    cbv zeta.
    rewrite <-(set_column_length "__short_youtube_url" short df) at 1.
    by rewrite !set_column_length. }
  intros i row Hrow. eexists. rewrite with_links_lookup, Hrow. fold short_urls long_urls.
  split; [reflexivity|].
  assert (Hshort : get (<["__long_youtube_url" := PStr (default "" (long_urls !! i))]>
                          (<["__short_youtube_url" :=
                               PStr (default "" (short_urls !! i))]> row))
                     "__short_youtube_url"
                   = PStr (default "" (short_urls !! i))).
  { unfold get. by rewrite lookup_insert_ne, lookup_insert_eq by done. }
  assert (Hlong : get (<["__long_youtube_url" := PStr (default "" (long_urls !! i))]>
                         (<["__short_youtube_url" :=
                              PStr (default "" (short_urls !! i))]> row))
                    "__long_youtube_url"
                  = PStr (default "" (long_urls !! i))).
  { unfold get. by rewrite lookup_insert_eq. }
  split; [done|]. split; [done|]. split; [|split].
  - intros k Hk1 Hk2. by rewrite !lookup_insert_ne by done.
  - unfold kept, get. by rewrite !lookup_insert_ne by done.
  - intros now_utc name. unfold build_row. cbn [Out.video_url].
    by rewrite Hshort, Hlong, !clean_str_text.
Qed.

(** ** The examples and the counts of a column *)

(** X21. After the pass over an array column the number of recorded
    examples is the number of invalid rows, capped at ten; so a column has
    examples exactly when it has invalid rows, and the rebuilt column has
    one cell for each row counted. *)
Theorem X21_examples_match_counts `{Python} (df : frame) (col : string) :
  let pass := column_loop df col in
  length (invalid_examples pass) = min 10 (invalid_json_rows (stats pass))
  ∧ (invalid_examples pass = [] ↔ invalid_json_rows (stats pass) = 0)
  ∧ length (new_values pass) = total_rows (stats pass).
Proof.
  intros pass. subst pass. unfold column_loop.
  set (rows := enumerate (default [] (df !! col))).
  set (st := {| stats := new_stats col; invalid_examples := []; new_values := [] |}).
  destruct (column_fold df rows st [] eq_refl) as [Hcount Hexamples].
  destruct (column_fold_counts df rows st) as (_ & Htotal & _).
  pose proof (column_fold_values df rows st) as Hvalues.
  cbv zeta in *. simpl in Hcount, Hexamples, Htotal, Hvalues.
  assert (Hlen : length (invalid_examples (fold_left (column_step df) rows st))
                 = min 10 (invalid_json_rows (stats (fold_left (column_step df) rows st)))).
  { by rewrite Hexamples, Hcount, length_take, length_map. }
  split; [done|]. split.
  - split.
    + intros Hnil. rewrite Hnil in Hlen. cbn [length] in Hlen. lia.
    + intros Hzero. rewrite Hzero in Hlen. apply nil_length_inv. lia.
  - by rewrite Hvalues, Htotal, length_map.
Qed.

(** ** The headers of the frame *)

Lemma padded_not_trimmed name : trimmed (name +:+ " ") = false.
Proof.
  destruct name as [|c r]; [done|]. rewrite sapp_cons. unfold trimmed.
  rewrite <-sapp_cons, last_app_cons. simpl. apply andb_false_r.
Qed.

Lemma repair_header_trimmed name columns :
  Forall (λ c, trimmed c = true) columns → repair_header name columns = columns.
Proof.
  intros Hall. unfold repair_header.
  assert (member (name +:+ " ") columns = false) as ->; [|by rewrite andb_false_r].
  apply bool_decide_eq_false. intros Hin. rewrite Forall_forall in Hall.
  specialize (Hall _ Hin). by rewrite padded_not_trimmed in Hall.
Qed.

Lemma add_column_trimmed name columns :
  trimmed name = true → Forall (λ c, trimmed c = true) columns →
  Forall (λ c, trimmed c = true) (add_column name columns).
Proof.
  intros Hname Hall. unfold add_column. destruct (member name columns); [done|].
  apply Forall_app. split; [done|]. by constructor.
Qed.

(** X22. The names of the columns are trimmed before the two headers with
    a trailing space are looked for, so neither is ever found: the headers
    of the frame are the trimmed names of the sheet's columns, without the
    first column when its name starts with [Unnamed], followed by the two
    link columns where the sheet has no column of that name; none of them
    has whitespace at an end, and the renaming step changes no list of
    trimmed names. *)
Theorem X22_header_repair_is_idle `{Python} (columns : list pyval) :
  main_headers columns
  = add_column "__long_youtube_url"
      (add_column "__short_youtube_url" (strip_names (drop_unnamed columns)))
  ∧ Forall (λ c, trimmed c = true) (main_headers columns)
  ∧ (∀ name names, repair_header name (List.map Str.strip names) = List.map Str.strip names).
Proof.
  assert (Htrim : Forall (λ c, trimmed c = true)
                    (add_column "__long_youtube_url"
                       (add_column "__short_youtube_url"
                          (strip_names (drop_unnamed columns))))).
  { do 2 (apply add_column_trimmed; [done|]). unfold strip_names.
    apply Forall_forall. intros c [x [<- _]]%list_elem_of_In%in_map_iff.
    apply strip_trimmed. }
  assert (Hmain : main_headers columns
                  = add_column "__long_youtube_url"
                      (add_column "__short_youtube_url"
                         (strip_names (drop_unnamed columns)))).
  { unfold main_headers.
    rewrite (repair_header_trimmed "Target Muscle Group") by exact Htrim.
    by rewrite repair_header_trimmed by exact Htrim. }
  split; [done|]. split; [by rewrite Hmain|].
  intros name names. apply repair_header_trimmed, Forall_forall.
  intros c [x [<- _]]%list_elem_of_In%in_map_iff. apply strip_trimmed.
Qed.

(** ** The column of a header *)

Lemma find_col_from (name : string) (headers : list pyval) (start : nat) :
  match fst <$> List.find (λ p : nat * pyval, is_header name p.2)
                  (zip (seq start (length headers)) headers) with
  | Some idx =>
      start ≤ idx < start + length headers
      ∧ (∃ v, headers !! (idx - start) = Some v ∧ is_header name v = true)
      ∧ Forall (λ v, is_header name v = false) (take (idx - start) headers)
  | None => Forall (λ v, is_header name v = false) headers
  end.
Proof.
  revert start. induction headers as [|v headers IH]; intros start; [by constructor|].
  cbn [length seq zip zip_with List.find snd].
  destruct (is_header name v) eqn:Hv.
  - cbn [fmap option_fmap option_map fst]. rewrite Nat.sub_diag. simpl.
    split; [lia|]. split; [by exists v|constructor].
  - specialize (IH (S start)).
    change (zip_with pair (seq (S start) (length headers)) headers)
      with (zip (seq (S start) (length headers)) headers).
    destruct (fst <$> List.find _ (zip (seq (S start) (length headers)) headers))
      as [idx|]; [|by constructor].
    destruct IH as (Hidx & [w [Hw Hh]] & Hbefore).
    assert (Hsub : idx - start = S (idx - S start)) by lia.
    rewrite Hsub. simpl. split; [lia|]. split; [by exists w|by constructor].
Qed.

(** X23. The column that [find_col] gives for a header name is counted
    from 1 and lies within the header row; the header at that column is
    the name, and no header before it is.  It gives no column exactly when
    no header is the name.  So a column that is found is never taken for a
    missing one. *)
Theorem X23_find_col (headers : list pyval) (header_name : string) :
  match find_col headers header_name with
  | Some idx =>
      1 ≤ idx ≤ length headers
      ∧ (∃ v, headers !! (idx - 1) = Some v ∧ is_header header_name v = true)
      ∧ Forall (λ v, is_header header_name v = false) (take (idx - 1) headers)
  | None => Forall (λ v, is_header header_name v = false) headers
  end.
Proof.
  unfold find_col. pose proof (find_col_from header_name headers 1) as Hfind.
  destruct (fst <$> List.find _ (zip (seq 1 (length headers)) headers)) as [idx|];
    [|done].
  destruct Hfind as (Hidx & Hat & Hbefore). split; [lia|]. by split.
Qed.

(** ** The time of the run *)

(** X24. The time of the run enters the written table as the creation
    time of its rows and nowhere else: the table of a run at another time
    is the same table with that time in every row, ids included, and the
    name counter is the same. *)
Theorem X24_time_only_in_created_at `{Python} (now_utc now_utc' : string)
    (df : list sheet_row) :
  out_table now_utc' df = List.map (at_time now_utc') (out_table now_utc df)
  ∧ (row_loop now_utc' df).2 = (row_loop now_utc df).2.
Proof.
  split.
  - apply list_eq. intros i.
    change (List.map (at_time now_utc') (out_table now_utc df))
      with (at_time now_utc' <$> out_table now_utc df).
    rewrite list_lookup_fmap, !out_table_lookup. cbv zeta.
    rewrite !row_loop_ids. unfold row_loop. rewrite !row_fold_rows. cbn [fst app].
    change (List.map ?f ?l) with (f <$> l). rewrite !list_lookup_fmap.
    by destruct (List.filter kept df !! i).
  - apply map_eq. intros key. by rewrite !name_counts_lookup.
Qed.

(** ** The ids of the written table *)

Lemma all_ascii_complete c : c ∈ all_ascii.
Proof.
  unfold all_ascii. apply list_elem_of_fmap. exists (nat_of_ascii c).
  split; [symmetry; apply ascii_nat_embedding|].
  apply elem_of_seq. pose proof (nat_ascii_bounded c). lia.
Qed.

Lemma texts_of_length_complete s : s ∈ texts_of_length (String.length s).
Proof.
  induction s as [|c s IH]; [by apply list_elem_of_singleton|].
  change (String.length (String c s)) with (S (String.length s)).
  cbn [texts_of_length]. apply list_elem_of_bind. exists c.
  split; [|apply all_ascii_complete]. apply list_elem_of_fmap. by exists s.
Qed.

(** More texts of length [n] than there are such texts: two are the same. *)
Lemma crowded (n : nat) (l : list string) :
  Forall (λ s, String.length s = n) l →
  length (texts_of_length n) < length l →
  ¬ NoDup l.
Proof.
  intros Hall Hlen Hnd.
  assert (Hsub : l ⊆+ texts_of_length n).
  { apply NoDup_submseteq; [done|]. intros x Hx. rewrite Forall_forall in Hall.
    rewrite <-(Hall x Hx). apply texts_of_length_complete. }
  apply submseteq_length in Hsub. lia.
Qed.

Lemma has_duplicate (l : list string) :
  ¬ NoDup l → ∃ i j x, i < j ∧ l !! i = Some x ∧ l !! j = Some x.
Proof.
  induction l as [|a l IH]; intros Hnd.
  { destruct Hnd. constructor. }
  destruct (decide (a ∈ l)) as [Hin|Hout].
  - apply list_elem_of_lookup in Hin as [j Hj]. exists 0, (S j), a.
    split; [lia|]. by split.
  - destruct IH as (i & j & x & Hij & Hi & Hj).
    { intros Hl. apply Hnd. by constructor. }
    exists (S i), (S j), x. split; [lia|]. by split.
Qed.

Lemma crowded_seq (n : nat) (f : nat → string) :
  (∀ k, String.length (f k) = n) → ∃ i j, i < j ∧ f i = f j.
Proof.
  intros Hlen. set (bound := length (texts_of_length n)).
  destruct (has_duplicate (f <$> seq 0 (S bound))) as (i & j & x & Hij & Hi & Hj).
  { apply (crowded n).
    - apply Forall_forall. intros s [k [-> _]]%list_elem_of_fmap. apply Hlen.
    - rewrite length_fmap, length_seq. fold bound. lia. }
  rewrite list_lookup_fmap in Hi, Hj.
  destruct (seq 0 (S bound) !! i) as [a|] eqn:Ha; [|done].
  destruct (seq 0 (S bound) !! j) as [b|] eqn:Hb; [|done].
  apply lookup_seq in Ha as [-> _]. apply lookup_seq in Hb as [-> _].
  simpl in Hi, Hj. exists i, j. split; [done|]. congruence.
Qed.

Lemma out_table_ids_stable `{Python} now df :
  Forall (λ eid, ∃ key, eid = _stable_exercise_id key)
    (List.map Out.id (out_table now df)).
Proof.
  rewrite out_table_ids, final_ids_spec, row_loop_ids.
  apply Forall_forall. intros eid [i Hi]%list_elem_of_lookup.
  rewrite list_lookup_imap in Hi.
  destruct (_ !! i) as [old|] eqn:Hold; [|done]. injection Hi as <-.
  unfold repaired_id. destruct (Nat.eqb _ 1); [|by eexists].
  apply list_elem_of_lookup_2, list_elem_of_In, in_map_iff in Hold as [k [<- _]].
  by eexists.
Qed.

Lemma out_table_length `{Python} now df :
  length (out_table now df) = length (List.filter kept df).
Proof.
  unfold out_table, set_ids.
  rewrite length_zip_with, final_ids_spec, length_imap, length_map.
  unfold row_loop. rewrite row_fold_rows. cbn [fst app]. rewrite length_map. lia.
Qed.

Lemma filter_kept_replicate `{Python} (row : sheet_row) m :
  kept row = true → List.filter kept (replicate m row) = replicate m row.
Proof. intros Hk. induction m as [|m IH]; [done|]. simpl. by rewrite Hk, IH. Qed.

(** A sheet of more kept rows than there are texts of the length of an
    id is written with two equal ids. *)
Lemma crowded_table `{Python} now (row : sheet_row) (m n : nat) :
  kept row = true →
  (∀ key, String.length (_stable_exercise_id key) = n) →
  length (texts_of_length n) < m →
  ¬ NoDup (List.map Out.id (out_table now (replicate m row))).
Proof.
  intros Hk Hlen Hm. apply (crowded n).
  - eapply Forall_impl; [apply out_table_ids_stable|].
    intros eid [key ->]. apply Hlen.
  - by rewrite length_map, out_table_length, filter_kept_replicate, length_replicate.
Qed.



